(** * Log scrubbing of bridge messages (package [log], scrub.go)

    A shallow embedding of the scrubbing functions of the [log] package:
    [ScrubProcessParameters], [ScrubBridgeCreate], [ScrubBridgeExecProcess]
    and their helpers, together with an executable model of the parts of
    Go's [encoding/json], [bytes] and [unicode/utf8] packages they call.

    - Go strings and byte slices are lists of bytes.
    - The process-wide flag [_scrub] is passed explicitly to every
      operation that reads it.
    - [json.Valid] and [json.Unmarshal] are a scanner into the syntax
      [json], with the library's limit on the nesting of objects and
      arrays, followed by the decoding into the target; the encoder writes
      the compact form, the keys of a map in increasing order, and the
      newline of [Encoder.Encode].  The conversion between number literals
      and [float64] is an interface, [Float64].
    - The tree that [json.Unmarshal] stores into an [interface{}] is a
      tree of maps.  A [genMap] variable of the source refers to one map of
      that tree: it is modelled as the path from the root, and the
      scrubbers run in a state monad over the tree, so that a store through
      a nested reference is seen from the root.
    - Of package [runc] (utils.go) the file holds the helpers that compute
      on strings: the pid file, the state and log paths with the loop of
      [filepath.Clean], and the error read from the log of runc.  What the
      operating system and the decoder of the log return is given to them
      as an argument.

    The definitions come first, the properties behind them; the last part
    runs the operations on concrete messages. *)

From Stdlib Require Import List Bool Arith NArith ZArith Lia String.
From Stdlib Require Import Strings.Byte Sorting.Sorted.
Import ListNotations.

Set Implicit Arguments.
Set Warnings "-register-all".

(** ** Bytes and strings *)

Abbreviation bytes := (list byte) (only parsing).
Abbreviation gostring := (list byte) (only parsing).

(** A Go string literal. *)
Definition lit (s : string) : list byte := list_byte_of_string s.

(** A JSON text given with an apostrophe at each place of a double quote. *)
Definition jsonText (s : string) : list byte :=
  map (fun c => if Byte.eqb c x27 then x22 else c) (lit s).

Definition byte_of (n : N) : byte :=
  match Byte.of_N n with
  | Some b => b
  | None => x00
  end.

Definition code (b : byte) : N := Byte.to_N b.

Fixpoint bytes_eqb (a b : list byte) : bool :=
  match a, b with
  | [], [] => true
  | x :: a', y :: b' => Byte.eqb x y && bytes_eqb a' b'
  | _, _ => false
  end.

(** Go's string comparison: lexicographic on bytes. *)
Fixpoint compareBytes (a b : list byte) : comparison :=
  match a, b with
  | [], [] => Eq
  | [], _ :: _ => Lt
  | _ :: _, [] => Gt
  | x :: a', y :: b' =>
      match N.compare (code x) (code y) with
      | Eq => compareBytes a' b'
      | c => c
      end
  end.

(** [bytes.HasPrefix] and [bytes.Contains]. *)
Fixpoint HasPrefix (s prefix : list byte) {struct prefix} : bool :=
  match prefix, s with
  | [], _ => true
  | x :: prefix', y :: s' => Byte.eqb x y && HasPrefix s' prefix'
  | _ :: _, [] => false
  end.

Fixpoint Contains (b subslice : list byte) : bool :=
  HasPrefix b subslice ||
  match b with
  | [] => false
  | _ :: b' => Contains b' subslice
  end.

(** [sub] occurs in [b] as a contiguous run of bytes. *)
Definition occurs (sub b : list byte) : Prop :=
  exists l r, b = l ++ sub ++ r.

(** ** The scrubbing flag and the keywords *)

Definition ScrubbedReplacement : gostring := lit "<scrubbed>".

Inductive error :=
| ErrUnknownType      (* errors.New("encoded object is of unknown type") *)
| SyntaxError         (* *json.SyntaxError *)
| UnmarshalTypeError. (* *json.UnmarshalTypeError *)

(** case sensitive keywords, so "env" is not a substring on "Environment" *)
Definition _scrubKeywords : list (list byte) := [lit "env"; lit "Environment"].

(** [SetScrubbing] returns the new content of the [int32] cell [_scrub]. *)
Definition SetScrubbing (enable : bool) : Z :=
  let v := 0%Z in
  let v := if enable then 1%Z else v in
  v.

Definition IsScrubbingEnabled (_scrub : Z) : bool :=
  negb (Z.eqb _scrub 0).

Definition hasKeywords (b : bytes) : bool :=
  existsb (fun bb => Contains b bb) _scrubKeywords.

(** ** UTF-8 ([unicode/utf8]) *)

Definition RuneError : N := 0xFFFD.
Definition RuneSelf : N := 0x80.

Definition cont (b : byte) : bool :=
  (0x80 <=? code b)%N && (code b <=? 0xBF)%N.

Definition between (lo hi : N) (b : byte) : bool :=
  (lo <=? code b)%N && (code b <=? hi)%N.

(** [utf8.DecodeRune]: the rune at the head of [p] and its width; an
    invalid or short encoding gives [(RuneError, 1)], the empty input
    [(RuneError, 0)]. *)
Definition DecodeRune (p : list byte) : N * nat :=
  match p with
  | [] => (RuneError, 0)
  | b0 :: p1 =>
      let x := code b0 in
      if (x <? RuneSelf)%N then (x, 1)
      else if between 0xC2 0xDF b0 then
        match p1 with
        | b1 :: _ =>
            if cont b1
            then (((x - 0xC0) * 64 + (code b1 - 0x80))%N, 2)
            else (RuneError, 1)
        | _ => (RuneError, 1)
        end
      else if between 0xE0 0xEF b0 then
        match p1 with
        | b1 :: b2 :: _ =>
            if between (if (x =? 0xE0)%N then 0xA0 else 0x80)
                       (if (x =? 0xED)%N then 0x9F else 0xBF) b1 && cont b2
            then (((x - 0xE0) * 4096 + (code b1 - 0x80) * 64
                   + (code b2 - 0x80))%N, 3)
            else (RuneError, 1)
        | _ => (RuneError, 1)
        end
      else if between 0xF0 0xF4 b0 then
        match p1 with
        | b1 :: b2 :: b3 :: _ =>
            if between (if (x =? 0xF0)%N then 0x90 else 0x80)
                       (if (x =? 0xF4)%N then 0x8F else 0xBF) b1
               && cont b2 && cont b3
            then (((x - 0xF0) * 262144 + (code b1 - 0x80) * 4096
                   + (code b2 - 0x80) * 64 + (code b3 - 0x80))%N, 4)
            else (RuneError, 1)
        | _ => (RuneError, 1)
        end
      else (RuneError, 1)
  end.

(** [utf8.EncodeRune] (as [utf8.AppendRune]): surrogates and runes past
    [MaxRune] are written as [RuneError]. *)
Definition EncodeRune (r : N) : list byte :=
  if (r <=? 0x7F)%N then [byte_of r]
  else if (r <=? 0x7FF)%N then
    [byte_of (0xC0 + r / 64); byte_of (0x80 + r mod 64)]
  else if (0x10FFFF <? r)%N || ((0xD800 <=? r)%N && (r <=? 0xDFFF)%N) then
    [xef; xbf; xbd]
  else if (r <=? 0xFFFF)%N then
    [byte_of (0xE0 + r / 4096); byte_of (0x80 + (r / 64) mod 64);
     byte_of (0x80 + r mod 64)]
  else
    [byte_of (0xF0 + r / 262144); byte_of (0x80 + (r / 4096) mod 64);
     byte_of (0x80 + (r / 64) mod 64); byte_of (0x80 + r mod 64)].

(** The Unicode scalar values: the runes [EncodeRune] does not replace. *)
Definition scalar (r : N) : Prop :=
  (r <= 0x10FFFF)%N /\ ~ (0xD800 <= r <= 0xDFFF)%N.

(** [utf8.Valid] *)
Fixpoint utf8ValidLoop (fuel : nat) (p : list byte) : bool :=
  match p with
  | [] => true
  | _ :: _ =>
      match fuel with
      | O => false
      | S fuel' =>
          let '(c, size) := DecodeRune p in
          if (c =? RuneError)%N && Nat.eqb size 1 then false
          else utf8ValidLoop fuel' (skipn size p)
      end
  end.

Definition utf8Valid (p : list byte) : bool :=
  utf8ValidLoop (List.length p) p.

(** The same as a sequence of encoded scalar values. *)
Inductive ValidUTF8 : list byte -> Prop :=
| ValidUTF8_nil : ValidUTF8 []
| ValidUTF8_rune (r : N) (t : list byte) :
    scalar r -> ValidUTF8 t -> ValidUTF8 (EncodeRune r ++ t).

(** ** Sample messages *)

Definition createMessage : list byte :=
  jsonText "{'ActivityId':'a','ContainerId':'c','ContainerConfig':{'OciSpecification':{'process':{'env':['FOO=bar'],'cwd':'/'}}}}".

Definition createMessageScrubbed : list byte :=
  jsonText "{'ActivityId':'a','ContainerConfig':{'OciSpecification':{'process':{'cwd':'/','env':['<scrubbed>']}}},'ContainerId':'c'}"
  ++ [x0a].

Definition noActivityMessage : list byte :=
  jsonText "{'ContainerId':'c','ContainerConfig':{'OciSpecification':{'process':{'env':['FOO=bar']}}}}".

Definition numberParametersMessage : list byte :=
  jsonText "{'ActivityId':'a','ContainerId':'env','Settings':{'ProcessParameters':12}}".

Definition execMessage : list byte :=
  jsonText "{'ActivityId':'a','ContainerId':'c','Settings':{'ProcessParameters':'{\'CommandLine\':\'sh <&>\',\'Environment\':{\'SECRET\':\'x\'}}'}}".

(** The inner key spelled with an escape: no keyword in the inner bytes. *)
Definition escapedKeyMessage : list byte :=
  jsonText "{'ActivityId':'a','ContainerId':'env','Settings':{'ProcessParameters':'{\'\\u0045nvironment\':{\'SECRET\':\'x\'}}'}}".

(** A number outside the range of [float64] beside the shape of a create
    message, with and without ActivityId. *)
Definition outOfRangeMessage : list byte :=
  jsonText "{'ActivityId':'a','ContainerId':'c','x':1e400,'ContainerConfig':{'OciSpecification':{'process':{'env':['FOO=bar']}}}}".

Definition outOfRangeNoActivityMessage : list byte :=
  jsonText "{'ContainerId':'c','x':1e400,'ContainerConfig':{'OciSpecification':{'process':{'env':['FOO=bar']}}}}".

Definition execParameters : list byte :=
  jsonText "{'CommandLine':'sh <&>','Environment':{'SECRET':'x'}}".


(** ** Numbers ([strconv])

    A JSON number decodes into a [float64] through [strconv.ParseFloat] and
    is written back by the encoder's float formatting.  Both are taken as
    an interface; [ParseFloat] answers [None] for a literal out of range. *)

Class Float64 := {
  float64 : Type;
  ParseFloat : list byte -> option float64;
  FormatFloat : float64 -> list byte
}.

(** An instance: the natural numbers, written in decimal digits without
    sign, fraction or exponent; every other literal is out of range. *)
Definition digitOf (b : byte) : option N :=
  if between 0x30 0x39 b then Some (code b - 0x30)%N else None.

Definition digitByte (n : N) : byte := byte_of (0x30 + n mod 10).

Fixpoint parseDigits (acc : N) (s : list byte) : option N :=
  match s with
  | [] => Some acc
  | c :: s' =>
      match digitOf c with
      | Some d => parseDigits (10 * acc + d) s'
      | None => None
      end
  end.

Definition parseNat (s : list byte) : option N :=
  match s with
  | [] => None
  | [c] => digitOf c
  | c :: _ => if Byte.eqb c x30 then None else parseDigits 0 s
  end.

Fixpoint formatDigits (fuel : nat) (n : N) : list byte :=
  match fuel with
  | O => []
  | S fuel' =>
      if (n <? 10)%N then [digitByte n]
      else formatDigits fuel' (n / 10) ++ [digitByte n]
  end.

Definition formatNat (n : N) : list byte :=
  formatDigits (S (N.size_nat n)) n.

Definition natFloat : Float64 :=
  {| float64 := N; ParseFloat := parseNat; FormatFloat := formatNat |}.

(** ** The encoder ([encoding/json], encode.go) *)

Definition hex : list byte := lit "0123456789abcdef".

Definition hexDigit (n : N) : byte := nth (N.to_nat n) hex x30.

(** [safeSet]: the ASCII bytes written without escaping; [htmlSafeSet]
    leaves out the three bytes escaped for HTML as well. *)
Definition safeSet (b : byte) : bool :=
  (0x20 <=? code b)%N && (code b <? 0x80)%N
  && negb (Byte.eqb b x22) && negb (Byte.eqb b x5c).

Definition htmlSafeSet (b : byte) : bool :=
  safeSet b
  && negb (Byte.eqb b x3c) && negb (Byte.eqb b x3e) && negb (Byte.eqb b x26).

(** The escape written for an ASCII byte that is not safe; the short
    forms are those of the Go releases before 1.22, which write the other
    control bytes, backspace and form feed among them, as [\u00XX]. *)
Definition escapeByte (b : byte) : list byte :=
  if Byte.eqb b x5c || Byte.eqb b x22 then [x5c; b]
  else if Byte.eqb b x0a then [x5c; x6e]
  else if Byte.eqb b x0d then [x5c; x72]
  else if Byte.eqb b x09 then [x5c; x74]
  else lit "\u00" ++ [hexDigit (code b / 16); hexDigit (code b mod 16)].

(** The loop of [encodeState.string]; [fuel] bounds the bytes left. *)
Fixpoint appendStringLoop (fuel : nat) (escapeHTML : bool) (src : list byte)
  : list byte :=
  match fuel with
  | O => []
  | S fuel' =>
      match src with
      | [] => []
      | b :: rest =>
          if (code b <? RuneSelf)%N then
            (if htmlSafeSet b || (negb escapeHTML && safeSet b)
             then [b] else escapeByte b)
            ++ appendStringLoop fuel' escapeHTML rest
          else
            let '(c, size) := DecodeRune src in
            if (c =? RuneError)%N && Nat.eqb size 1 then
              lit "\ufffd" ++ appendStringLoop fuel' escapeHTML rest
            else if (c =? 0x2028)%N || (c =? 0x2029)%N then
              lit "\u202" ++ [hexDigit (c mod 16)]
              ++ appendStringLoop fuel' escapeHTML (skipn size src)
            else
              firstn size src
              ++ appendStringLoop fuel' escapeHTML (skipn size src)
      end
  end.

(** What the loop writes for one scalar value. *)
Definition escapeRune (escapeHTML : bool) (r : N) : list byte :=
  if (r <? RuneSelf)%N then
    if htmlSafeSet (byte_of r) || (negb escapeHTML && safeSet (byte_of r))
    then [byte_of r] else escapeByte (byte_of r)
  else if (r =? 0x2028)%N || (r =? 0x2029)%N then
    lit "\u202" ++ [hexDigit (r mod 16)]
  else EncodeRune r.

(** What the loop writes between the quotes. *)
Definition escapeString (escapeHTML : bool) (src : gostring) : list byte :=
  appendStringLoop (List.length src) escapeHTML src.

Definition appendString (escapeHTML : bool) (src : gostring) : list byte :=
  [x22] ++ escapeString escapeHTML src ++ [x22].

Fixpoint joinComma (l : list (list byte)) : list byte :=
  match l with
  | [] => []
  | [x] => x
  | x :: l' => x ++ [x2c] ++ joinComma l'
  end.

(** ** The scanner and the decoder ([encoding/json], scanner.go, decode.go)

    [json] is the syntax of a JSON text: numbers keep their literal, the
    members of an object their order and their duplicates. *)
Inductive json :=
| JNull
| JBool (b : bool)
| JNumber (literal : list byte)
| JString (s : gostring)
| JArray (l : list json)
| JObject (l : list (gostring * json)).

Definition isSpace (c : byte) : bool :=
  Byte.eqb c x20 || Byte.eqb c x09 || Byte.eqb c x0d || Byte.eqb c x0a.

Fixpoint skipSpace (p : list byte) : list byte :=
  match p with
  | c :: p' => if isSpace c then skipSpace p' else p
  | [] => []
  end.

Definition isDigit (c : byte) : bool := between 0x30 0x39 c.

Definition unhex (c : byte) : option N :=
  if between 0x30 0x39 c then Some (code c - 0x30)%N
  else if between 0x61 0x66 c then Some (code c - 0x61 + 10)%N
  else if between 0x41 0x46 c then Some (code c - 0x41 + 10)%N
  else None.

(** [getu4]: the rune of a [\uXXXX] at the head of [s], [None] for -1. *)
Definition getu4 (s : list byte) : option N :=
  match s with
  | b0 :: b1 :: h1 :: h2 :: h3 :: h4 :: _ =>
      if Byte.eqb b0 x5c && Byte.eqb b1 x75 then
        match unhex h1, unhex h2, unhex h3, unhex h4 with
        | Some a, Some b, Some c, Some d =>
            Some (((a * 16 + b) * 16 + c) * 16 + d)%N
        | _, _, _, _ => None
        end
      else None
  | _ => None
  end.

Definition IsSurrogate (r : N) : bool := (0xD800 <=? r)%N && (r <? 0xE000)%N.

(** [utf16.DecodeRune] on the result of two [getu4]. *)
Definition utf16DecodeRune (r1 : N) (r2 : option N) : N :=
  match r2 with
  | Some r2 =>
      if (0xD800 <=? r1)%N && (r1 <? 0xDC00)%N
         && (0xDC00 <=? r2)%N && (r2 <? 0xE000)%N
      then ((r1 - 0xD800) * 1024 + (r2 - 0xDC00) + 0x10000)%N
      else RuneError
  | None => RuneError
  end.

(** The byte a one-letter escape stands for. *)
Definition unescape (c : byte) : option byte :=
  if Byte.eqb c x22 || Byte.eqb c x5c || Byte.eqb c x2f then Some c
  else if Byte.eqb c x62 then Some x08
  else if Byte.eqb c x66 then Some x0c
  else if Byte.eqb c x6e then Some x0a
  else if Byte.eqb c x72 then Some x0d
  else if Byte.eqb c x74 then Some x09
  else None.

(** A string literal from behind its opening quote: the decoded string
    ([unquote]) and the input behind the closing quote; [None] where the
    scanner rejects the literal. *)
Fixpoint unquoteLoop (fuel : nat) (s : list byte)
  : option (gostring * list byte) :=
  match fuel with
  | O => None
  | S fuel' =>
      let continue (w : list byte) (rest : list byte) :=
        match unquoteLoop fuel' rest with
        | Some (t, rest') => Some (w ++ t, rest')
        | None => None
        end in
      match s with
      | [] => None
      | c :: s1 =>
          if Byte.eqb c x22 then Some ([], s1)
          else if Byte.eqb c x5c then
            match s1 with
            | [] => None
            | e :: s2 =>
                if Byte.eqb e x75 then
                  match getu4 s with
                  | None => None
                  | Some rr =>
                      let s6 := skipn 6 s in
                      if IsSurrogate rr then
                        let dec := utf16DecodeRune rr (getu4 s6) in
                        if negb (dec =? RuneError)%N
                        then continue (EncodeRune dec) (skipn 6 s6)
                        else continue (EncodeRune RuneError) s6
                      else continue (EncodeRune rr) s6
                  end
                else
                  match unescape e with
                  | Some b => continue [b] s2
                  | None => None
                  end
            end
          else if (code c <? 0x20)%N then None
          else if (code c <? RuneSelf)%N then continue [c] s1
          else
            let '(rr, size) := DecodeRune s in
            continue (EncodeRune rr) (skipn size s)
      end
  end.

Definition unquote (s : list byte) : option (gostring * list byte) :=
  unquoteLoop (S (List.length s)) s.

Definition isNumChar (c : byte) : bool :=
  isDigit c || Byte.eqb c x2d || Byte.eqb c x2b || Byte.eqb c x2e
  || Byte.eqb c x65 || Byte.eqb c x45.

Fixpoint dropDigits (s : list byte) : list byte :=
  match s with
  | c :: s' => if isDigit c then dropDigits s' else s
  | [] => []
  end.

(** [isValidNumber] of decode.go, the grammar the scanner accepts. *)
Definition validExponent (s : list byte) : bool :=
  match s with
  | [] => true
  | e :: s1 =>
      if Byte.eqb e x65 || Byte.eqb e x45 then
        let s2 := match s1 with
                  | c :: s' =>
                      if Byte.eqb c x2b || Byte.eqb c x2d then s' else s1
                  | [] => s1
                  end in
        match s2 with
        | d :: s3 =>
            isDigit d && match dropDigits s3 with [] => true | _ => false end
        | [] => false
        end
      else false
  end.

Definition validFraction (s : list byte) : bool :=
  match s with
  | c :: s1 =>
      if Byte.eqb c x2e then
        match s1 with
        | d :: s2 => isDigit d && validExponent (dropDigits s2)
        | [] => false
        end
      else validExponent s
  | [] => true
  end.

Definition isValidNumber (s : list byte) : bool :=
  let s := match s with
           | c :: s' => if Byte.eqb c x2d then s' else s
           | [] => s
           end in
  match s with
  | [] => false
  | d :: s1 =>
      if Byte.eqb d x30 then validFraction s1
      else if between 0x31 0x39 d then validFraction (dropDigits s1)
      else false
  end.

Fixpoint spanNumber (p : list byte) : list byte * list byte :=
  match p with
  | c :: p' =>
      if isNumChar c
      then let '(tok, rest) := spanNumber p' in (c :: tok, rest)
      else ([], p)
  | [] => ([], [])
  end.

(** An encoded value begins with a byte that is neither space nor a
    closing bracket. *)
Definition opens (p : list byte) : Prop :=
  exists c p', p = c :: p' /\ isSpace c = false /\ Byte.eqb c x5d = false.

(** The input behind a number ends the number. *)
Definition delimited (rest : list byte) : bool :=
  match rest with
  | [] => true
  | c :: _ => negb (isNumChar c)
  end.

(** This limits the max nesting depth to prevent stack overflow
    ([maxNestingDepth], scanner.go). *)
Definition maxNestingDepth : N := 10000.

(** One value at the head of [p] and the input behind it.  [depth] is the
    number of objects and arrays open around the value, the length of the
    scanner's [parseState]; opening one more than [maxNestingDepth] is the
    error "exceeded max depth" ([pushParseState]). *)
Fixpoint parseValue (fuel : nat) (depth : N) (p : list byte)
  : option (json * list byte) :=
  match fuel with
  | O => None
  | S fuel' =>
      match p with
      | [] => None
      | c :: p1 =>
          if Byte.eqb c x7b then
            if (maxNestingDepth <? depth + 1)%N then None
            else
              match skipSpace p1 with
              | [] => None
              | c2 :: p2 =>
                  if Byte.eqb c2 x7d then Some (JObject [], p2)
                  else
                    match parseMembers fuel' (depth + 1) (c2 :: p2) with
                    | Some (ms, p3) => Some (JObject ms, p3)
                    | None => None
                    end
              end
          else if Byte.eqb c x5b then
            if (maxNestingDepth <? depth + 1)%N then None
            else
              match skipSpace p1 with
              | [] => None
              | c2 :: p2 =>
                  if Byte.eqb c2 x5d then Some (JArray [], p2)
                  else
                    match parseElements fuel' (depth + 1) (c2 :: p2) with
                    | Some (es, p3) => Some (JArray es, p3)
                    | None => None
                    end
              end
          else if Byte.eqb c x22 then
            match unquote p1 with
            | Some (s, p2) => Some (JString s, p2)
            | None => None
            end
          else if HasPrefix p (lit "true") then Some (JBool true, skipn 4 p)
          else if HasPrefix p (lit "false") then Some (JBool false, skipn 5 p)
          else if HasPrefix p (lit "null") then Some (JNull, skipn 4 p)
          else if Byte.eqb c x2d || isDigit c then
            let '(tok, rest) := spanNumber p in
            if isValidNumber tok then Some (JNumber tok, rest) else None
          else None
      end
  end
with parseMembers (fuel : nat) (depth : N) (p : list byte)
  : option (list (gostring * json) * list byte) :=
  match fuel with
  | O => None
  | S fuel' =>
      match p with
      | [] => None
      | q :: p1 =>
          if Byte.eqb q x22 then
            match unquote p1 with
            | None => None
            | Some (k, p2) =>
                match skipSpace p2 with
                | [] => None
                | colon :: p3 =>
                    if Byte.eqb colon x3a then
                      match parseValue fuel' depth (skipSpace p3) with
                      | None => None
                      | Some (v, p4) =>
                          match skipSpace p4 with
                          | [] => None
                          | sep :: p5 =>
                              if Byte.eqb sep x7d then Some ([(k, v)], p5)
                              else if Byte.eqb sep x2c then
                                match parseMembers fuel' depth
                                        (skipSpace p5) with
                                | Some (ms, p6) => Some ((k, v) :: ms, p6)
                                | None => None
                                end
                              else None
                          end
                      end
                    else None
                end
            end
          else None
      end
  end
with parseElements (fuel : nat) (depth : N) (p : list byte)
  : option (list json * list byte) :=
  match fuel with
  | O => None
  | S fuel' =>
      match parseValue fuel' depth p with
      | None => None
      | Some (v, p1) =>
          match skipSpace p1 with
          | [] => None
          | sep :: p2 =>
              if Byte.eqb sep x5d then Some ([v], p2)
              else if Byte.eqb sep x2c then
                match parseElements fuel' depth (skipSpace p2) with
                | Some (es, p3) => Some (v :: es, p3)
                | None => None
                end
              else None
          end
      end
  end.

(** The whole input as one JSON text ([checkValid]). *)
Definition scan (data : bytes) : option json :=
  match parseValue (S (List.length data)) 0 (skipSpace data) with
  | Some (v, rest) =>
      match skipSpace rest with
      | [] => Some v
      | _ :: _ => None
      end
  | None => None
  end.

(** [json.Valid] *)
Definition Valid (data : bytes) : bool :=
  match scan data with
  | Some _ => true
  | None => false
  end.

(** The number of objects and arrays open at the deepest place of a JSON
    value. *)
Fixpoint nestingJson (j : json) : N :=
  match j with
  | JArray l => 1 + fold_right (fun x n => N.max (nestingJson x) n) 0%N l
  | JObject l =>
      1 + fold_right (fun kv n => N.max (nestingJson (snd kv)) n) 0%N l
  | _ => 0
  end.

(** A Go map with string keys is kept as its entries in increasing key
    order, the order in which the encoder writes them. *)
Abbreviation gomap V := (list (list byte * V)) (only parsing).

Fixpoint lookup {V} (k : gostring) (m : gomap V) : option V :=
  match m with
  | [] => None
  | (k', v) :: m' => if bytes_eqb k k' then Some v else lookup k m'
  end.

(** [m[k] = v] *)
Fixpoint assign {V} (k : gostring) (v : V) (m : gomap V) : gomap V :=
  match m with
  | [] => [(k, v)]
  | (k', v') :: m' =>
      match compareBytes k k' with
      | Lt => (k, v) :: m
      | Eq => (k, v) :: m'
      | Gt => (k', v') :: assign k v m'
      end
  end.

(** The order of the entries of a map. *)
Definition keyLt {V} (a b : list byte * V) : Prop :=
  compareBytes (fst a) (fst b) = Lt.

(** [_, ok := m[k]] *)
Definition hasKey {V} (k : gostring) (m : gomap V) : bool :=
  match lookup k m with
  | Some _ => true
  | None => false
  end.

(** Modelled from the spec: [hcsschema.ProcessParameters], the structured
    process-parameters shape, is declared in package [hcsschema]
    (internal/hcs/schema2) and not in this package.  The
    spec names its string field [CommandLine] and its string-to-string
    [Environment] field; both are written under their own names and, as
    fields tagged [omitempty], left out of the encoding when empty. *)
Record ProcessParameters := {
  CommandLine : gostring;
  Environment : gomap gostring
}.

(** What [json.Unmarshal] stores into an [interface{}], and the
    [[]string] the create scrubber stores; [A] is the type of the floats. *)
Inductive Value (A : Type) :=
| VNil
| VBool (b : bool)
| VFloat (f : A)
| VString (s : gostring)
| VSlice (l : list (Value A))       (* []interface{} *)
| VStrings (l : list gostring)      (* []string *)
| VMap (m : gomap (Value A)).       (* map[string]interface{} *)

Arguments VNil {A}.
Arguments VBool {A} b.
Arguments VFloat {A} f.
Arguments VString {A} s.
Arguments VSlice {A} l.
Arguments VStrings {A} l.
Arguments VMap {A} m.

(** What the round trip through the encoder asks of the two: a float is
    written as a JSON number literal, and read back as itself. *)
Class Float64Laws (F : Float64) : Prop := {
  FormatFloat_valid : forall f : float64, isValidNumber (FormatFloat f) = true;
  ParseFloat_FormatFloat :
    forall f : float64, ParseFloat (FormatFloat f) = Some f
}.

(** * Package [runc] (internal/guest/runtime/runc/utils.go)

    The helpers of the runc runtime that compute on strings: the pid read
    from a pid file, the paths of the state directories and of the logs,
    and the error read from a runc log.  [strings.HasPrefix]
    and [strings.Contains] are [HasPrefix] and [Contains] above, a Go string
    being its bytes. *)

(** [strings.HasSuffix] *)
Definition HasSuffix (s suffix : gostring) : bool :=
  (List.length suffix <=? List.length s)%nat
  && bytes_eqb (skipn (List.length s - List.length suffix) s) suffix.

(** The errors at hand: the four sentinels of package [runtime] that
    [asError] returns, an error made by [errors.New], an error from outside
    the package (of the operating system for a file, of [strconv.Atoi] for a
    text), and an error wrapped by [errors.Wrap] with a message or by
    [errors.Wrapf] with a format and its arguments. *)
Inductive goError :=
| ErrContainerDoesNotExist
| ErrContainerAlreadyExists
| ErrInvalidContainerID
| ErrContainerNotStopped
| errorsNew (text : gostring)
| ReadFileError (pidFile : gostring)
| AtoiError (s : gostring)
| Wrap (err : goError) (message : gostring)
| Wrapf (err : goError) (format : gostring) (args : list gostring).

(** [errors.Cause]: the error under the wrappers. *)
Fixpoint Cause (err : goError) : goError :=
  match err with
  | Wrap err' _ => Cause err'
  | Wrapf err' _ _ => Cause err'
  | _ => err
  end.

(** [strconv.Atoi] on a platform with an [int] of 64 bits: an optional
    sign and one decimal digit or more, nothing else, of a value in the
    range of [int]; [None] where [Atoi] returns an error. *)
Definition Atoi (s : gostring) : option Z :=
  match s with
  | [] => None
  | c :: s' =>
      let neg := Byte.eqb c x2d in
      let digits := if neg || Byte.eqb c x2b then s' else s in
      match digits with
      | [] => None
      | _ :: _ =>
          match parseDigits 0 digits with
          | None => None
          | Some un =>
              let n := Z.of_N un in
              if neg then
                if (n <=? 2 ^ 63)%Z then Some (- n)%Z else None
              else
                if (n <? 2 ^ 63)%Z then Some n else None
          end
      end
  end.

(** [strconv.Itoa] *)
Definition Itoa (i : Z) : gostring :=
  if (i <? 0)%Z then x2d :: formatNat (Z.to_N (- i))
  else formatNat (Z.to_N i).

(** readPidFile reads the integer pid stored in the given file.  What
    [ioutil.ReadFile] returns for the file is given: its content, or
    [None] for an error. *)
Definition readPidFile (pidFile : gostring) (ReadFile : option bytes)
  : Z * option goError :=
  match ReadFile with
  | None =>
      ((-1)%Z,
       Some (Wrap (ReadFileError pidFile) (lit "failed reading from pid file")))
  | Some data =>
      match Atoi data with
      | None =>
          ((-1)%Z,
           Some (Wrapf (AtoiError data)
                   (lit "failed converting pid text " ++ [x22] ++ lit "%s"
                    ++ [x22] ++ lit " to integer form") [data]))
      | Some pid => (pid, None)
      end
  end.

(** ** Paths ([path/filepath] on Unix)

    [Clean] is the loop of the library written over lists: [path] is what
    is left to read, [out] the bytes written so far, and [dotdot] the
    index in [out] where a [..] element must stop, either because it is
    the leading slash or because it is a leading [../..] prefix. *)

Definition IsPathSeparator (c : byte) : bool := Byte.eqb c x2f.

(** The element at the head of [path], up to the next separator, and the
    rest. *)
Fixpoint element (path : gostring) : gostring * gostring :=
  match path with
  | [] => ([], [])
  | c :: path' =>
      if IsPathSeparator c then ([], path)
      else let '(e, rest) := element path' in (c :: e, rest)
  end.

(** A [..] element that can backtrack: the index is moved back to the
    last separator, or to [dotdot]. *)
Fixpoint backtrack (fuel : nat) (out : gostring) (dotdot w : nat) : nat :=
  match fuel with
  | O => w
  | S fuel' =>
      if (dotdot <? w)%nat && negb (IsPathSeparator (nth w out x00))
      then backtrack fuel' out dotdot (w - 1)
      else w
  end.

Fixpoint cleanLoop (fuel : nat) (rooted : bool) (path out : gostring)
  (dotdot : nat) : gostring :=
  match fuel with
  | O => out
  | S fuel' =>
      match path with
      | [] => out
      | c :: path1 =>
          if IsPathSeparator c then
            (* empty path element *)
            cleanLoop fuel' rooted path1 out dotdot
          else if Byte.eqb c x2e
                  && match path1 with
                     | [] => true
                     | d :: _ => IsPathSeparator d
                     end then
            (* . element *)
            cleanLoop fuel' rooted path1 out dotdot
          else if Byte.eqb c x2e
                  && match path1 with
                     | d :: [] => Byte.eqb d x2e
                     | d :: e :: _ => Byte.eqb d x2e && IsPathSeparator e
                     | [] => false
                     end then
            (* .. element: remove to last separator *)
            let path2 := tl path1 in
            if (dotdot <? List.length out)%nat then
              (* can backtrack *)
              let w := backtrack (List.length out) out dotdot
                         (List.length out - 1) in
              cleanLoop fuel' rooted path2 (firstn w out) dotdot
            else if negb rooted then
              (* cannot backtrack, but not rooted, so append .. element. *)
              let out := if (0 <? List.length out)%nat then out ++ [x2f]
                         else out in
              let out := out ++ [x2e; x2e] in
              cleanLoop fuel' rooted path2 out (List.length out)
            else cleanLoop fuel' rooted path2 out dotdot
          else
            (* real path element. add slash if needed *)
            let out :=
              if rooted && negb (List.length out =? 1)%nat
                 || negb rooted && negb (List.length out =? 0)%nat
              then out ++ [x2f] else out in
            (* copy element *)
            let '(e, rest) := element path in
            cleanLoop fuel' rooted rest (out ++ e) dotdot
      end
  end.

(** [filepath.Clean] *)
Definition Clean (path : gostring) : gostring :=
  match path with
  | [] => lit "."
  | c :: path1 =>
      let rooted := IsPathSeparator c in
      let out :=
        if rooted then cleanLoop (List.length path) true path1 [x2f] 1
        else cleanLoop (List.length path) false path [] 0 in
      (* Turn empty string into "." *)
      match out with
      | [] => lit "."
      | _ :: _ => out
      end
  end.

(** [strings.Join] *)
Fixpoint stringsJoin (elems : list gostring) (sep : gostring) : gostring :=
  match elems with
  | [] => []
  | [e] => e
  | e :: elems' => e ++ sep ++ stringsJoin elems' sep
  end.

(** [filepath.Join]: the elements from the first that is not empty on,
    joined by the separator and cleaned. *)
Fixpoint Join (elem : list gostring) : gostring :=
  match elem with
  | [] => []
  | e :: elem' =>
      match e with
      | [] => Join elem'
      | _ :: _ => Clean (stringsJoin elem [x2f])
      end
  end.

(** The state directories and the log files.  [containerFilesDir] is a
    constant of the package declared in another file, and
    [runcLogBasePath] a field of the runtime. *)

(** getContainerDir returns the path to the state directory of the given
    container. *)
Definition getContainerDir (containerFilesDir id : gostring) : gostring :=
  Join [containerFilesDir; id].

(** getProcessDir returns the path to the state directory of the given
    process. *)
Definition getProcessDir (containerFilesDir id : gostring) (pid : Z)
  : gostring :=
  let containerDir := getContainerDir containerFilesDir id in
  Join [containerDir; Itoa pid].

(** getLogDir gets the path to the runc logs directory. *)
Definition getLogDir (runcLogBasePath id : gostring) : gostring :=
  Join [runcLogBasePath; id].

(** getLogPath returns the path to the log file used by the runC wrapper
    for a particular container *)
Definition getLogPath (runcLogBasePath id : gostring) : gostring :=
  Join [getLogDir runcLogBasePath id; lit "runc.log"].

(** getLogPath returns the path to the log file used by the runC wrapper. *)
Definition getGlobalLogPath (runcLogBasePath : gostring) : gostring :=
  Join [runcLogBasePath; lit "global-runc.log"].

(** A path element with a name of its own, and the rooted path made of
    such elements. *)
Definition isName (e : gostring) : bool :=
  negb (bytes_eqb e []) && forallb (fun c => negb (IsPathSeparator c)) e
  && negb (bytes_eqb e (lit ".")) && negb (bytes_eqb e (lit "..")).

Definition rootedPath (names : list gostring) : gostring :=
  List.concat (map (fun e => x2f :: e) names).

(** An entry of the log of runc; [Level] is a [logrus.Level], a number that
    is the smaller the more severe the entry, and [Err] is the error of the
    entry by its [Error()] text, [None] for [nil]. *)
Record standardLogEntry := {
  Level : N;
  Message : gostring;
  Err : option gostring
}.

Definition asError (l : standardLogEntry) : goError :=
  (* TODO (helsaawy): match with errors from
     https://github.com/opencontainers/runc/blob/master/libcontainer/error.go *)
  let msg := Message l in
  let err :=
    if HasPrefix msg (lit "container")
       && HasSuffix msg (lit "does not exist")
    then ErrContainerDoesNotExist
    else if Contains msg (lit "container with id exists")
            || Contains msg (lit "container with given ID already exists")
    then ErrContainerAlreadyExists
    else if Contains msg (lit "invalid id format")
            || Contains msg (lit "invalid container ID format")
    then ErrInvalidContainerID
    else if Contains msg (lit "container")
            && Contains msg (lit "that is not stopped")
    then ErrContainerNotStopped
    else errorsNew msg in
  match Err l with
  | Some text => Wrapf err text []
  | None => err
  end.

(** The loop of [getRuncLogError].  The decoder reads the log entry by
    entry; [results] holds what the calls of [dec.Decode] return one after
    the other, the entry decoded or [None] for an error, and the call after
    the last of them fails at the end of the file.  [ErrorLevel] is
    [logrus.ErrorLevel]. *)
Fixpoint getRuncLogErrorLoop (ErrorLevel : N)
  (results : list (option standardLogEntry)) (lastErr : option goError)
  : option goError :=
  match results with
  | [] => lastErr
  | None :: _ => lastErr (* break *)
  | Some entry :: results' =>
      getRuncLogErrorLoop ErrorLevel results'
        (if (Level entry <=? ErrorLevel)%N then Some (asError entry)
         else lastErr)
  end.

(** [OpenFile] is what [os.OpenFile] returns for the log: [None] for an
    error, or the file, given by the results of the decoder on it. *)
Definition getRuncLogError (ErrorLevel : N)
  (OpenFile : option (list (option standardLogEntry))) : option goError :=
  match OpenFile with
  | None => None
  | Some results => getRuncLogErrorLoop ErrorLevel results None
  end.

Section Scrub.

Context {F : Float64} {L : Float64Laws F}.

Abbreviation value := (Value float64).
Abbreviation genMapT := (list (list byte * Value float64)) (only parsing).

Definition encodeMember {V} (escapeHTML : bool) (enc : V -> list byte)
  (kv : gostring * V) : list byte :=
  appendString escapeHTML (fst kv) ++ [x3a] ++ enc (snd kv).

Fixpoint encodeValue (escapeHTML : bool) (v : value) : list byte :=
  match v with
  | VNil => lit "null"
  | VBool true => lit "true"
  | VBool false => lit "false"
  | VFloat f => FormatFloat f
  | VString s => appendString escapeHTML s
  | VSlice l =>
      [x5b] ++ joinComma (map (encodeValue escapeHTML) l) ++ [x5d]
  | VStrings l =>
      [x5b] ++ joinComma (map (appendString escapeHTML) l) ++ [x5d]
  | VMap m =>
      [x7b]
      ++ joinComma (map (fun kv => appendString escapeHTML (fst kv) ++ [x3a]
                                   ++ encodeValue escapeHTML (snd kv)) m)
      ++ [x7d]
  end.

Definition encodeStringMap (escapeHTML : bool) (m : gomap gostring)
  : list byte :=
  [x7b]
  ++ joinComma (map (encodeMember escapeHTML (appendString escapeHTML)) m)
  ++ [x7d].

(** The name of a struct field as the encoder writes it. *)
Definition fieldName (name : string) : list byte :=
  [x22] ++ lit name ++ [x22; x3a].

Definition encodeProcessParameters (escapeHTML : bool)
  (pp : ProcessParameters) : list byte :=
  [x7b]
  ++ joinComma
       ((match CommandLine pp with
         | [] => []
         | s => [fieldName "CommandLine" ++ appendString escapeHTML s]
         end)
        ++
        (match Environment pp with
         | [] => []
         | m => [fieldName "Environment" ++ encodeStringMap escapeHTML m]
         end))
  ++ [x7d].

(** The values handed to [encode]. *)
Inductive iface :=
| IProcessParameters (pp : ProcessParameters)
| IMap (m : genMapT).

Definition marshal (escapeHTML : bool) (v : iface) : list byte :=
  match v with
  | IProcessParameters pp => encodeProcessParameters escapeHTML pp
  | IMap m => encodeValue escapeHTML (VMap m)
  end.

(** [json.Encoder.Encode]: the encoding followed by a newline.  The values
    decoded from JSON hold nothing the encoder rejects, so the error is
    always [nil]. *)
Definition Encode (escapeHTML : bool) (w : bytes) (v : iface)
  : bytes * option error :=
  (w ++ marshal escapeHTML v ++ [x0a], None).

(** *** Decoding into [interface{}]

    [valueInterface] is what the decoder stores for a JSON value; a number
    whose literal [ParseFloat] rejects is stored as [nil] and makes
    [savedError] true: the decoder records the error, goes on, and returns
    it at the end. *)
Fixpoint valueInterface (j : json) : value :=
  match j with
  | JNull => VNil
  | JBool b => VBool b
  | JNumber s =>
      match ParseFloat s with
      | Some f => VFloat f
      | None => VNil
      end
  | JString s => VString s
  | JArray l => VSlice (map valueInterface l)
  | JObject l =>
      VMap (fold_left (fun m kv => assign (fst kv) (snd kv) m)
              (map (fun kv => (fst kv, valueInterface (snd kv))) l) [])
  end.

Fixpoint savedError (j : json) : bool :=
  match j with
  | JNumber s =>
      match ParseFloat s with
      | Some _ => false
      | None => true
      end
  | JArray l => existsb savedError l
  | JObject l => existsb (fun kv => savedError (snd kv)) l
  | _ => false
  end.

Definition objectInterface (l : list (gostring * json)) (m : genMapT)
  : genMapT :=
  fold_left (fun m kv => assign (fst kv) (valueInterface (snd kv)) m) l m.

(** [json.Unmarshal(data, &m)] for a non-nil [m] of type [genMap]: the map
    after the call and the error. *)
Definition UnmarshalMap (data : bytes) (m : genMapT)
  : genMapT * option error :=
  match scan data with
  | None => (m, Some SyntaxError)
  | Some (JObject l) =>
      (objectInterface l m,
       if existsb (fun kv => savedError (snd kv)) l
       then Some UnmarshalTypeError else None)
  | Some JNull => (m, None)
  | Some _ => (m, Some UnmarshalTypeError)
  end.

(** *** Decoding into [ProcessParameters] *)

Definition toUpper (c : byte) : byte :=
  if between 0x61 0x7a c then byte_of (code c - 0x20) else c.

(** The case-insensitive match of a key with a field name; the two names
    at hand have no letter with a fold outside ASCII. *)
Definition equalFold (a b : list byte) : bool :=
  bytes_eqb (map toUpper a) (map toUpper b).

Inductive field := FCommandLine | FEnvironment.

Definition fieldByName (key : gostring) : option field :=
  if bytes_eqb key (lit "CommandLine") then Some FCommandLine
  else if bytes_eqb key (lit "Environment") then Some FEnvironment
  else if equalFold key (lit "CommandLine") then Some FCommandLine
  else if equalFold key (lit "Environment") then Some FEnvironment
  else None.

(** One member of a JSON object stored into a [map[string]string]: a
    string is stored, [null] and a value of another type store the empty
    string, the latter with a saved error. *)
Definition storeStringMember (st : gomap gostring * bool)
  (kv : gostring * json) : gomap gostring * bool :=
  match snd kv with
  | JString s => (assign (fst kv) s (fst st), snd st)
  | JNull => (assign (fst kv) [] (fst st), snd st)
  | _ => (assign (fst kv) [] (fst st), true)
  end.

(** One member of the JSON object stored into the struct; the boolean is
    the saved error. *)
Definition storeField (st : ProcessParameters * bool) (kv : gostring * json)
  : ProcessParameters * bool :=
  let pp := fst st in
  match fieldByName (fst kv) with
  | None => st
  | Some FCommandLine =>
      match snd kv with
      | JString s =>
          ({| CommandLine := s; Environment := Environment pp |}, snd st)
      | JNull => st
      | _ => (pp, true)
      end
  | Some FEnvironment =>
      match snd kv with
      | JObject l =>
          let '(m, e) := fold_left storeStringMember l
                           (Environment pp, snd st) in
          ({| CommandLine := CommandLine pp; Environment := m |}, e)
      | JNull => ({| CommandLine := CommandLine pp; Environment := [] |},
                  snd st)
      | _ => (pp, true)
      end
  end.

(** [json.Unmarshal(data, &pp)] *)
Definition UnmarshalProcessParameters (data : bytes) (pp : ProcessParameters)
  : ProcessParameters * option error :=
  match scan data with
  | None => (pp, Some SyntaxError)
  | Some (JObject l) =>
      let '(pp', e) := fold_left storeField l (pp, false) in
      (pp', if e then Some UnmarshalTypeError else None)
  | Some JNull => (pp, None)
  | Some _ => (pp, Some UnmarshalTypeError)
  end.

(** ** The scrubbers (scrub.go) *)

Definition encode (buf : bytes) (v : iface) : bytes * option error :=
  let escapeHTML := false in (* enc.SetEscapeHTML(false) *)
  match Encode escapeHTML buf v with
  | (buf', Some err) => (buf', Some err)
  | (buf', None) => (buf', None)
  end.

(** ScrubProcessParameters scrubs HCS Create Process requests with config
    parameters of type hcsschema.ProcessParameters *)
Definition ScrubProcessParameters (_scrub : Z) (s : gostring)
  : gostring * option error :=
  let b : bytes := s in
  if negb (IsScrubbingEnabled _scrub) || negb (hasKeywords b)
     || negb (Valid b)
  then (s, None)
  else
    let pp := {| CommandLine := []; Environment := [] |} in
    match UnmarshalProcessParameters b pp with
    | (_, Some err) => ([], Some err)
    | (pp, None) =>
        let pp := {| CommandLine := CommandLine pp;
                     Environment :=
                       [(ScrubbedReplacement, ScrubbedReplacement)] |} in
        let buf : bytes := [] in (* bytes.NewBuffer(b[:0]) *)
        match encode buf (IProcessParameters pp) with
        | (_, Some err) => ([], Some err)
        | (buf, None) => (buf, None)
        end
    end.

(** A variable of type [genMap] refers to a map of the decoded tree: the
    path of keys leading to it from the root, or [None] for the nil map. *)
Definition genMap := option (list gostring).

(** The scrubbers read and update the tree through such references. *)
Definition M (A : Type) := genMapT -> A * genMapT.

Definition ret {A} (a : A) : M A := fun root => (a, root).

Definition bind {A B} (c : M A) (k : A -> M B) : M B :=
  fun root => let '(a, root') := c root in k a root'.

Fixpoint getAt (root : genMapT) (path : list gostring) : option genMapT :=
  match path with
  | [] => Some root
  | k :: path' =>
      match lookup k root with
      | Some (VMap m) => getAt m path'
      | _ => None
      end
  end.

Fixpoint setAt (root : genMapT) (path : list gostring) (k : gostring)
  (v : value) : genMapT :=
  match path with
  | [] => assign k v root
  | k0 :: path' =>
      match lookup k0 root with
      | Some (VMap m) => assign k0 (VMap (setAt m path' k v)) root
      | _ => root
      end
  end.

(** [v, ok := m[k]] *)
Definition mapIndex (m : genMap) (k : gostring) : M (value * bool) :=
  fun root =>
    match m with
    | None => ((VNil, false), root)
    | Some path =>
        match getAt root path with
        | Some mm =>
            match lookup k mm with
            | Some v => ((v, true), root)
            | None => ((VNil, false), root)
            end
        | None => ((VNil, false), root)
        end
    end.

(** [m[k] = v]; a store into the nil map panics and is not reached. *)
Definition mapAssign (m : genMap) (k : gostring) (v : value) : M unit :=
  fun root =>
    match m with
    | None => (tt, root)
    | Some path => (tt, setAt root path k v)
    end.

Definition isRequestBase (m : genMap) : M bool :=
  (* neither of these are (currently) `omitempty` *)
  bind (mapIndex m (lit "ActivityId")) (fun '(_, a) =>
  bind (mapIndex m (lit "ContainerId")) (fun '(_, c) =>
  ret (a && c))).

(** combination `m, ok := m[s]` and `m, ok := m.(genMap)` *)
Definition index (m : genMap) (s : gostring) : M (genMap * bool) :=
  bind (mapIndex m s) (fun '(v, ok) =>
  if ok then
    match v, m with
    | VMap _, Some path => ret (Some (path ++ [s]), true)
    | _, _ => ret (None, false)
    end
  else ret (m, false)).

Definition scrubberFunc := genMap -> M (option error).

Definition scrubLinuxHostedSystem (m : genMap) : M (option error) :=
  bind (isRequestBase m) (fun rb =>
  if negb rb then ret (Some ErrUnknownType)
  else
    bind (index m (lit "ContainerConfig")) (fun '(m, ok) =>
    if ok then
      bind (index m (lit "OciSpecification")) (fun '(m, ok) =>
      if ok then
        bind (index m (lit "process")) (fun '(m, ok) =>
        if ok then
          bind (mapIndex m (lit "env")) (fun '(_, ok) =>
          if ok then
            bind (mapAssign m (lit "env") (VStrings [ScrubbedReplacement]))
              (fun _ => ret None)
          else ret (Some ErrUnknownType))
        else ret (Some ErrUnknownType))
      else ret (Some ErrUnknownType))
    else ret (Some ErrUnknownType))).

Definition scrubExecuteProcess (_scrub : Z) (m : genMap) : M (option error) :=
  bind (isRequestBase m) (fun rb =>
  if negb rb then ret (Some ErrUnknownType)
  else
    bind (index m (lit "Settings")) (fun '(m, ok) =>
    if ok then
      bind (mapIndex m (lit "ProcessParameters")) (fun '(ss, ok) =>
      if ok then
        (* ProcessParameters is a json encoded struct passed as a regular
           sting field *)
        match ss with
        | VString s =>
            match ScrubProcessParameters _scrub s with
            | (_, Some err) => ret (Some err)
            | (s, None) =>
                bind (mapAssign m (lit "ProcessParameters") (VString s))
                  (fun _ => ret None)
            end
        | _ => ret (Some ErrUnknownType)
        end
      else ret (Some ErrUnknownType))
    else ret (Some ErrUnknownType))).

Definition scrubBytes (_scrub : Z) (b : bytes) (scrub : scrubberFunc)
  : bytes * option error :=
  if negb (IsScrubbingEnabled _scrub) || negb (hasKeywords b)
     || negb (Valid b)
  then (b, None)
  else
    let m : genMapT := [] in (* make(genMap) *)
    match UnmarshalMap b m with
    | (_, Some err) => ([], Some err)
    | (root, None) =>
        (* could use regexp, but if the env strings contain braces, the
           regexp fails *)
        match scrub (Some []) root with
        | (Some err, _) => ([], Some err)
        | (None, root) =>
            let buf : bytes := [] in
            match encode buf (IMap root) with
            | (_, Some err) => ([], Some err)
            | (buf, None) => (buf, None)
            end
        end
    end.

(** ScrubBridgeCreate scrubs requests sent over the bridge of type
    internal/gcs/protocol.containerCreate wrapping an
    internal/hcsoci.linuxHostedSystem *)
Definition ScrubBridgeCreate (_scrub : Z) (b : bytes)
  : bytes * option error :=
  scrubBytes _scrub b scrubLinuxHostedSystem.

(** ScrubBridgeExecProcess scrubs requests sent over the bridge of type
    internal/gcs/protocol.containerExecuteProcess *)
Definition ScrubBridgeExecProcess (_scrub : Z) (b : bytes)
  : bytes * option error :=
  scrubBytes _scrub b (scrubExecuteProcess _scrub).

(** ** Well-formed trees

    The decoder stores valid UTF-8 only, and a map holds a key once: the
    entries are in strictly increasing key order. *)
Fixpoint sortedKeys {V} (m : gomap V) : bool :=
  match m with
  | [] => true
  | (k1, _) :: m' =>
      match m' with
      | [] => true
      | (k2, _) :: _ =>
          match compareBytes k1 k2 with
          | Lt => sortedKeys m'
          | _ => false
          end
      end
  end.

Fixpoint wfValue (v : value) : bool :=
  match v with
  | VString s => utf8Valid s
  | VSlice l => forallb wfValue l
  | VStrings l => forallb utf8Valid l
  | VMap m =>
      sortedKeys m
      && forallb (fun kv => utf8Valid (fst kv) && wfValue (snd kv)) m
  | _ => true
  end.

Fixpoint wfJson (j : json) : bool :=
  match j with
  | JString s => utf8Valid s
  | JArray l => forallb wfJson l
  | JObject l => forallb (fun kv => utf8Valid (fst kv) && wfJson (snd kv)) l
  | _ => true
  end.

(** The syntax of the text the encoder writes for a value. *)
Fixpoint toJson (v : value) : json :=
  match v with
  | VNil => JNull
  | VBool b => JBool b
  | VFloat f => JNumber (FormatFloat f)
  | VString s => JString s
  | VSlice l => JArray (map toJson l)
  | VStrings l => JArray (map JString l)
  | VMap m => JObject (map (fun kv => (fst kv, toJson (snd kv))) m)
  end.

(** The generic tree with the encoding of a [ProcessParameters]. *)
Definition ppValue (pp : ProcessParameters) : value :=
  VMap
    ((match CommandLine pp with
      | [] => []
      | s => [(lit "CommandLine", VString s)]
      end)
     ++
     (match Environment pp with
      | [] => []
      | m => [(lit "Environment",
               VMap (map (fun kv => (fst kv, VString (snd kv))) m))]
      end)).

(** The sentinel mapping and the structure that holds it. *)
Definition scrubbedEnvironment : list (list byte * list byte) :=
  [(ScrubbedReplacement, ScrubbedReplacement)].

Definition scrubbed (pp : ProcessParameters) : ProcessParameters :=
  {| CommandLine := CommandLine pp; Environment := scrubbedEnvironment |}.

Definition emptyProcessParameters : ProcessParameters :=
  {| CommandLine := []; Environment := [] |}.

(** A value as the decoder gives it back: a [[]string] comes back as a
    [[]interface{}] of strings. *)
Fixpoint norm (v : value) : value :=
  match v with
  | VSlice l => VSlice (map norm l)
  | VStrings l => VSlice (map VString l)
  | VMap m => VMap (map (fun kv => (fst kv, norm (snd kv))) m)
  | _ => v
  end.

Fixpoint size (v : value) : nat :=
  match v with
  | VSlice l => S (fold_right (fun x n => S (size x + n)) 0 l)
  | VStrings l => S (2 * List.length l)
  | VMap m => S (fold_right (fun kv n => S (size (snd kv) + n)) 0 m)
  | _ => 1
  end.

(** The generic tree with the encoding of what [encode] is given. *)
Definition ifaceValue (v : iface) : value :=
  match v with
  | IProcessParameters pp => ppValue pp
  | IMap m => VMap m
  end.

(** The number of objects and arrays open at the deepest place of the
    encoding of a value. *)
Fixpoint nesting (v : value) : N :=
  match v with
  | VSlice l => 1 + fold_right (fun x n => N.max (nesting x) n) 0%N l
  | VStrings _ => 1
  | VMap m => 1 + fold_right (fun kv n => N.max (nesting (snd kv)) n) 0%N m
  | _ => 0
  end.

(** The scanner reads the encoding of [v] back as [toJson v], where the
    nesting of [v] fits under the limit. *)
Definition parses (v : value) : Prop :=
  forall fuel depth rest,
    (size v <= fuel)%nat -> (depth + nesting v <= maxNestingDepth)%N ->
    delimited rest = true ->
    parseValue fuel depth (encodeValue false v ++ rest)
    = Some (toJson v, rest).

(** The strings of a value: its string leaves and the keys of its maps. *)
Inductive stringIn (s : gostring) : value -> Prop :=
| stringIn_string : stringIn s (VString s)
| stringIn_slice (l : list value) (v : value) :
    In v l -> stringIn s v -> stringIn s (VSlice l)
| stringIn_strings (l : list gostring) : In s l -> stringIn s (VStrings l)
| stringIn_key (m : genMapT) (v : value) : In (s, v) m -> stringIn s (VMap m)
| stringIn_member (m : genMapT) (k : gostring) (v : value) :
    In (k, v) m -> stringIn s v -> stringIn s (VMap m).

(** * Properties *)

Unset Implicit Arguments.

(** ** Bytes *)

Lemma byte_eqb_refl (b : byte) : Byte.eqb b b = true.
Proof. apply Byte.byte_dec_lb; reflexivity. Qed.

Lemma byte_eqb_eq (a b : byte) : Byte.eqb a b = true <-> a = b.
Proof.
  split; [apply Byte.byte_dec_bl | apply Byte.byte_dec_lb].
Qed.

Lemma byte_eqb_neq (a b : byte) : Byte.eqb a b = false <-> a <> b.
Proof.
  split.
  - intros H E. apply byte_eqb_eq in E. congruence.
  - intros H. destruct (Byte.eqb a b) eqn:E; [|reflexivity].
    apply byte_eqb_eq in E. contradiction.
Qed.

Lemma code_inj (a b : byte) : code a = code b -> a = b.
Proof.
  unfold code. intros H.
  pose proof (Byte.of_to_N a) as Ha. pose proof (Byte.of_to_N b) as Hb.
  rewrite H in Ha. congruence.
Qed.

Lemma code_bound (b : byte) : (code b < 256)%N.
Proof. pose proof (Byte.to_N_bounded b). unfold code. lia. Qed.

Lemma byte_of_code (b : byte) : byte_of (code b) = b.
Proof. unfold byte_of, code. rewrite Byte.of_to_N. reflexivity. Qed.

Lemma code_byte_of (n : N) : (n < 256)%N -> code (byte_of n) = n.
Proof.
  intros H. unfold byte_of, code.
  destruct (Byte.of_N n) as [b|] eqn:E.
  - apply Byte.to_of_N. exact E.
  - apply Byte.of_N_None_iff in E. lia.
Qed.

Lemma bytes_eqb_eq (a b : list byte) : bytes_eqb a b = true <-> a = b.
Proof.
  revert b. induction a as [|x a IH]; intros [|y b]; simpl;
    try (split; [discriminate | discriminate]); try tauto.
  rewrite andb_true_iff, byte_eqb_eq, IH.
  split; [intros [-> ->]; reflexivity | intros E; inversion E; auto].
Qed.

Lemma bytes_eqb_refl (a : list byte) : bytes_eqb a a = true.
Proof. apply bytes_eqb_eq. reflexivity. Qed.

Lemma bytes_eqb_neq (a b : list byte) : bytes_eqb a b = false <-> a <> b.
Proof.
  split.
  - intros H E. apply bytes_eqb_eq in E. congruence.
  - intros H. destruct (bytes_eqb a b) eqn:E; [|reflexivity].
    apply bytes_eqb_eq in E. contradiction.
Qed.

Lemma compareBytes_eq (a b : list byte) : compareBytes a b = Eq <-> a = b.
Proof.
  revert b. induction a as [|x a IH]; intros [|y b]; simpl;
    try (split; discriminate); try tauto.
  destruct (N.compare (code x) (code y)) eqn:E.
  - apply N.compare_eq_iff, code_inj in E. subst y. rewrite IH.
    split; [intros ->; reflexivity | intros H; inversion H; auto].
  - split; [discriminate|]. intros H. inversion H; subst.
    rewrite N.compare_refl in E. discriminate.
  - split; [discriminate|]. intros H. inversion H; subst.
    rewrite N.compare_refl in E. discriminate.
Qed.

Lemma compareBytes_refl (a : list byte) : compareBytes a a = Eq.
Proof. apply compareBytes_eq. reflexivity. Qed.

Lemma compareBytes_antisym (a b : list byte) :
  compareBytes b a = CompOpp (compareBytes a b).
Proof.
  revert b. induction a as [|x a IH]; intros [|y b]; simpl; try reflexivity.
  rewrite (N.compare_antisym (code x) (code y)).
  destruct (N.compare (code x) (code y)); simpl; auto.
Qed.

Lemma compareBytes_trans (a b c : list byte) :
  compareBytes a b = Lt -> compareBytes b c = Lt -> compareBytes a c = Lt.
Proof.
  revert b c. induction a as [|x a IH]; intros [|y b] [|z c]; simpl;
    try discriminate; try reflexivity.
  destruct (N.compare (code x) (code y)) eqn:E1; try discriminate;
    destruct (N.compare (code y) (code z)) eqn:E2; try discriminate;
    intros H1 H2.
  - apply N.compare_eq_iff in E1, E2.
    replace (code x ?= code z)%N with Eq
      by (symmetry; apply N.compare_eq_iff; congruence).
    eauto.
  - apply N.compare_eq_iff in E1. rewrite E1, E2. reflexivity.
  - apply N.compare_eq_iff in E2. rewrite <- E2, E1. reflexivity.
  - rewrite N.compare_lt_iff in E1, E2.
    replace (code x ?= code z)%N with Lt
      by (symmetry; apply N.compare_lt_iff; lia).
    reflexivity.
Qed.

(** [bytes.Contains] finds exactly the contiguous occurrences. *)
Lemma HasPrefix_spec (s p : list byte) :
  HasPrefix s p = true <-> exists r, s = p ++ r.
Proof.
  revert s. induction p as [|x p IH]; intros s; simpl.
  - split; [intros _; exists s; reflexivity
           | intros _; destruct s; reflexivity].
  - destruct s as [|y s].
    + split; [discriminate | intros [r H]; discriminate].
    + simpl. rewrite andb_true_iff, byte_eqb_eq, IH. split.
      * intros [-> [r ->]]. exists r. reflexivity.
      * intros [r H]. inversion H; subst. split; [reflexivity|].
        exists r. reflexivity.
Qed.

Lemma Contains_spec (b sub : list byte) :
  Contains b sub = true <-> occurs sub b.
Proof.
  unfold occurs. induction b as [|y b IH]; cbn [Contains].
  - rewrite orb_false_r, HasPrefix_spec. split.
    + intros [r H]. exists [], r. exact H.
    + intros [l [r H]]. destruct l; simpl in H.
      * exists r. exact H.
      * discriminate.
  - rewrite orb_true_iff, HasPrefix_spec, IH. split.
    + intros [[r H] | [l [r H]]].
      * exists [], r. exact H.
      * exists (y :: l), r. simpl. rewrite H. reflexivity.
    + intros [l [r H]]. destruct l as [|z l]; simpl in H.
      * left. exists r. exact H.
      * right. inversion H; subst. exists l, r. reflexivity.
Qed.

Lemma hasKeywords_spec (b : bytes) :
  hasKeywords b = true <->
  occurs (lit "env") b \/ occurs (lit "Environment") b.
Proof.
  unfold hasKeywords, _scrubKeywords. cbn [existsb].
  rewrite orb_false_r, orb_true_iff, !Contains_spec. tauto.
Qed.

(** ** The flag *)

Lemma IsScrubbingEnabled_SetScrubbing (enable : bool) :
  IsScrubbingEnabled (SetScrubbing enable) = enable.
Proof. destruct enable; reflexivity. Qed.

(** ** The dispatcher *)

Lemma scrubBytes_passthrough (_scrub : Z) (b : bytes) (scrub : scrubberFunc) :
  IsScrubbingEnabled _scrub = false \/ hasKeywords b = false
  \/ Valid b = false ->
  scrubBytes _scrub b scrub = (b, None).
Proof.
  unfold scrubBytes. intros [H | [H | H]]; rewrite H; simpl;
    rewrite ?orb_true_r; reflexivity.
Qed.

Lemma scrubBytes_decoded (_scrub : Z) (b : bytes) (scrub : scrubberFunc) :
  IsScrubbingEnabled _scrub = true -> hasKeywords b = true ->
  Valid b = true ->
  scrubBytes _scrub b scrub =
  match UnmarshalMap b [] with
  | (_, Some err) => ([], Some err)
  | (root, None) =>
      match scrub (Some []) root with
      | (Some err, _) => ([], Some err)
      | (None, root') => (encodeValue false (VMap root') ++ [x0a], None)
      end
  end.
Proof.
  intros He Hk Hv. unfold scrubBytes. rewrite He, Hk, Hv. simpl.
  destruct (UnmarshalMap b []) as [root [err|]]; [reflexivity|].
  destruct (scrub (Some []) root) as [[err|] root']; reflexivity.
Qed.

Lemma isRequestBase_root (root : genMapT) :
  isRequestBase (Some []) root =
  (hasKey (lit "ActivityId") root && hasKey (lit "ContainerId") root, root).
Proof.
  unfold isRequestBase, bind, ret, mapIndex, hasKey. cbn [getAt].
  destruct (lookup (lit "ActivityId") root);
    destruct (lookup (lit "ContainerId") root); reflexivity.
Qed.

Lemma getAt_snoc (root : genMapT) (path : list gostring) (k : gostring) :
  getAt root (path ++ [k]) =
  match getAt root path with
  | Some m =>
      match lookup k m with
      | Some (VMap m') => Some m'
      | _ => None
      end
  | None => None
  end.
Proof.
  revert root. induction path as [|k0 path IH]; intros root; cbn [getAt app].
  - destruct (lookup k root) as [[]|]; reflexivity.
  - destruct (lookup k0 root) as [[]|]; try reflexivity. apply IH.
Qed.

(** [index] on a reference that resolves: the reference moves down when
    the key holds a map, and is reported missing otherwise. *)
Lemma index_at (root m : genMapT) (path : list gostring) (s : gostring) :
  getAt root path = Some m ->
  index (Some path) s root =
  match lookup s m with
  | Some (VMap _) => ((Some (path ++ [s]), true), root)
  | Some _ => ((None, false), root)
  | None => ((Some path, false), root)
  end.
Proof.
  intros H. unfold index, bind, ret, mapIndex. rewrite H.
  destruct (lookup s m) as [[]|]; reflexivity.
Qed.

(** ** Container-create shape *)

Lemma scrubLinuxHostedSystem_found (root cc oci proc : genMapT) (e : value) :
  hasKey (lit "ActivityId") root = true ->
  hasKey (lit "ContainerId") root = true ->
  lookup (lit "ContainerConfig") root = Some (VMap cc) ->
  lookup (lit "OciSpecification") cc = Some (VMap oci) ->
  lookup (lit "process") oci = Some (VMap proc) ->
  lookup (lit "env") proc = Some e ->
  scrubLinuxHostedSystem (Some []) root =
  (None,
   assign (lit "ContainerConfig")
     (VMap (assign (lit "OciSpecification")
        (VMap (assign (lit "process")
           (VMap (assign (lit "env") (VStrings [ScrubbedReplacement]) proc))
           oci)) cc)) root).
Proof.
  intros Ha Hc H1 H2 H3 H4.
  unfold scrubLinuxHostedSystem. unfold bind at 1.
  rewrite isRequestBase_root, Ha, Hc. cbn [andb negb].
  unfold bind at 1. rewrite (index_at root root [] _ eq_refl), H1.
  cbn [app]. unfold bind at 1.
  assert (G1 : getAt root [lit "ContainerConfig"] = Some cc)
    by (cbn [getAt]; rewrite H1; reflexivity).
  rewrite (index_at root _ _ _ G1), H2. cbn [app]. unfold bind at 1.
  assert (G2 : getAt root [lit "ContainerConfig"; lit "OciSpecification"]
               = Some oci)
    by (cbn [getAt]; rewrite H1, H2; reflexivity).
  rewrite (index_at root _ _ _ G2), H3. cbn [app]. unfold bind at 1.
  unfold mapIndex at 1.
  assert (G3 : getAt root [lit "ContainerConfig"; lit "OciSpecification";
                           lit "process"] = Some proc)
    by (cbn [getAt]; rewrite H1, H2, H3; reflexivity).
  rewrite G3, H4. unfold bind, mapAssign, ret. cbn [setAt].
  rewrite H1, H2, H3. reflexivity.
Qed.

Lemma scrubLinuxHostedSystem_unknown (root : genMapT) :
  ~ (exists cc oci proc e,
        lookup (lit "ContainerConfig") root = Some (VMap cc)
        /\ lookup (lit "OciSpecification") cc = Some (VMap oci)
        /\ lookup (lit "process") oci = Some (VMap proc)
        /\ lookup (lit "env") proc = Some e) ->
  fst (scrubLinuxHostedSystem (Some []) root) = Some ErrUnknownType.
Proof.
  intros Hn.
  unfold scrubLinuxHostedSystem. unfold bind at 1.
  rewrite isRequestBase_root.
  destruct (hasKey (lit "ActivityId") root && hasKey (lit "ContainerId") root);
    [|reflexivity].
  cbn [negb]. unfold bind at 1. rewrite (index_at root root [] _ eq_refl).
  destruct (lookup (lit "ContainerConfig") root) as [v1|] eqn:H1;
    [|reflexivity].
  destruct v1 as [| | | | | |cc]; try reflexivity.
  cbn [app]. unfold bind at 1.
  assert (G1 : getAt root [lit "ContainerConfig"] = Some cc)
    by (cbn [getAt]; rewrite H1; reflexivity).
  rewrite (index_at root _ _ _ G1).
  destruct (lookup (lit "OciSpecification") cc) as [v2|] eqn:H2;
    [|reflexivity].
  destruct v2 as [| | | | | |oci]; try reflexivity.
  cbn [app]. unfold bind at 1.
  assert (G2 : getAt root [lit "ContainerConfig"; lit "OciSpecification"]
               = Some oci)
    by (cbn [getAt]; rewrite H1, H2; reflexivity).
  rewrite (index_at root _ _ _ G2).
  destruct (lookup (lit "process") oci) as [v3|] eqn:H3; [|reflexivity].
  destruct v3 as [| | | | | |proc]; try reflexivity.
  cbn [app]. unfold bind at 1. unfold mapIndex at 1.
  assert (G3 : getAt root [lit "ContainerConfig"; lit "OciSpecification";
                           lit "process"] = Some proc)
    by (cbn [getAt]; rewrite H1, H2, H3; reflexivity).
  rewrite G3.
  destruct (lookup (lit "env") proc) as [e|] eqn:H4; [|reflexivity].
  exfalso. apply Hn. exists cc, oci, proc, e. auto.
Qed.

(** C1, as amended: on an envelope that is decoded without error and has
    the base signature the create scrubber walks
    ContainerConfig, OciSpecification, process through maps only; when the
    walk ends in a map with an env key, the result is the encoding of the
    same tree with env set to the one-element sequence of the sentinel and
    no error; when the walk or the env key is missing, the result is
    ErrUnknownType. *)
Theorem ScrubBridgeCreate_shape (_scrub : Z) (b : bytes) (root : genMapT) :
  IsScrubbingEnabled _scrub = true -> hasKeywords b = true ->
  Valid b = true ->
  UnmarshalMap b [] = (root, None) ->
  hasKey (lit "ActivityId") root = true ->
  hasKey (lit "ContainerId") root = true ->
  (forall cc oci proc e,
      lookup (lit "ContainerConfig") root = Some (VMap cc) ->
      lookup (lit "OciSpecification") cc = Some (VMap oci) ->
      lookup (lit "process") oci = Some (VMap proc) ->
      lookup (lit "env") proc = Some e ->
      ScrubBridgeCreate _scrub b =
      (encodeValue false
         (VMap (assign (lit "ContainerConfig")
            (VMap (assign (lit "OciSpecification")
               (VMap (assign (lit "process")
                  (VMap (assign (lit "env")
                           (VStrings [ScrubbedReplacement]) proc))
                  oci)) cc)) root)) ++ [x0a], None))
  /\ (~ (exists cc oci proc e,
            lookup (lit "ContainerConfig") root = Some (VMap cc)
            /\ lookup (lit "OciSpecification") cc = Some (VMap oci)
            /\ lookup (lit "process") oci = Some (VMap proc)
            /\ lookup (lit "env") proc = Some e) ->
      ScrubBridgeCreate _scrub b = ([], Some ErrUnknownType)).
Proof.
  intros He Hk Hv Hu Ha Hc. unfold ScrubBridgeCreate.
  rewrite (scrubBytes_decoded _ _ _ He Hk Hv), Hu. split.
  - intros cc oci proc e H1 H2 H3 H4.
    rewrite (scrubLinuxHostedSystem_found _ _ _ _ _ Ha Hc H1 H2 H3 H4). reflexivity.
  - intros Hn. pose proof (scrubLinuxHostedSystem_unknown _ Hn) as E.
    destruct (scrubLinuxHostedSystem (Some []) root) as [o root'].
    simpl in E. subst o. reflexivity.
Qed.

(** ** The structured redactor *)

Lemma ScrubProcessParameters_passthrough (_scrub : Z) (s : gostring) :
  IsScrubbingEnabled _scrub = false \/ hasKeywords s = false
  \/ Valid s = false ->
  ScrubProcessParameters _scrub s = (s, None).
Proof.
  unfold ScrubProcessParameters. intros [H | [H | H]]; rewrite H; simpl;
    rewrite ?orb_true_r; reflexivity.
Qed.

Lemma ScrubProcessParameters_decoded (_scrub : Z) (s : gostring) :
  IsScrubbingEnabled _scrub = true -> hasKeywords s = true ->
  Valid s = true ->
  ScrubProcessParameters _scrub s =
  match UnmarshalProcessParameters s
          {| CommandLine := []; Environment := [] |} with
  | (_, Some err) => ([], Some err)
  | (pp, None) =>
      (encodeProcessParameters false
         {| CommandLine := CommandLine pp;
            Environment := [(ScrubbedReplacement, ScrubbedReplacement)] |}
       ++ [x0a], None)
  end.
Proof.
  intros He Hk Hv. unfold ScrubProcessParameters. rewrite He, Hk, Hv. simpl.
  destruct (UnmarshalProcessParameters s _) as [pp [err|]]; reflexivity.
Qed.

(** ** Container-exec shape *)

Lemma scrubExecuteProcess_settings (_scrub : Z) (root st : genMapT)
  (v : value) :
  hasKey (lit "ActivityId") root = true ->
  hasKey (lit "ContainerId") root = true ->
  lookup (lit "Settings") root = Some (VMap st) ->
  lookup (lit "ProcessParameters") st = Some v ->
  scrubExecuteProcess _scrub (Some []) root =
  match v with
  | VString s =>
      match ScrubProcessParameters _scrub s with
      | (_, Some err) => (Some err, root)
      | (s', None) =>
          (None,
           assign (lit "Settings")
             (VMap (assign (lit "ProcessParameters") (VString s') st)) root)
      end
  | _ => (Some ErrUnknownType, root)
  end.
Proof.
  intros Ha Hc H1 H2.
  unfold scrubExecuteProcess. unfold bind at 1.
  rewrite isRequestBase_root, Ha, Hc. cbn [andb negb].
  unfold bind at 1. rewrite (index_at root root [] _ eq_refl), H1.
  cbn [app]. unfold bind at 1. unfold mapIndex at 1.
  cbn [getAt]. rewrite H1, H2.
  destruct v; try reflexivity.
  destruct (ScrubProcessParameters _scrub s) as [s' [err|]]; [reflexivity|].
  unfold bind, mapAssign, ret. cbn [setAt]. rewrite H1. reflexivity.
Qed.

Lemma scrubbers_need_base (_scrub : Z) (root : genMapT) :
  hasKey (lit "ActivityId") root = false
  \/ hasKey (lit "ContainerId") root = false ->
  scrubLinuxHostedSystem (Some []) root = (Some ErrUnknownType, root)
  /\ scrubExecuteProcess _scrub (Some []) root = (Some ErrUnknownType, root).
Proof.
  intros H.
  assert (E : hasKey (lit "ActivityId") root
              && hasKey (lit "ContainerId") root = false)
    by (destruct H as [H | H]; rewrite H; [reflexivity | apply andb_false_r]).
  unfold scrubLinuxHostedSystem, scrubExecuteProcess.
  split; unfold bind at 1; rewrite isRequestBase_root, E; reflexivity.
Qed.

(** C4: each of the three operations returns its input unchanged and no
    error when scrubbing is disabled, or neither keyword occurs in the
    bytes, or the input is not valid JSON, keyword or not. *)
Theorem passthrough_unchanged (_scrub : Z) (b : bytes) :
  IsScrubbingEnabled _scrub = false
  \/ (~ occurs (lit "env") b /\ ~ occurs (lit "Environment") b)
  \/ Valid b = false ->
  ScrubProcessParameters _scrub b = (b, None)
  /\ ScrubBridgeCreate _scrub b = (b, None)
  /\ ScrubBridgeExecProcess _scrub b = (b, None).
Proof.
  intros H.
  assert (H' : IsScrubbingEnabled _scrub = false \/ hasKeywords b = false
               \/ Valid b = false).
  { destruct H as [H | [[H1 H2] | H]]; auto.
    right; left. destruct (hasKeywords b) eqn:E; [|reflexivity].
    apply hasKeywords_spec in E. tauto. }
  repeat split.
  - apply ScrubProcessParameters_passthrough, H'.
  - apply scrubBytes_passthrough, H'.
  - apply scrubBytes_passthrough, H'.
Qed.

(** C5, as amended: an envelope that is decoded without error and lacks
    ActivityId or lacks ContainerId makes both bridge scrubbers fail with
    ErrUnknownType, whatever else it holds. *)
Theorem base_signature_required (_scrub : Z) (b : bytes) (root : genMapT) :
  IsScrubbingEnabled _scrub = true -> hasKeywords b = true ->
  Valid b = true ->
  UnmarshalMap b [] = (root, None) ->
  lookup (lit "ActivityId") root = None
  \/ lookup (lit "ContainerId") root = None ->
  ScrubBridgeCreate _scrub b = ([], Some ErrUnknownType)
  /\ ScrubBridgeExecProcess _scrub b = ([], Some ErrUnknownType).
Proof.
  intros He Hk Hv Hu H.
  assert (H' : hasKey (lit "ActivityId") root = false
               \/ hasKey (lit "ContainerId") root = false)
    by (unfold hasKey; destruct H as [H | H]; rewrite H; auto).
  destruct (scrubbers_need_base _scrub root H') as [E1 E2].
  unfold ScrubBridgeCreate, ScrubBridgeExecProcess.
  rewrite !(scrubBytes_decoded _ _ _ He Hk Hv), Hu, E1, E2. auto.
Qed.

(** C6, as amended: a ProcessParameters key whose value is not a string
    makes the exec scrubber fail with ErrUnknownType, the error of every
    other unknown shape. *)
Theorem exec_non_string_unknown_type (_scrub : Z) (b : bytes)
  (root st : genMapT) (v : value) :
  IsScrubbingEnabled _scrub = true -> hasKeywords b = true ->
  Valid b = true ->
  UnmarshalMap b [] = (root, None) ->
  hasKey (lit "ActivityId") root = true ->
  hasKey (lit "ContainerId") root = true ->
  lookup (lit "Settings") root = Some (VMap st) ->
  lookup (lit "ProcessParameters") st = Some v ->
  (forall s, v <> VString s) ->
  ScrubBridgeExecProcess _scrub b = ([], Some ErrUnknownType).
Proof.
  intros He Hk Hv Hu Ha Hc H1 H2 Hs. unfold ScrubBridgeExecProcess.
  rewrite (scrubBytes_decoded _ _ _ He Hk Hv), Hu.
  rewrite (scrubExecuteProcess_settings _ _ _ _ Ha Hc H1 H2).
  destruct v; try reflexivity. exfalso. apply (Hs s). reflexivity.
Qed.

(** C7: past the three checks, an error of the decoder or of the scrubber
    is returned as it is, and whenever an operation returns an error its
    result is empty. *)
Theorem errors_abort (_scrub : Z) (b : bytes) :
  IsScrubbingEnabled _scrub = true -> hasKeywords b = true ->
  Valid b = true ->
  (forall pp err,
      UnmarshalProcessParameters b {| CommandLine := []; Environment := [] |}
      = (pp, Some err) ->
      ScrubProcessParameters _scrub b = ([], Some err))
  /\ (forall scrub root err,
         UnmarshalMap b [] = (root, Some err) ->
         scrubBytes _scrub b scrub = ([], Some err))
  /\ (forall scrub root root' err,
         UnmarshalMap b [] = (root, None) ->
         scrub (Some []) root = (Some err, root') ->
         scrubBytes _scrub b scrub = ([], Some err))
  /\ (forall r e,
         ScrubProcessParameters _scrub b = (r, Some e)
         \/ ScrubBridgeCreate _scrub b = (r, Some e)
         \/ ScrubBridgeExecProcess _scrub b = (r, Some e) ->
         r = []).
Proof.
  intros He Hk Hv. repeat split.
  - intros pp err H.
    rewrite (ScrubProcessParameters_decoded _ _ He Hk Hv), H. reflexivity.
  - intros scrub root err H.
    rewrite (scrubBytes_decoded _ _ _ He Hk Hv), H. reflexivity.
  - intros scrub root root' err H1 H2.
    rewrite (scrubBytes_decoded _ _ _ He Hk Hv), H1, H2. reflexivity.
  - unfold ScrubBridgeCreate, ScrubBridgeExecProcess.
    intros r e [H | [H | H]].
    + rewrite (ScrubProcessParameters_decoded _ _ He Hk Hv) in H.
      destruct (UnmarshalProcessParameters b _) as [pp [err|]];
        inversion H; reflexivity.
    + rewrite (scrubBytes_decoded _ _ _ He Hk Hv) in H.
      destruct (UnmarshalMap b []) as [root [err|]];
        [inversion H; reflexivity|].
      destruct (scrubLinuxHostedSystem (Some []) root) as [[err|] root'];
        inversion H; reflexivity.
    + rewrite (scrubBytes_decoded _ _ _ He Hk Hv) in H.
      destruct (UnmarshalMap b []) as [root [err|]];
        [inversion H; reflexivity|].
      destruct (scrubExecuteProcess _scrub (Some []) root) as [[err|] root'];
        inversion H; reflexivity.
Qed.

(** ** Bytes as numbers *)

Lemma byte_eqb_code (a b : byte) : Byte.eqb a b = (code a =? code b)%N.
Proof.
  destruct (Byte.eqb a b) eqn:E; symmetry.
  - apply N.eqb_eq. apply byte_eqb_eq in E. subst. reflexivity.
  - apply N.eqb_neq. intros H. apply code_inj in H.
    apply byte_eqb_neq in E. contradiction.
Qed.

Ltac code_consts :=
  repeat match goal with
  | |- context [code ?b] =>
      is_constructor b;
      let v := eval vm_compute in (code b) in change (code b) with v
  | H : context [code ?b] |- _ =>
      is_constructor b;
      let v := eval vm_compute in (code b) in change (code b) with v in H
  end.

Ltac Zify.zify_post_hook ::= Z.to_euclidean_division_equations.

(** Settle the comparisons of the goal that [lia] decides. *)
Ltac ntest :=
  match goal with
  | |- context [(?a <? ?b)%N] =>
      first [ replace (a <? b)%N with true by (symmetry; apply N.ltb_lt; lia)
            | replace (a <? b)%N with false by (symmetry; apply N.ltb_ge; lia) ]
  | |- context [(?a <=? ?b)%N] =>
      first [ replace (a <=? b)%N with true by (symmetry; apply N.leb_le; lia)
            | replace (a <=? b)%N with false by (symmetry; apply N.leb_gt; lia) ]
  | |- context [(?a =? ?b)%N] =>
      first [ replace (a =? b)%N with true by (symmetry; apply N.eqb_eq; lia)
            | replace (a =? b)%N with false by (symmetry; apply N.eqb_neq; lia) ]
  end.

Ltac nsolve := repeat (ntest; cbn [andb orb negb]; cbv beta iota).

(** The same, splitting on the equalities left open. *)
Ltac nsplit :=
  nsolve;
  repeat (match goal with
          | |- context [(?a =? ?b)%N] => destruct (N.eqb_spec a b)
          end; nsolve).

(** Turn the boolean comparisons among the hypotheses into facts. *)
Ltac nhyps :=
  repeat match goal with
  | H : (_ && _) = true |- _ => apply andb_true_iff in H; destruct H
  | H : (_ || _) = false |- _ => apply orb_false_iff in H; destruct H
  | H : (_ <? _)%N = true |- _ => apply N.ltb_lt in H
  | H : (_ <? _)%N = false |- _ => apply N.ltb_ge in H
  | H : (_ <=? _)%N = true |- _ => apply N.leb_le in H
  | H : (_ <=? _)%N = false |- _ => apply N.leb_gt in H
  | H : (_ =? _)%N = true |- _ => apply N.eqb_eq in H
  | H : (_ =? _)%N = false |- _ => apply N.eqb_neq in H
  | H : context [(if (?a =? ?b)%N then _ else _)] |- _ =>
      destruct (N.eqb_spec a b)
  end.

Lemma EncodeRune_1 (r : N) : (r <= 0x7F)%N -> EncodeRune r = [byte_of r].
Proof. intros H. unfold EncodeRune. nsolve. reflexivity. Qed.

Lemma EncodeRune_2 (r : N) :
  (0x7F < r <= 0x7FF)%N ->
  EncodeRune r = [byte_of (0xC0 + r / 64); byte_of (0x80 + r mod 64)].
Proof. intros H. unfold EncodeRune. nsolve. reflexivity. Qed.

Lemma EncodeRune_3 (r : N) :
  (0x7FF < r <= 0xFFFF)%N -> ~ (0xD800 <= r <= 0xDFFF)%N ->
  EncodeRune r =
  [byte_of (0xE0 + r / 4096); byte_of (0x80 + (r / 64) mod 64);
   byte_of (0x80 + r mod 64)].
Proof.
  intros H Hs. unfold EncodeRune. nsolve.
  destruct (N.leb_spec 0xD800 r); nsolve; reflexivity.
Qed.

Lemma EncodeRune_4 (r : N) :
  (0xFFFF < r <= 0x10FFFF)%N ->
  EncodeRune r =
  [byte_of (0xF0 + r / 262144); byte_of (0x80 + (r / 4096) mod 64);
   byte_of (0x80 + (r / 64) mod 64); byte_of (0x80 + r mod 64)].
Proof. intros H. unfold EncodeRune. nsolve. reflexivity. Qed.

Lemma DecodeRune_EncodeRune (r : N) (t : list byte) :
  scalar r ->
  DecodeRune (EncodeRune r ++ t) = (r, List.length (EncodeRune r))
  /\ ~ (r = RuneError /\ List.length (EncodeRune r) = 1%nat).
Proof.
  intros [Hr Hs].
  destruct (N.leb_spec r 0x7F).
  { rewrite EncodeRune_1 by lia.
    cbn [app List.length DecodeRune]. unfold RuneSelf, RuneError.
    rewrite !code_byte_of by lia. nsolve.
    repeat split; try reflexivity. intros [? _]; lia. }
  destruct (N.leb_spec r 0x7FF).
  { rewrite EncodeRune_2 by lia.
    cbn [app List.length DecodeRune]. unfold RuneSelf, between, cont.
    rewrite !code_byte_of by lia. nsolve.
    replace ((192 + r / 64 - 192) * 64 + (128 + r mod 64 - 128))%N with r by lia.
    repeat split; try reflexivity. intros [_ ?]; lia. }
  destruct (N.leb_spec r 0xFFFF).
  { rewrite EncodeRune_3 by lia.
    cbn [app List.length DecodeRune]. unfold RuneSelf, between, cont.
    rewrite !code_byte_of by lia. nsolve.
    replace ((224 + r / 4096 - 224) * 4096 + (128 + (r / 64) mod 64 - 128) * 64
             + (128 + r mod 64 - 128))%N with r by lia.
    nsplit; (repeat split; try reflexivity; intros [_ ?]; lia). }
  rewrite EncodeRune_4 by lia.
  cbn [app List.length DecodeRune]. unfold RuneSelf, between, cont.
  rewrite !code_byte_of by lia. nsolve.
  replace ((240 + r / 262144 - 240) * 262144
           + (128 + (r / 4096) mod 64 - 128) * 4096
           + (128 + (r / 64) mod 64 - 128) * 64
           + (128 + r mod 64 - 128))%N with r by lia.
  nsplit; (repeat split; try reflexivity; intros [_ ?]; lia).
Qed.

Lemma EncodeRune_unscalar (r : N) :
  ~ scalar r -> EncodeRune r = EncodeRune RuneError.
Proof.
  intros H. unfold scalar in H. unfold EncodeRune at 1.
  destruct (N.leb_spec r 0x7F); [exfalso; apply H; lia|].
  destruct (N.leb_spec r 0x7FF); [exfalso; apply H; lia|].
  destruct (N.ltb_spec 0x10FFFF r); [reflexivity|].
  destruct (N.leb_spec 0xD800 r); [|exfalso; apply H; lia].
  destruct (N.leb_spec r 0xDFFF); [reflexivity|exfalso; apply H; lia].
Qed.

Lemma scalar_RuneError : scalar RuneError.
Proof. unfold scalar, RuneError. lia. Qed.

(** A rune that [DecodeRune] accepts is a scalar value, spans the bytes
    [EncodeRune] writes for it, and does not run past the input. *)
Lemma DecodeRune_inv (p : list byte) (c : N) (n : nat) :
  p <> [] ->
  DecodeRune p = (c, n) ->
  ~ (c = RuneError /\ n = 1%nat) ->
  scalar c /\ exists t, p = EncodeRune c ++ t /\ List.length (EncodeRune c) = n.
Proof.
  intros Hp H Hv. destruct p as [|b0 p1]; [congruence|]. clear Hp.
  unfold DecodeRune, RuneSelf, between, cont in H.
  pose proof (code_bound b0) as B0.
  destruct (code b0 <? 128)%N eqn:E0.
  { inversion H; subst. nhyps. split; [unfold scalar; lia|].
    exists p1. rewrite EncodeRune_1 by lia. rewrite byte_of_code. auto. }
  destruct ((194 <=? code b0)%N && (code b0 <=? 223)%N) eqn:E1.
  { destruct p1 as [|b1 p2]; [inversion H; subst; tauto|].
    destruct ((128 <=? code b1)%N && (code b1 <=? 191)%N) eqn:E2;
      [|inversion H; subst; tauto].
    inversion H; subst. nhyps. split; [unfold scalar; lia|].
    exists p2. rewrite EncodeRune_2 by lia.
    replace (192 + ((code b0 - 192) * 64 + (code b1 - 128)) / 64)%N
      with (code b0) by lia.
    replace (128 + ((code b0 - 192) * 64 + (code b1 - 128)) mod 64)%N
      with (code b1) by lia.
    rewrite !byte_of_code. auto. }
  destruct ((224 <=? code b0)%N && (code b0 <=? 239)%N) eqn:E2.
  { destruct p1 as [|b1 [|b2 p3]]; try (inversion H; subst; tauto).
    pose proof (code_bound b1) as B1.
    match type of H with (if ?x then _ else _) = _ =>
      destruct x eqn:E3; [|inversion H; subst; tauto] end.
    inversion H; subst. clear H. nhyps;
      (split; [unfold scalar; lia|]);
      exists p3; rewrite EncodeRune_3 by lia;
      replace (224 + ((code b0 - 224) * 4096 + (code b1 - 128) * 64
                      + (code b2 - 128)) / 4096)%N with (code b0) by lia;
      replace (128 + (((code b0 - 224) * 4096 + (code b1 - 128) * 64
                      + (code b2 - 128)) / 64) mod 64)%N with (code b1) by lia;
      replace (128 + ((code b0 - 224) * 4096 + (code b1 - 128) * 64
                      + (code b2 - 128)) mod 64)%N with (code b2) by lia;
      rewrite !byte_of_code; auto. }
  destruct ((240 <=? code b0)%N && (code b0 <=? 244)%N) eqn:E3;
    [|inversion H; subst; tauto].
  destruct p1 as [|b1 [|b2 [|b3 p4]]]; try (inversion H; subst; tauto).
  pose proof (code_bound b1) as B1.
  match type of H with (if ?x then _ else _) = _ =>
    destruct x eqn:E4; [|inversion H; subst; tauto] end.
  inversion H; subst. clear H. nhyps;
    (split; [unfold scalar; lia|]);
    exists p4; rewrite EncodeRune_4 by lia;
    replace (240 + ((code b0 - 240) * 262144 + (code b1 - 128) * 4096
                    + (code b2 - 128) * 64 + (code b3 - 128)) / 262144)%N
      with (code b0) by lia;
    replace (128 + (((code b0 - 240) * 262144 + (code b1 - 128) * 4096
                    + (code b2 - 128) * 64 + (code b3 - 128)) / 4096) mod 64)%N
      with (code b1) by lia;
    replace (128 + (((code b0 - 240) * 262144 + (code b1 - 128) * 4096
                    + (code b2 - 128) * 64 + (code b3 - 128)) / 64) mod 64)%N
      with (code b2) by lia;
    replace (128 + ((code b0 - 240) * 262144 + (code b1 - 128) * 4096
                    + (code b2 - 128) * 64 + (code b3 - 128)) mod 64)%N
      with (code b3) by lia;
    rewrite !byte_of_code; auto.
Qed.

(** ** UTF-8 *)

Lemma EncodeRune_length (r : N) :
  (1 <= List.length (EncodeRune r) <= 4)%nat.
Proof.
  unfold EncodeRune.
  repeat match goal with
         | |- context [if ?x then _ else _] => destruct x
         end; cbn [List.length]; lia.
Qed.

Lemma EncodeRune_nonempty (r : N) : EncodeRune r <> [].
Proof.
  pose proof (EncodeRune_length r) as H. intros E. rewrite E in H.
  cbn in H. lia.
Qed.

Lemma firstn_app_exact {A} (a b : list A) :
  firstn (List.length a) (a ++ b) = a.
Proof.
  rewrite firstn_app, Nat.sub_diag, firstn_all. cbn. apply app_nil_r.
Qed.

Lemma skipn_app_exact {A} (a b : list A) :
  skipn (List.length a) (a ++ b) = b.
Proof.
  rewrite skipn_app, Nat.sub_diag, skipn_all. reflexivity.
Qed.

Lemma ValidUTF8_app (a b : list byte) :
  ValidUTF8 a -> ValidUTF8 b -> ValidUTF8 (a ++ b).
Proof.
  intros Ha Hb. induction Ha as [|r t Hr Ht IH]; [exact Hb|].
  rewrite <- app_assoc. constructor; assumption.
Qed.

Lemma ValidUTF8_EncodeRune (r : N) (t : list byte) :
  ValidUTF8 t -> ValidUTF8 (EncodeRune r ++ t).
Proof.
  intros Ht.
  assert (D : scalar r \/ ~ scalar r) by (unfold scalar; lia).
  destruct D as [D | D].
  - constructor; assumption.
  - rewrite (EncodeRune_unscalar r D). constructor; [apply scalar_RuneError|].
    exact Ht.
Qed.

Lemma ValidUTF8_ascii (b : byte) (t : list byte) :
  (code b < 0x80)%N -> ValidUTF8 t -> ValidUTF8 (b :: t).
Proof.
  intros Hb Ht. change (b :: t) with ([b] ++ t).
  rewrite <- (byte_of_code b), <- EncodeRune_1 by lia.
  apply ValidUTF8_EncodeRune, Ht.
Qed.

Lemma ValidUTF8_all_ascii (l : list byte) :
  Forall (fun b => (code b < 0x80)%N) l -> ValidUTF8 l.
Proof.
  induction 1 as [|b l Hb Hl IH]; [constructor|].
  apply ValidUTF8_ascii; assumption.
Qed.

Lemma utf8ValidLoop_sound (fuel : nat) (p : list byte) :
  utf8ValidLoop fuel p = true -> ValidUTF8 p.
Proof.
  revert p. induction fuel as [|fuel IH]; intros p H.
  - destruct p; [constructor | discriminate].
  - destruct p as [|b p']; [constructor|].
    cbn [utf8ValidLoop] in H.
    destruct (DecodeRune (b :: p')) as [c n] eqn:E.
    destruct ((c =? RuneError)%N && Nat.eqb n 1) eqn:Ev; [discriminate|].
    assert (Hv : ~ (c = RuneError /\ n = 1%nat)).
    { intros [H1 H2]. subst. rewrite N.eqb_refl in Ev. discriminate. }
    destruct (DecodeRune_inv (b :: p') c n ltac:(discriminate) E Hv)
      as [Hs [t [Hp Hl]]].
    rewrite Hp in *. rewrite <- Hl, skipn_app_exact in H.
    constructor; [exact Hs | apply IH, H].
Qed.

Lemma utf8ValidLoop_complete (p : list byte) :
  ValidUTF8 p ->
  forall fuel, (List.length p <= fuel)%nat -> utf8ValidLoop fuel p = true.
Proof.
  induction 1 as [|r t Hr Ht IH]; intros fuel Hf; [destruct fuel; reflexivity|].
  pose proof (EncodeRune_length r) as Hl.
  destruct (DecodeRune_EncodeRune r t Hr) as [E Hv].
  rewrite length_app in Hf.
  destruct (EncodeRune r ++ t) as [|b p'] eqn:Ep.
  { destruct (EncodeRune r); [cbn in Hl; lia | discriminate]. }
  destruct fuel as [|fuel]; [lia|].
  cbn [utf8ValidLoop]. rewrite E.
  destruct ((r =? RuneError)%N && Nat.eqb (List.length (EncodeRune r)) 1)
    eqn:Ev.
  { apply andb_true_iff in Ev. destruct Ev as [E1 E2].
    apply N.eqb_eq in E1. apply Nat.eqb_eq in E2. tauto. }
  rewrite <- Ep, skipn_app_exact. apply IH. lia.
Qed.

Lemma utf8Valid_iff (p : list byte) : utf8Valid p = true <-> ValidUTF8 p.
Proof.
  split.
  - apply utf8ValidLoop_sound.
  - intros H. apply utf8ValidLoop_complete; [exact H | apply Nat.le_refl].
Qed.

Lemma DecodeRune_size_pos (p : list byte) :
  p <> [] -> (1 <= snd (DecodeRune p))%nat.
Proof.
  intros Hp. destruct p as [|b p]; [congruence|].
  unfold DecodeRune.
  repeat match goal with
         | |- context [if ?x then _ else _] => destruct x
         | |- context [match ?l with [] => _ | _ :: _ => _ end] => destruct l
         end; cbn [snd]; lia.
Qed.

(** ** The string encoder *)

Lemma appendStringLoop_fuel (e : bool) (f1 f2 : nat) (s : list byte) :
  (List.length s <= f1)%nat -> (List.length s <= f2)%nat ->
  appendStringLoop f1 e s = appendStringLoop f2 e s.
Proof.
  revert f2 s. induction f1 as [|f1 IH]; intros f2 s H1 H2.
  - destruct s; [|cbn in H1; lia]. destruct f2; reflexivity.
  - destruct s as [|b rest]; [destruct f2; reflexivity|].
    destruct f2 as [|f2]; [cbn in H2; lia|].
    cbn [List.length] in H1, H2. cbn [appendStringLoop].
    destruct (code b <? RuneSelf)%N.
    + rewrite (IH f2 rest) by lia. reflexivity.
    + pose proof (DecodeRune_size_pos (b :: rest) ltac:(discriminate)) as Hp.
      destruct (DecodeRune (b :: rest)) as [c n]. cbn [snd] in Hp.
      assert (Hs : (List.length (skipn n (b :: rest)) <= List.length rest)%nat).
      { rewrite length_skipn. cbn [List.length]. lia. }
      rewrite (IH f2 rest) by lia.
      rewrite (IH f2 (skipn n (b :: rest))) by lia. reflexivity.
Qed.

Lemma escapeString_nil (e : bool) : escapeString e [] = [].
Proof. reflexivity. Qed.

Lemma EncodeRune_head_high (r : N) :
  scalar r -> (0x7F < r)%N ->
  exists b0 p, EncodeRune r = b0 :: p /\ (0x80 <= code b0)%N.
Proof.
  intros [Hr Hs] H.
  destruct (N.leb_spec r 0x7FF).
  { rewrite EncodeRune_2 by lia. eexists _, _. split; [reflexivity|].
    rewrite code_byte_of by lia. lia. }
  destruct (N.leb_spec r 0xFFFF).
  { rewrite EncodeRune_3 by lia. eexists _, _. split; [reflexivity|].
    rewrite code_byte_of by lia. lia. }
  rewrite EncodeRune_4 by lia. eexists _, _. split; [reflexivity|].
  rewrite code_byte_of by lia. lia.
Qed.

(** The loop writes a valid string rune by rune. *)
Lemma escapeString_rune (e : bool) (r : N) (t : list byte) :
  scalar r ->
  escapeString e (EncodeRune r ++ t) = escapeRune e r ++ escapeString e t.
Proof.
  intros Hs. unfold escapeString, escapeRune, RuneSelf.
  destruct (N.ltb_spec r 0x80) as [Hlt | Hge].
  - rewrite EncodeRune_1 by lia. cbn [app List.length appendStringLoop].
    unfold RuneSelf. rewrite code_byte_of by lia.
    replace (r <? 128)%N with true by (symmetry; apply N.ltb_lt; lia).
    reflexivity.
  - destruct (EncodeRune_head_high r Hs ltac:(lia)) as [b0 [p [Ep Hb]]].
    destruct (DecodeRune_EncodeRune r t Hs) as [E Hv].
    pose proof (skipn_app_exact (EncodeRune r) t) as Hskip.
    pose proof (firstn_app_exact (EncodeRune r) t) as Hfirst.
    rewrite length_app. revert E Hv Hskip Hfirst.
    rewrite Ep. cbn [app List.length Nat.add appendStringLoop].
    intros E Hv Hskip Hfirst. unfold RuneSelf. rewrite E.
    replace (code b0 <? 128)%N with false by (symmetry; apply N.ltb_ge; lia).
    replace ((r =? RuneError)%N && Nat.eqb (S (List.length p)) 1) with false.
    2:{ symmetry. apply andb_false_iff.
        destruct (N.eqb_spec r RuneError); [|auto]. right.
        apply Nat.eqb_neq. intros H1. apply Hv. auto. }
    rewrite Hskip, Hfirst.
    rewrite (appendStringLoop_fuel e _ (List.length t) t) by lia.
    destruct ((r =? 0x2028)%N || (r =? 0x2029)%N);
      [rewrite <- app_assoc|]; reflexivity.
Qed.

(** ** The string decoder on what the encoder writes *)

Lemma unquoteLoop_ascii (b : byte) (rest : list byte) (fuel : nat) :
  (code b < 0x80)%N ->
  unquoteLoop (S fuel)
    ((if htmlSafeSet b || (negb false && safeSet b)
      then [b] else escapeByte b) ++ rest)
  = match unquoteLoop fuel rest with
    | Some (t, rest') => Some ([b] ++ t, rest')
    | None => None
    end.
Proof.
  intros H.
  destruct b; try (vm_compute in H; discriminate); reflexivity.
Qed.

Lemma unquoteLoop_rune (r : N) (rest : list byte) (fuel : nat) :
  scalar r ->
  unquoteLoop (S fuel) (escapeRune false r ++ rest)
  = match unquoteLoop fuel rest with
    | Some (t, rest') => Some (EncodeRune r ++ t, rest')
    | None => None
    end.
Proof.
  intros Hs. unfold escapeRune, RuneSelf.
  destruct (N.ltb_spec r 0x80) as [Hlt | Hge].
  - rewrite EncodeRune_1 by lia.
    apply unquoteLoop_ascii. rewrite code_byte_of by lia. exact Hlt.
  - destruct (N.eqb_spec r 0x2028) as [-> | N1]; [reflexivity|].
    destruct (N.eqb_spec r 0x2029) as [-> | N2]; [reflexivity|].
    cbn [orb].
    destruct (EncodeRune_head_high r Hs ltac:(lia)) as [b0 [p [Ep Hb]]].
    destruct (DecodeRune_EncodeRune r rest Hs) as [E Hv].
    pose proof (skipn_app_exact (EncodeRune r) rest) as Hskip.
    revert E Hv Hskip. rewrite Ep. cbn [app List.length].
    intros E Hv Hskip. cbn [unquoteLoop].
    rewrite !byte_eqb_code. code_consts. unfold RuneSelf. nsolve.
    rewrite E, Hskip, Ep. reflexivity.
Qed.

Lemma escapeRune_length (e : bool) (r : N) :
  scalar r ->
  (List.length (EncodeRune r) <= List.length (escapeRune e r))%nat.
Proof.
  intros Hs. unfold escapeRune, RuneSelf.
  destruct (N.ltb_spec r 0x80) as [Hlt | Hge].
  - rewrite EncodeRune_1 by lia. unfold escapeByte.
    repeat match goal with
           | |- context [if ?x then _ else _] => destruct x
           end; cbn; lia.
  - destruct (N.eqb_spec r 0x2028) as [-> | N1]; [cbn; lia|].
    destruct (N.eqb_spec r 0x2029) as [-> | N2]; [cbn; lia|].
    cbn [orb]. lia.
Qed.

Lemma escapeString_length (e : bool) (s : list byte) :
  ValidUTF8 s -> (List.length s <= List.length (escapeString e s))%nat.
Proof.
  induction 1 as [|r t Hr Ht IH]; [cbn; lia|].
  rewrite escapeString_rune by exact Hr.
  pose proof (escapeRune_length e r Hr). rewrite !length_app. lia.
Qed.

(** The decoder reads back a valid string from its encoding. *)
Lemma unquoteLoop_escapeString (s rest : list byte) :
  ValidUTF8 s ->
  forall fuel, (List.length s < fuel)%nat ->
  unquoteLoop fuel (escapeString false s ++ x22 :: rest) = Some (s, rest).
Proof.
  induction 1 as [|r t Hr Ht IH]; intros fuel Hf.
  - destruct fuel; [lia|]. reflexivity.
  - destruct fuel as [|fuel]; [lia|].
    rewrite escapeString_rune, <- app_assoc by exact Hr.
    rewrite unquoteLoop_rune by exact Hr.
    pose proof (EncodeRune_length r). rewrite length_app in Hf.
    rewrite IH by lia. reflexivity.
Qed.

Lemma unquote_appendString (s rest : list byte) :
  ValidUTF8 s ->
  exists p, appendString false s ++ rest = x22 :: p
            /\ unquote p = Some (s, rest).
Proof.
  intros Hs. exists (escapeString false s ++ x22 :: rest). split.
  - unfold appendString. cbn [app]. rewrite <- app_assoc. reflexivity.
  - unfold unquote. apply unquoteLoop_escapeString; [exact Hs|].
    pose proof (escapeString_length false s Hs). rewrite length_app.
    cbn [List.length]. lia.
Qed.

(** ** Validity of what the codec produces *)

Lemma unescape_ascii (e b : byte) :
  unescape e = Some b -> (code b < 0x80)%N.
Proof.
  unfold unescape.
  destruct (Byte.eqb e x22 || Byte.eqb e x5c || Byte.eqb e x2f) eqn:E.
  - intros H. inversion H; subst.
    rewrite !orb_true_iff, !byte_eqb_eq in E.
    destruct E as [[-> | ->] | ->]; vm_compute; reflexivity.
  - repeat match goal with
           | |- context [if ?x then _ else _] => destruct x
           end; intros H; inversion H; subst; vm_compute; reflexivity.
Qed.

(** The decoder stores valid UTF-8 whatever the literal holds. *)
Lemma unquoteLoop_valid (fuel : nat) (s t rest : list byte) :
  unquoteLoop fuel s = Some (t, rest) -> ValidUTF8 t.
Proof.
  revert s t rest. induction fuel as [|fuel IH]; intros s t rest H;
    [discriminate|].
  cbn [unquoteLoop] in H.
  destruct s as [|c s1]; [discriminate|].
  destruct (Byte.eqb c x22); [inversion H; constructor|].
  assert (K : forall w X,
             match unquoteLoop fuel X with
             | Some (t', rest') => Some (w ++ t', rest')
             | None => None
             end = Some (t, rest) ->
             (forall t', ValidUTF8 t' -> ValidUTF8 (w ++ t')) ->
             ValidUTF8 t).
  { intros w X HX Hw.
    destruct (unquoteLoop fuel X) as [[t' rest']|] eqn:E; [|discriminate].
    inversion HX; subst. apply Hw. eapply IH. exact E. }
  destruct (Byte.eqb c x5c).
  { destruct s1 as [|e s2]; [discriminate|].
    destruct (Byte.eqb e x75).
    { destruct (getu4 (c :: e :: s2)) as [rr|]; [|discriminate].
      destruct (IsSurrogate rr).
      - destruct (negb (utf16DecodeRune rr (getu4 (skipn 6 (c :: e :: s2)))
                        =? RuneError)%N);
          (eapply K; [exact H | apply ValidUTF8_EncodeRune]).
      - eapply K; [exact H | apply ValidUTF8_EncodeRune]. }
    destruct (unescape e) as [b|] eqn:Eu; [|discriminate].
    eapply K; [exact H|]. intros t' Ht'. apply ValidUTF8_ascii; [|exact Ht'].
    eapply unescape_ascii. exact Eu. }
  destruct (code c <? 0x20)%N; [discriminate|].
  destruct (code c <? RuneSelf)%N eqn:Ec.
  { eapply K; [exact H|]. intros t' Ht'. apply ValidUTF8_ascii; [|exact Ht'].
    apply N.ltb_lt in Ec. exact Ec. }
  destruct (DecodeRune (c :: s1)) as [rr size].
  eapply K; [exact H | apply ValidUTF8_EncodeRune].
Qed.

Lemma unquote_valid (s t rest : list byte) :
  unquote s = Some (t, rest) -> ValidUTF8 t.
Proof. apply unquoteLoop_valid. Qed.

Lemma escapeByte_ascii (b : byte) :
  (code b < 0x80)%N ->
  Forall (fun c => (code c < 0x80)%N) (escapeByte b).
Proof.
  intros H. destruct b; try (vm_compute in H; discriminate);
    vm_compute; repeat constructor.
Qed.

Lemma escapeRune_valid (e : bool) (r : N) (t : list byte) :
  scalar r -> ValidUTF8 t -> ValidUTF8 (escapeRune e r ++ t).
Proof.
  intros Hs Ht. unfold escapeRune, RuneSelf.
  destruct (N.ltb_spec r 0x80) as [Hlt | Hge].
  - destruct (htmlSafeSet (byte_of r) || (negb e && safeSet (byte_of r))).
    + apply ValidUTF8_ascii; [rewrite code_byte_of by lia; exact Hlt | exact Ht].
    + apply ValidUTF8_app; [|exact Ht]. apply ValidUTF8_all_ascii.
      apply escapeByte_ascii. rewrite code_byte_of by lia. exact Hlt.
  - destruct (N.eqb_spec r 0x2028) as [-> | N1];
      [apply ValidUTF8_app; [apply ValidUTF8_all_ascii; vm_compute;
                             repeat constructor | exact Ht]|].
    destruct (N.eqb_spec r 0x2029) as [-> | N2];
      [apply ValidUTF8_app; [apply ValidUTF8_all_ascii; vm_compute;
                             repeat constructor | exact Ht]|].
    cbn [orb]. constructor; assumption.
Qed.

Lemma escapeString_valid (e : bool) (s : list byte) :
  ValidUTF8 s -> ValidUTF8 (escapeString e s).
Proof.
  induction 1 as [|r t Hr Ht IH]; [constructor|].
  rewrite escapeString_rune by exact Hr. apply escapeRune_valid; assumption.
Qed.

Lemma appendString_valid (e : bool) (s : list byte) :
  ValidUTF8 s -> ValidUTF8 (appendString e s).
Proof.
  intros H. unfold appendString.
  apply (ValidUTF8_ascii x22); [vm_compute; reflexivity|].
  apply ValidUTF8_app; [apply escapeString_valid, H|].
  apply ValidUTF8_ascii; [vm_compute; reflexivity | constructor].
Qed.

(** ** Number literals *)

Lemma isDigit_isNumChar (c : byte) : isDigit c = true -> isNumChar c = true.
Proof. intros H. unfold isNumChar. rewrite H. reflexivity. Qed.

Lemma dropDigits_numchars (s : list byte) :
  forallb isNumChar (dropDigits s) = true -> forallb isNumChar s = true.
Proof.
  induction s as [|c s IH]; [reflexivity|]. cbn [dropDigits].
  destruct (isDigit c) eqn:E; [|auto].
  intros H. cbn [forallb]. rewrite (isDigit_isNumChar c E), (IH H). reflexivity.
Qed.

Lemma dropDigits_nil_numchars (s : list byte) :
  match dropDigits s with [] => true | _ :: _ => false end = true ->
  forallb isNumChar s = true.
Proof.
  intros H. apply dropDigits_numchars.
  destruct (dropDigits s); [reflexivity | discriminate].
Qed.

Lemma validExponent_numchars (s : list byte) :
  validExponent s = true -> forallb isNumChar s = true.
Proof.
  unfold validExponent. destruct s as [|e s1]; [reflexivity|].
  destruct (Byte.eqb e x65 || Byte.eqb e x45) eqn:Ee; [|discriminate].
  assert (He : isNumChar e = true).
  { rewrite orb_true_iff, !byte_eqb_eq in Ee. destruct Ee; subst; reflexivity. }
  cbn [forallb]. rewrite He. cbn [andb].
  destruct s1 as [|c s2]; [discriminate|].
  destruct (Byte.eqb c x2b || Byte.eqb c x2d) eqn:Ec.
  - assert (Hc : isNumChar c = true).
    { rewrite orb_true_iff, !byte_eqb_eq in Ec.
      destruct Ec; subst; reflexivity. }
    destruct s2 as [|d s3]; [discriminate|].
    intros H. apply andb_true_iff in H. destruct H as [H1 H2].
    cbn [forallb]. rewrite Hc, (isDigit_isNumChar d H1).
    rewrite (dropDigits_nil_numchars s3 H2). reflexivity.
  - intros H. apply andb_true_iff in H. destruct H as [H1 H2].
    cbn [forallb]. rewrite (isDigit_isNumChar c H1).
    rewrite (dropDigits_nil_numchars s2 H2). reflexivity.
Qed.

Lemma validFraction_numchars (s : list byte) :
  validFraction s = true -> forallb isNumChar s = true.
Proof.
  unfold validFraction. destruct s as [|c s1]; [reflexivity|].
  destruct (Byte.eqb c x2e) eqn:Ec; [|apply validExponent_numchars].
  apply byte_eqb_eq in Ec. subst c.
  destruct s1 as [|d s2]; [discriminate|].
  intros H. apply andb_true_iff in H. destruct H as [H1 H2].
  cbn [forallb]. rewrite (isDigit_isNumChar d H1). cbn [andb].
  change (isNumChar x2e) with true. cbn [andb].
  apply dropDigits_numchars, validExponent_numchars, H2.
Qed.

(** A number literal begins with a digit or the minus sign and is made
    of number characters. *)
Lemma isValidNumber_shape (s : list byte) :
  isValidNumber s = true ->
  forallb isNumChar s = true
  /\ exists c s', s = c :: s' /\ (Byte.eqb c x2d || isDigit c = true).
Proof.
  unfold isValidNumber. intros H.
  assert (G : forall d s1,
             (if Byte.eqb d x30 then validFraction s1
              else if between 0x31 0x39 d
                   then validFraction (dropDigits s1) else false) = true ->
             forallb isNumChar (d :: s1) = true /\ isDigit d = true).
  { intros d s1 Hd. destruct (Byte.eqb d x30) eqn:E0.
    - apply byte_eqb_eq in E0. subst d. cbn [forallb].
      rewrite (validFraction_numchars s1 Hd). split; reflexivity.
    - destruct (between 0x31 0x39 d) eqn:E1; [|discriminate].
      assert (Dd : isDigit d = true).
      { unfold isDigit, between in *. apply andb_true_iff in E1.
        destruct E1 as [E1 E2]. apply N.leb_le in E1. rewrite E2.
        replace (48 <=? code d)%N with true
          by (symmetry; apply N.leb_le; lia). reflexivity. }
      cbn [forallb]. rewrite (isDigit_isNumChar d Dd).
      rewrite (dropDigits_numchars s1 (validFraction_numchars _ Hd)).
      split; [reflexivity | exact Dd]. }
  destruct s as [|c s']; [discriminate|].
  destruct (Byte.eqb c x2d) eqn:Em.
  - apply byte_eqb_eq in Em. subst c.
    destruct s' as [|d s1]; [discriminate|].
    destruct (G d s1 H) as [G1 G2]. split.
    + cbn [forallb] in *. exact G1.
    + exists x2d, (d :: s1). split; reflexivity.
  - destruct (G c s' H) as [G1 G2]. split; [exact G1|].
    exists c, s'. split; [reflexivity|]. rewrite G2. apply orb_true_r.
Qed.

Lemma spanNumber_app (s rest : list byte) :
  forallb isNumChar s = true -> delimited rest = true ->
  spanNumber (s ++ rest) = (s, rest).
Proof.
  intros Hs Hr. induction s as [|c s IH].
  - destruct rest as [|c rest]; [reflexivity|]. cbn [app spanNumber].
    cbn [delimited] in Hr. apply negb_true_iff in Hr. rewrite Hr. reflexivity.
  - cbn [forallb] in Hs. apply andb_true_iff in Hs. destruct Hs as [H1 H2].
    cbn [app spanNumber]. rewrite H1, (IH H2). reflexivity.
Qed.

(** ** Induction on trees *)

Lemma value_ind' (P : value -> Prop) :
  P VNil -> (forall b, P (VBool b)) -> (forall f, P (VFloat f)) ->
  (forall s, P (VString s)) ->
  (forall l, Forall P l -> P (VSlice l)) ->
  (forall l, P (VStrings l)) ->
  (forall m, Forall (fun kv => P (snd kv)) m -> P (VMap m)) ->
  forall v, P v.
Proof.
  intros Hn Hb Hf Hs Hl Hss Hm. fix IH 1. intros v.
  destruct v as [| b | f | s | l | l | m].
  - exact Hn.
  - apply Hb.
  - apply Hf.
  - apply Hs.
  - apply Hl. induction l as [|x l IHl]; constructor; [apply IH | exact IHl].
  - apply Hss.
  - apply Hm. induction m as [|[k x] m IHm]; constructor;
      [apply IH | exact IHm].
Qed.

Lemma json_ind' (P : json -> Prop) :
  P JNull -> (forall b, P (JBool b)) -> (forall s, P (JNumber s)) ->
  (forall s, P (JString s)) ->
  (forall l, Forall P l -> P (JArray l)) ->
  (forall l, Forall (fun kv => P (snd kv)) l -> P (JObject l)) ->
  forall j, P j.
Proof.
  intros Hn Hb Hf Hs Hl Hm. fix IH 1. intros j.
  destruct j as [| b | f | s | l | m].
  - exact Hn.
  - apply Hb.
  - apply Hf.
  - apply Hs.
  - apply Hl. induction l as [|x l IHl]; constructor; [apply IH | exact IHl].
  - apply Hm. induction m as [|[k x] m IHm]; constructor;
      [apply IH | exact IHm].
Qed.

(** ** The scanner on what the encoder writes *)

Lemma opens_skipSpace (p rest : list byte) :
  opens p -> skipSpace (p ++ rest) = p ++ rest.
Proof.
  intros [c [p' [-> [H _]]]]. cbn [app skipSpace]. rewrite H. reflexivity.
Qed.

Lemma FormatFloat_head (f : float64) :
  exists c s', FormatFloat f = c :: s'
               /\ (Byte.eqb c x2d || isDigit c = true).
Proof.
  destruct (isValidNumber_shape _ (FormatFloat_valid f)) as [_ H]. exact H.
Qed.

Lemma number_head (c : byte) :
  Byte.eqb c x2d || isDigit c = true ->
  isSpace c = false /\ Byte.eqb c x5d = false /\ Byte.eqb c x7b = false
  /\ Byte.eqb c x5b = false /\ Byte.eqb c x22 = false
  /\ Byte.eqb c x74 = false /\ Byte.eqb c x66 = false
  /\ Byte.eqb c x6e = false.
Proof.
  intros H. apply orb_true_iff in H. destruct H as [H | H].
  - apply byte_eqb_eq in H. subst c. repeat split; reflexivity.
  - unfold isDigit, between in H. nhyps. unfold isSpace.
    rewrite !byte_eqb_code. code_consts. nsolve. repeat split; reflexivity.
Qed.

Lemma encodeValue_opens (e : bool) (v : value) : opens (encodeValue e v).
Proof.
  unfold opens. destruct v as [| [|] | f | s | l | l | m];
    cbn [encodeValue appendString app];
    try (eexists _, _; split; [reflexivity | split; reflexivity]).
  destruct (FormatFloat_head f) as [c [s' [E H]]]. rewrite E.
  exists c, s'. split; [reflexivity|].
  destruct (number_head c H) as [H1 [H2 _]]. auto.
Qed.

Lemma appendString_opens (e : bool) (s : list byte) :
  opens (appendString e s).
Proof.
  unfold opens, appendString. cbn [app].
  eexists _, _; split; [reflexivity | split; reflexivity].
Qed.

Lemma byte_eqb_sym (a b : byte) : Byte.eqb a b = Byte.eqb b a.
Proof. rewrite !byte_eqb_code. apply N.eqb_sym. Qed.

Lemma size_pos (v : value) : (1 <= size v)%nat.
Proof. destruct v; cbn [size]; lia. Qed.

Lemma parseValue_null (fuel : nat) (depth : N) (rest : list byte) :
  parseValue (S fuel) depth (lit "null" ++ rest) = Some (JNull, rest).
Proof. reflexivity. Qed.

Lemma parseValue_bool (b : bool) (fuel : nat) (depth : N)
  (rest : list byte) :
  parseValue (S fuel) depth ((if b then lit "true" else lit "false") ++ rest)
  = Some (JBool b, rest).
Proof. destruct b; reflexivity. Qed.

Lemma parseValue_number (f : float64) (fuel : nat) (depth : N)
  (rest : list byte) :
  delimited rest = true ->
  parseValue (S fuel) depth (FormatFloat f ++ rest)
  = Some (JNumber (FormatFloat f), rest).
Proof.
  intros Hr.
  pose proof (FormatFloat_valid f) as Hv.
  destruct (isValidNumber_shape _ Hv) as [Hn [c [s' [E Hc]]]].
  pose proof (spanNumber_app _ rest Hn Hr) as Hspan.
  revert Hspan. rewrite E. cbn [app]. intros Hspan.
  destruct (number_head c Hc) as [_ [_ [H1 [H2 [H3 [H4 [H5 H6]]]]]]].
  cbn [parseValue]. rewrite H1, H2, H3.
  change (lit "true") with [x74; x72; x75; x65].
  change (lit "false") with [x66; x61; x6c; x73; x65].
  change (lit "null") with [x6e; x75; x6c; x6c].
  cbn [HasPrefix].
  rewrite (byte_eqb_sym x74 c), (byte_eqb_sym x66 c), (byte_eqb_sym x6e c).
  rewrite H4, H5, H6.
  cbn [andb]. rewrite Hc, Hspan, <- E, Hv. reflexivity.
Qed.

Lemma parseValue_string (s : list byte) (fuel : nat) (depth : N)
  (rest : list byte) :
  ValidUTF8 s ->
  parseValue (S fuel) depth (appendString false s ++ rest)
  = Some (JString s, rest).
Proof.
  intros Hs. destruct (unquote_appendString s rest Hs) as [p [E U]].
  rewrite E. cbn [parseValue].
  change (Byte.eqb x22 x7b) with false. change (Byte.eqb x22 x5b) with false.
  change (Byte.eqb x22 x22) with true. cbv beta iota. rewrite U. reflexivity.
Qed.

Lemma joinComma_cons (x : list byte) (y : list byte) (l : list (list byte)) :
  joinComma (x :: y :: l) = x ++ [x2c] ++ joinComma (y :: l).
Proof. reflexivity. Qed.

Lemma joinComma_opens (x : list byte) (l : list (list byte)) :
  opens x -> opens (joinComma (x :: l)).
Proof.
  intros [c [p [-> H]]]. destruct l as [|y l].
  - exists c, p. auto.
  - rewrite joinComma_cons. cbn [app]. eexists c, _. split; [reflexivity|].
    exact H.
Qed.

Lemma parseElements_encode (l : list value) :
  Forall parses l -> l <> [] ->
  forall fuel depth rest,
    (fold_right (fun x n => S (size x + n)) 0 l <= fuel)%nat ->
    (depth + fold_right (fun x n => N.max (nesting x) n) 0 l
     <= maxNestingDepth)%N ->
    parseElements fuel depth
      (joinComma (map (encodeValue false) l) ++ x5d :: rest)
    = Some (map toJson l, rest).
Proof.
  induction 1 as [|x l Hx Hl IH]; [congruence|].
  intros _ fuel depth rest Hf Hd.
  cbn [fold_right] in Hf, Hd. destruct fuel as [|fuel]; [lia|].
  destruct l as [|y l].
  - cbn [map joinComma parseElements].
    rewrite (Hx fuel depth (x5d :: rest))
      by (reflexivity || (cbn in Hf; lia) || lia).
    reflexivity.
  - change (map (encodeValue false) (x :: y :: l))
      with (encodeValue false x :: map (encodeValue false) (y :: l)).
    change (map toJson (x :: y :: l)) with (toJson x :: map toJson (y :: l)).
    change (map (encodeValue false) (y :: l))
      with (encodeValue false y :: map (encodeValue false) l) at 1.
    rewrite joinComma_cons.
    change (encodeValue false y :: map (encodeValue false) l)
      with (map (encodeValue false) (y :: l)).
    rewrite <- !app_assoc. cbn [parseElements].
    rewrite (Hx fuel depth) by (reflexivity || lia).
    cbn [app skipSpace]. change (isSpace x2c) with false. cbv beta iota.
    change (Byte.eqb x2c x5d) with false.
    change (Byte.eqb x2c x2c) with true. cbv beta iota.
    rewrite opens_skipSpace
      by (apply joinComma_opens, encodeValue_opens).
    rewrite (IH ltac:(discriminate) fuel depth rest) by lia. reflexivity.
Qed.

Lemma parseValue_array (l : list value) :
  Forall parses l ->
  forall fuel depth rest,
    (S (fold_right (fun x n => S (size x + n)) 0 l) <= fuel)%nat ->
    (depth + (1 + fold_right (fun x n => N.max (nesting x) n) 0 l)
     <= maxNestingDepth)%N ->
    parseValue fuel depth
      (([x5b] ++ joinComma (map (encodeValue false) l) ++ [x5d]) ++ rest)
    = Some (JArray (map toJson l), rest).
Proof.
  intros Hl fuel depth rest Hf Hd. destruct fuel as [|fuel]; [lia|].
  cbn [app]. rewrite <- app_assoc. cbn [app parseValue].
  change (Byte.eqb x5b x7b) with false. change (Byte.eqb x5b x5b) with true.
  cbv beta iota.
  destruct (N.ltb_spec maxNestingDepth (depth + 1)) as [Hlt | _]; [lia|].
  destruct l as [|x l]; [reflexivity|].
  pose proof (joinComma_opens (encodeValue false x)
                (map (encodeValue false) l) (encodeValue_opens false x)) as Ho.
  change (encodeValue false x :: map (encodeValue false) l)
    with (map (encodeValue false) (x :: l)) in Ho.
  rewrite opens_skipSpace by exact Ho.
  pose proof (parseElements_encode (x :: l) Hl ltac:(discriminate) fuel
                (depth + 1)%N rest ltac:(lia) ltac:(lia)) as Hp.
  destruct Ho as [c [p [E [_ Hc]]]]. revert Hp. rewrite E. cbn [app].
  intros Hp. rewrite Hc, Hp. reflexivity.
Qed.

Lemma opens_app (a b : list byte) : opens a -> opens (a ++ b).
Proof.
  intros [c [p [-> H]]]. exists c, (p ++ b). split; [reflexivity | exact H].
Qed.

Lemma parseMembers_encode (m : list (list byte * value)) :
  Forall (fun kv => ValidUTF8 (fst kv) /\ parses (snd kv)) m -> m <> [] ->
  forall fuel depth rest,
    (fold_right (fun kv n => S (size (snd kv) + n)) 0 m <= fuel)%nat ->
    (depth + fold_right (fun kv n => N.max (nesting (snd kv)) n) 0 m
     <= maxNestingDepth)%N ->
    parseMembers fuel depth
      (joinComma
         (map (fun kv => appendString false (fst kv) ++ [x3a]
                         ++ encodeValue false (snd kv)) m)
       ++ x7d :: rest)
    = Some (map (fun kv => (fst kv, toJson (snd kv))) m, rest).
Proof.
  induction 1 as [|[k v] m [Hk Hv] Hm IH]; [congruence|].
  intros _ fuel depth rest Hf Hd.
  cbn [fold_right snd] in Hf, Hd. destruct fuel as [|fuel]; [lia|].
  cbn [fst snd] in *.
  assert (Step : forall T,
    delimited T = true ->
    parseMembers (S fuel) depth
      ((appendString false k ++ [x3a] ++ encodeValue false v) ++ T)
    = match skipSpace T with
      | [] => None
      | sep :: p5 =>
          if Byte.eqb sep x7d then Some ([(k, toJson v)], p5)
          else if Byte.eqb sep x2c then
            match parseMembers fuel depth (skipSpace p5) with
            | Some (ms, p6) => Some ((k, toJson v) :: ms, p6)
            | None => None
            end
          else None
      end).
  { intros T HT. rewrite <- !app_assoc.
    destruct (unquote_appendString k
                ([x3a] ++ encodeValue false v ++ T) Hk) as [q [E U]].
    rewrite E. cbn [parseMembers].
    change (Byte.eqb x22 x22) with true. cbv beta iota. rewrite U.
    cbn [app skipSpace]. change (isSpace x3a) with false. cbv beta iota.
    change (Byte.eqb x3a x3a) with true. cbv beta iota.
    rewrite opens_skipSpace by apply encodeValue_opens.
    rewrite (Hv fuel depth T) by (lia || exact HT). reflexivity. }
  destruct m as [|[k' v'] m].
  - cbn [map joinComma fst snd]. rewrite Step by reflexivity. reflexivity.
  - set (enc := fun kv : list byte * value =>
                  appendString false (fst kv) ++ [x3a]
                  ++ encodeValue false (snd kv)) in *.
    change (map enc ((k, v) :: (k', v') :: m))
      with (enc (k, v) :: enc (k', v') :: map enc m).
    rewrite joinComma_cons.
    change (enc (k', v') :: map enc m) with (map enc ((k', v') :: m)).
    change (enc (k, v))
      with (appendString false k ++ [x3a] ++ encodeValue false v).
    rewrite <- (app_assoc _ _ (x7d :: rest)). rewrite Step by reflexivity.
    rewrite <- app_assoc.
    cbn [app skipSpace]. change (isSpace x2c) with false. cbv beta iota.
    change (Byte.eqb x2c x7d) with false.
    change (Byte.eqb x2c x2c) with true. cbv beta iota.
    rewrite opens_skipSpace
      by (apply (joinComma_opens (enc (k', v'))); unfold enc; cbn [fst];
          apply opens_app, appendString_opens).
    rewrite (IH ltac:(discriminate) fuel depth rest) by lia. reflexivity.
Qed.

Lemma parseValue_object (m : list (list byte * value)) :
  Forall (fun kv => ValidUTF8 (fst kv) /\ parses (snd kv)) m ->
  forall fuel depth rest,
    (S (fold_right (fun kv n => S (size (snd kv) + n)) 0 m) <= fuel)%nat ->
    (depth + (1 + fold_right (fun kv n => N.max (nesting (snd kv)) n) 0 m)
     <= maxNestingDepth)%N ->
    parseValue fuel depth
      (([x7b]
        ++ joinComma
             (map (fun kv => appendString false (fst kv) ++ [x3a]
                             ++ encodeValue false (snd kv)) m)
        ++ [x7d]) ++ rest)
    = Some (JObject (map (fun kv => (fst kv, toJson (snd kv))) m), rest).
Proof.
  intros Hm fuel depth rest Hf Hd. destruct fuel as [|fuel]; [lia|].
  assert (Hshape : forall J : list byte,
             ([x7b] ++ J ++ [x7d]) ++ rest = x7b :: (J ++ x7d :: rest))
    by (intros J; cbn [app]; rewrite <- app_assoc; reflexivity).
  rewrite Hshape. clear Hshape. cbn [parseValue].
  change (Byte.eqb x7b x7b) with true. cbv beta iota.
  destruct (N.ltb_spec maxNestingDepth (depth + 1)) as [Hlt | _]; [lia|].
  destruct m as [|[k v] m]; [reflexivity|].
  pose proof (parseMembers_encode ((k, v) :: m) Hm ltac:(discriminate)
                fuel (depth + 1)%N rest ltac:(lia) ltac:(lia)) as Hp.
  set (enc := fun kv : list byte * value =>
                appendString false (fst kv) ++ [x3a]
                ++ encodeValue false (snd kv)) in *.
  assert (Ho : exists p, joinComma (map enc ((k, v) :: m)) = x22 :: p).
  { change (map enc ((k, v) :: m)) with (enc (k, v) :: map enc m).
    destruct (map enc m) as [|y l]; unfold enc, appendString; cbn [fst app];
      eexists; reflexivity. }
  destruct Ho as [p E]. revert Hp. rewrite E. cbn [app skipSpace].
  change (isSpace x22) with false. cbv beta iota.
  change (Byte.eqb x22 x7d) with false. cbv beta iota.
  intros Hp. rewrite Hp. reflexivity.
Qed.

Lemma forallb_Forall {A} (f : A -> bool) (l : list A) :
  forallb f l = true <-> Forall (fun x => f x = true) l.
Proof.
  rewrite forallb_forall, Forall_forall. reflexivity.
Qed.

Lemma size_strings (l : list (list byte)) :
  fold_right (fun (x : value) n => S (size x + n)) 0%nat (map VString l)
  = (2 * List.length l)%nat.
Proof. induction l as [|s l IH]; cbn in *; lia. Qed.

Lemma nesting_strings (l : list (list byte)) :
  fold_right (fun (x : value) n => N.max (nesting x) n) 0%N (map VString l)
  = 0%N.
Proof.
  induction l as [|s l IH]; [reflexivity|].
  cbn [map fold_right nesting]. rewrite IH. reflexivity.
Qed.

Lemma nesting_In (l : list value) (x : value) :
  In x l ->
  (nesting x <= fold_right (fun x n => N.max (nesting x) n) 0 l)%N.
Proof.
  induction l as [|y l IH]; [intros []|]. cbn [fold_right].
  intros [-> | H]; [lia|]. specialize (IH H). lia.
Qed.

Lemma nesting_In_map (m : list (list byte * value))
  (kv : list byte * value) :
  In kv m ->
  (nesting (snd kv)
   <= fold_right (fun kv n => N.max (nesting (snd kv)) n) 0 m)%N.
Proof.
  induction m as [|y m IH]; [intros []|]. cbn [fold_right].
  intros [-> | H]; [lia|]. specialize (IH H). lia.
Qed.

(** The scanner reads back the encoding of every well-formed value. *)
Lemma parses_wf (v : value) : wfValue v = true -> parses v.
Proof.
  induction v as [| b | f | s | l IH | l | m IH] using value_ind';
    intros Hw; unfold parses; intros fuel depth rest Hf Hd Hr.
  - destruct fuel; [cbn in Hf; lia|]. apply parseValue_null.
  - destruct fuel; [cbn in Hf; lia|]. destruct b; reflexivity.
  - destruct fuel; [cbn in Hf; lia|]. apply parseValue_number, Hr.
  - destruct fuel; [cbn in Hf; lia|]. apply parseValue_string.
    apply utf8Valid_iff, Hw.
  - cbn [wfValue] in Hw. apply forallb_Forall in Hw.
    cbn [encodeValue toJson].
    apply parseValue_array; [|exact Hf|exact Hd].
    rewrite Forall_forall in *. intros x Hx. apply IH; auto.
  - cbn [wfValue] in Hw. apply forallb_Forall in Hw.
    cbn [encodeValue toJson].
    replace (map (appendString false) l)
      with (map (encodeValue false) (map VString l))
      by (rewrite map_map; reflexivity).
    replace (map JString l) with (map toJson (map VString l))
      by (rewrite map_map; reflexivity).
    apply parseValue_array.
    + rewrite Forall_forall in *. intros x Hx.
      apply in_map_iff in Hx. destruct Hx as [s [<- Hs]].
      intros fuel' depth' rest' Hf' Hd' Hr'.
      destruct fuel'; [cbn in Hf'; lia|].
      apply parseValue_string, utf8Valid_iff, Hw, Hs.
    + rewrite size_strings. exact Hf.
    + rewrite nesting_strings. exact Hd.
  - cbn [wfValue] in Hw. apply andb_true_iff in Hw. destruct Hw as [_ Hw].
    apply forallb_Forall in Hw.
    cbn [encodeValue toJson].
    apply parseValue_object; [|exact Hf|exact Hd].
    rewrite Forall_forall in *. intros kv Hkv.
    specialize (Hw kv Hkv). apply andb_true_iff in Hw. destruct Hw as [H1 H2].
    split; [apply utf8Valid_iff, H1 | apply IH; auto].
Qed.

(** ** The length of an encoding bounds the fuel the scanner needs *)

Lemma joinComma_length (l : list (list byte)) :
  l <> [] ->
  (List.length (joinComma l) + 1
   = fold_right (fun x n => S (List.length x + n)) 0 l)%nat.
Proof.
  induction l as [|x l IH]; [congruence|]. intros _.
  destruct l as [|y l].
  - cbn. lia.
  - rewrite joinComma_cons, !length_app.
    specialize (IH ltac:(discriminate)). cbn [fold_right List.length] in *.
    lia.
Qed.

Lemma joinComma_length_ge (l : list (list byte)) :
  (fold_right (fun x n => S (List.length x + n)) 0 l
   <= List.length (joinComma l) + 1)%nat.
Proof.
  destruct l as [|x l]; [cbn; lia|].
  rewrite joinComma_length by discriminate. lia.
Qed.

Lemma FormatFloat_nonempty (f : float64) :
  (1 <= List.length (FormatFloat f))%nat.
Proof.
  destruct (FormatFloat_head f) as [c [s' [E _]]]. rewrite E. cbn. lia.
Qed.

Lemma appendString_length (e : bool) (s : list byte) :
  (2 <= List.length (appendString e s))%nat.
Proof. unfold appendString. rewrite !length_app. cbn. lia. Qed.

Lemma size_le_length (e : bool) (v : value) :
  (size v <= List.length (encodeValue e v))%nat.
Proof.
  induction v as [| b | f | s | l IH | l | m IH] using value_ind';
    cbn [size encodeValue].
  - cbn. lia.
  - destruct b; cbn; lia.
  - apply FormatFloat_nonempty.
  - pose proof (appendString_length e s). lia.
  - rewrite !length_app. cbn [List.length].
    pose proof (joinComma_length_ge (map (encodeValue e) l)) as H.
    enough (fold_right (fun x n => S (size x + n)) 0 l
            <= fold_right (fun x n => S (List.length x + n)) 0
                 (map (encodeValue e) l))%nat by lia.
    clear H. induction IH as [|x l Hx Hl IHl]; cbn [fold_right map]; lia.
  - rewrite !length_app. cbn [List.length].
    pose proof (joinComma_length_ge (map (appendString e) l)) as H.
    enough (2 * List.length l
            <= fold_right (fun x n => S (List.length x + n)) 0
                 (map (appendString e) l))%nat by lia.
    clear H. induction l as [|x l IHl]; cbn [fold_right map List.length];
      [lia|]. pose proof (appendString_length e x). lia.
  - rewrite !length_app. cbn [List.length].
    set (enc := fun kv : list byte * value =>
                  appendString e (fst kv) ++ [x3a]
                  ++ encodeValue e (snd kv)).
    pose proof (joinComma_length_ge (map enc m)) as H.
    enough (fold_right (fun kv n => S (size (snd kv) + n)) 0 m
            <= fold_right (fun x n => S (List.length x + n)) 0
                 (map enc m))%nat by lia.
    clear H. induction IH as [|kv m Hx Hl IHl]; cbn [fold_right map]; [lia|].
    unfold enc at 1. rewrite !length_app. lia.
Qed.

(** The whole output of the encoder scans as the syntax of the value. *)
Lemma scan_encodeValue (v : value) :
  wfValue v = true -> (nesting v <= maxNestingDepth)%N ->
  scan (encodeValue false v ++ [x0a]) = Some (toJson v).
Proof.
  intros Hw Hd. unfold scan.
  rewrite opens_skipSpace by apply encodeValue_opens.
  rewrite (parses_wf v Hw) by
    (reflexivity
     || (pose proof (size_le_length false v); rewrite length_app; lia)
     || lia).
  reflexivity.
Qed.

(** ** Maps *)

Lemma bytes_eqb_compare (a b : list byte) :
  bytes_eqb a b = match compareBytes a b with Eq => true | _ => false end.
Proof.
  destruct (compareBytes a b) eqn:E.
  - apply compareBytes_eq in E. subst. apply bytes_eqb_refl.
  - apply bytes_eqb_neq. intros ->. rewrite compareBytes_refl in E.
    discriminate.
  - apply bytes_eqb_neq. intros ->. rewrite compareBytes_refl in E.
    discriminate.
Qed.

Lemma compareBytes_gt_lt (a b : list byte) :
  compareBytes a b = Gt -> compareBytes b a = Lt.
Proof. intros H. rewrite compareBytes_antisym, H. reflexivity. Qed.

Lemma keyLt_trans {V} (a b c : list byte * V) :
  keyLt a b -> keyLt b c -> keyLt a c.
Proof. unfold keyLt. apply compareBytes_trans. Qed.

Lemma sortedKeys_Sorted {V} (m : list (list byte * V)) :
  sortedKeys m = true <-> Sorted keyLt m.
Proof.
  induction m as [|[k1 v1] m IH]; [split; [constructor | reflexivity]|].
  cbn [sortedKeys]. destruct m as [|[k2 v2] m'].
  - split; [repeat constructor | reflexivity].
  - destruct (compareBytes k1 k2) eqn:E.
    + split; [discriminate|]. intros H. inversion H as [|? ? _ Hd]; subst.
      inversion Hd as [|? ? Hlt]; subst. unfold keyLt in Hlt. cbn in Hlt.
      congruence.
    + rewrite IH. split.
      * intros H. constructor; [exact H|]. constructor. exact E.
      * intros H. inversion H; assumption.
    + split; [discriminate|]. intros H. inversion H as [|? ? _ Hd]; subst.
      inversion Hd as [|? ? Hlt]; subst. unfold keyLt in Hlt. cbn in Hlt.
      congruence.
Qed.

Lemma sortedKeys_strong {V} (m : list (list byte * V)) :
  sortedKeys m = true <-> StronglySorted keyLt m.
Proof.
  rewrite sortedKeys_Sorted. split.
  - apply Sorted_StronglySorted. intros a b c. apply keyLt_trans.
  - apply StronglySorted_Sorted.
Qed.

Lemma lookup_assign_eq {V} (k : list byte) (v : V) (m : list (list byte * V)) :
  lookup k (assign k v m) = Some v.
Proof.
  induction m as [|[k' v'] m IH]; cbn [assign lookup].
  - rewrite bytes_eqb_refl. reflexivity.
  - destruct (compareBytes k k') eqn:E; cbn [lookup].
    + rewrite bytes_eqb_refl. reflexivity.
    + rewrite bytes_eqb_refl. reflexivity.
    + rewrite bytes_eqb_compare, E. exact IH.
Qed.

Lemma lookup_assign_neq {V} (k k0 : list byte) (v : V)
  (m : list (list byte * V)) :
  k0 <> k -> lookup k0 (assign k v m) = lookup k0 m.
Proof.
  intros Hne. apply bytes_eqb_neq in Hne.
  induction m as [|[k' v'] m IH]; cbn [assign lookup].
  - rewrite Hne. reflexivity.
  - destruct (compareBytes k k') eqn:E; cbn [lookup].
    + apply compareBytes_eq in E. subst k'. rewrite Hne. reflexivity.
    + rewrite Hne. reflexivity.
    + rewrite IH. reflexivity.
Qed.

Lemma assign_in {V} (k : list byte) (v : V) (m : list (list byte * V))
  (kv : list byte * V) :
  In kv (assign k v m) -> kv = (k, v) \/ In kv m.
Proof.
  induction m as [|[k' v'] m IH]; cbn [assign].
  - intros [H | []]. auto.
  - destruct (compareBytes k k'); cbn [In]; intros H.
    + destruct H as [H | H]; auto.
    + destruct H as [H | [H | H]]; auto.
    + destruct H as [H | H]; auto. destruct (IH H); auto.
Qed.

Lemma assign_sorted {V} (k : list byte) (v : V) (m : list (list byte * V)) :
  StronglySorted keyLt m -> StronglySorted keyLt (assign k v m).
Proof.
  induction 1 as [|[k' v'] m Hm IH Hall]; cbn [assign].
  - repeat constructor.
  - destruct (compareBytes k k') eqn:E.
    + apply compareBytes_eq in E. subst k'. constructor; assumption.
    + constructor; [constructor; assumption|]. constructor; [exact E|].
      rewrite Forall_forall in *. intros x Hx.
      apply (keyLt_trans (k, v) (k', v') x); [exact E | auto].
    + constructor; [exact IH|]. rewrite Forall_forall in *. intros x Hx.
      destruct (assign_in _ _ _ _ Hx) as [-> | Hin]; [|auto].
      apply compareBytes_gt_lt, E.
Qed.

Lemma lookup_sorted_head {V} (k : list byte) (m : list (list byte * V))
  (a : list byte * V) :
  Forall (keyLt a) m -> compareBytes k (fst a) <> Gt -> lookup k m = None.
Proof.
  intros Hall Hk. induction Hall as [|[k' v'] m Hlt Hm IH]; [reflexivity|].
  cbn [lookup]. rewrite bytes_eqb_compare.
  destruct (compareBytes k k') eqn:E; [|exact IH|exact IH].
  apply compareBytes_eq in E. subst k'. unfold keyLt in Hlt. cbn [fst] in Hlt.
  exfalso. apply Hk. rewrite compareBytes_antisym, Hlt. reflexivity.
Qed.

(** Storing what a key already holds changes nothing. *)
Lemma assign_same {V} (k : list byte) (v : V) (m : list (list byte * V)) :
  StronglySorted keyLt m -> lookup k m = Some v -> assign k v m = m.
Proof.
  induction 1 as [|[k' v'] m Hm IH Hall]; cbn [assign lookup];
    [discriminate|].
  rewrite bytes_eqb_compare. destruct (compareBytes k k') eqn:E.
  - apply compareBytes_eq in E. subst k'. intros H. inversion H. reflexivity.
  - intros H. rewrite (lookup_sorted_head k m (k', v') Hall) in H;
      [discriminate|]. cbn [fst]. rewrite E. discriminate.
  - intros H. rewrite (IH H). reflexivity.
Qed.

Lemma assign_last {V} (k : list byte) (v : V) (acc : list (list byte * V)) :
  Forall (fun a => keyLt a (k, v)) acc -> assign k v acc = acc ++ [(k, v)].
Proof.
  induction 1 as [|[k' v'] acc Hlt Hacc IH]; [reflexivity|].
  cbn [assign app]. unfold keyLt in Hlt. cbn [fst] in Hlt.
  rewrite compareBytes_antisym, Hlt. cbn [CompOpp]. rewrite IH. reflexivity.
Qed.

Lemma fold_assign_sorted {V} (m acc : list (list byte * V)) :
  StronglySorted keyLt (acc ++ m) ->
  fold_left (fun a kv => assign (fst kv) (snd kv) a) m acc = acc ++ m.
Proof.
  revert acc. induction m as [|[k v] m IH]; intros acc Hs.
  - cbn. rewrite app_nil_r. reflexivity.
  - cbn [fold_left fst snd]. rewrite assign_last.
    + rewrite IH; rewrite <- app_assoc; [reflexivity | exact Hs].
    + clear IH. induction acc as [|a acc IHacc]; [constructor|].
      cbn [app] in Hs. inversion Hs as [|? ? Hs' Hall]; subst.
      constructor; [|apply IHacc, Hs'].
      rewrite Forall_forall in Hall. apply Hall.
      apply in_or_app. right. left. reflexivity.
Qed.

Lemma sortedKeys_map {V W} (f : V -> W) (m : list (list byte * V)) :
  sortedKeys (map (fun kv => (fst kv, f (snd kv))) m) = sortedKeys m.
Proof.
  induction m as [|[k1 v1] m IH]; [reflexivity|].
  cbn [map sortedKeys fst snd] in *. destruct m as [|[k2 v2] m']; [reflexivity|].
  cbn [map fst snd] in *. destruct (compareBytes k1 k2); [reflexivity|exact IH|reflexivity].
Qed.

Lemma lookup_map {V W} (f : V -> W) (k : list byte)
  (m : list (list byte * V)) :
  lookup k (map (fun kv => (fst kv, f (snd kv))) m)
  = match lookup k m with Some v => Some (f v) | None => None end.
Proof.
  induction m as [|[k' v'] m IH]; [reflexivity|].
  cbn [map lookup fst snd]. destruct (bytes_eqb k k'); [reflexivity | exact IH].
Qed.

(** ** Decoding what the encoder wrote *)

Lemma savedError_toJson (v : value) : savedError (toJson v) = false.
Proof.
  induction v as [| b | f | s | l IH | l | m IH] using value_ind';
    cbn [toJson savedError]; try reflexivity.
  - rewrite ParseFloat_FormatFloat. reflexivity.
  - induction IH as [|x l Hx Hl IHl]; [reflexivity|].
    cbn [map existsb]. rewrite Hx, IHl. reflexivity.
  - induction l as [|x l IHl]; [reflexivity|]. exact IHl.
  - induction IH as [|kv m Hx Hl IHl]; [reflexivity|].
    cbn [map existsb snd]. rewrite Hx, IHl. reflexivity.
Qed.

Lemma valueInterface_toJson (v : value) :
  wfValue v = true -> valueInterface (toJson v) = norm v.
Proof.
  induction v as [| b | f | s | l IH | l | m IH] using value_ind';
    intros Hw; cbn [toJson valueInterface norm]; try reflexivity.
  - rewrite ParseFloat_FormatFloat. reflexivity.
  - cbn [wfValue] in Hw. apply forallb_Forall in Hw. f_equal.
    rewrite map_map. apply map_ext_in. intros x Hx.
    rewrite Forall_forall in *. apply IH; auto.
  - f_equal. rewrite map_map. reflexivity.
  - cbn [wfValue] in Hw. apply andb_true_iff in Hw. destruct Hw as [Hs Hw].
    apply forallb_Forall in Hw. f_equal. rewrite map_map. cbn [fst snd].
    replace (map (fun x => (fst x, valueInterface (toJson (snd x)))) m)
      with (map (fun kv => (fst kv, norm (snd kv))) m).
    + apply (fold_assign_sorted _ []). cbn [app].
      apply sortedKeys_strong. rewrite sortedKeys_map. exact Hs.
    + apply map_ext_in. intros kv Hkv. rewrite Forall_forall in *.
      rewrite IH; [reflexivity | exact Hkv|].
      specialize (Hw kv Hkv). apply andb_true_iff in Hw. tauto.
Qed.

Lemma objectInterface_fold (l : list (list byte * json))
  (m : list (list byte * value)) :
  objectInterface l m
  = fold_left (fun a kv => assign (fst kv) (snd kv) a)
      (map (fun kv => (fst kv, valueInterface (snd kv))) l) m.
Proof.
  unfold objectInterface. revert m.
  induction l as [|kv l IH]; intros m; [reflexivity|].
  cbn [fold_left map fst snd]. apply IH.
Qed.

Lemma existsb_savedError_toJson (m : list (list byte * value)) :
  existsb (fun kv => savedError (snd kv))
    (map (fun kv => (fst kv, toJson (snd kv))) m) = false.
Proof.
  induction m as [|kv m IH]; [reflexivity|].
  cbn [map existsb snd]. rewrite savedError_toJson, IH. reflexivity.
Qed.

(** The envelope the encoder wrote decodes without error into the same
    envelope, a [[]string] read back as a slice of strings. *)
Lemma UnmarshalMap_encode (root : list (list byte * value)) :
  wfValue (VMap root) = true ->
  (nesting (VMap root) <= maxNestingDepth)%N ->
  UnmarshalMap (encodeValue false (VMap root) ++ [x0a]) []
  = (map (fun kv => (fst kv, norm (snd kv))) root, None).
Proof.
  intros Hw Hd. unfold UnmarshalMap. rewrite (scan_encodeValue _ Hw Hd).
  cbn [toJson]. rewrite existsb_savedError_toJson. f_equal.
  pose proof (valueInterface_toJson (VMap root) Hw) as H.
  cbn [toJson valueInterface norm] in H. injection H as H'.
  rewrite objectInterface_fold. exact H'.
Qed.

Lemma Valid_encode (root : list (list byte * value)) :
  wfValue (VMap root) = true ->
  (nesting (VMap root) <= maxNestingDepth)%N ->
  Valid (encodeValue false (VMap root) ++ [x0a]) = true.
Proof.
  intros Hw Hd. unfold Valid. rewrite (scan_encodeValue _ Hw Hd).
  reflexivity.
Qed.

(** [norm] keeps the encoding. *)
Lemma encodeValue_norm (e : bool) (v : value) :
  encodeValue e (norm v) = encodeValue e v.
Proof.
  induction v as [| b | f | s | l IH | l | m IH] using value_ind';
    cbn [norm encodeValue]; try reflexivity.
  - do 3 f_equal. rewrite map_map. apply map_ext_in. intros x Hx.
    rewrite Forall_forall in IH. apply IH, Hx.
  - do 3 f_equal. rewrite map_map. reflexivity.
  - do 3 f_equal. rewrite map_map. apply map_ext_in. intros kv Hkv.
    rewrite Forall_forall in IH. cbn [fst snd]. rewrite (IH kv Hkv).
    reflexivity.
Qed.

Lemma norm_idem (v : value) : norm (norm v) = norm v.
Proof.
  induction v as [| b | f | s | l IH | l | m IH] using value_ind';
    cbn [norm]; try reflexivity.
  - f_equal. rewrite map_map. apply map_ext_in. intros x Hx.
    rewrite Forall_forall in IH. apply IH, Hx.
  - f_equal. rewrite map_map. reflexivity.
  - f_equal. rewrite map_map. apply map_ext_in. intros kv Hkv.
    rewrite Forall_forall in IH. cbn [fst snd]. rewrite (IH kv Hkv).
    reflexivity.
Qed.

Lemma wfValue_norm (v : value) : wfValue v = true -> wfValue (norm v) = true.
Proof.
  induction v as [| b | f | s | l IH | l | m IH] using value_ind';
    cbn [norm wfValue]; try (intros; assumption).
  - rewrite !forallb_Forall. intros Hw. rewrite Forall_forall in *.
    intros y Hy. apply in_map_iff in Hy. destruct Hy as [x [<- Hx]]. auto.
  - rewrite !forallb_Forall. intros Hw. rewrite Forall_forall in *.
    intros y Hy. apply in_map_iff in Hy. destruct Hy as [x [<- Hx]].
    cbn [wfValue]. auto.
  - rewrite sortedKeys_map. intros Hw. apply andb_true_iff in Hw.
    destruct Hw as [Hs Hw]. rewrite Hs. cbn [andb].
    rewrite forallb_Forall in *. rewrite Forall_forall in *.
    intros y Hy. apply in_map_iff in Hy. destruct Hy as [kv [<- Hkv]].
    cbn [fst snd]. specialize (Hw kv Hkv). apply andb_true_iff in Hw.
    destruct Hw as [H1 H2]. rewrite H1. cbn [andb]. auto.
Qed.

(** ** What the decoder stores is well formed *)

Ltac parse_cases H :=
  repeat match type of H with
         | match ?x with _ => _ end = Some _ =>
             let E := fresh "E" in destruct x eqn:E; try discriminate H
         | (let '(_, _) := ?x in _) = Some _ =>
             let E := fresh "E" in destruct x eqn:E
         end.

Lemma parse_wf (fuel : nat) :
  (forall depth p j rest,
      parseValue fuel depth p = Some (j, rest) -> wfJson j = true)
  /\ (forall depth p ms rest,
         parseMembers fuel depth p = Some (ms, rest) ->
         forallb (fun kv => utf8Valid (fst kv) && wfJson (snd kv)) ms = true)
  /\ (forall depth p es rest,
         parseElements fuel depth p = Some (es, rest) ->
         forallb wfJson es = true).
Proof.
  induction fuel as [|fuel [IHv [IHm IHe]]];
    [repeat split; intros; discriminate|].
  split; [|split].
  - intros depth p j rest H. cbn [parseValue] in H. parse_cases H;
      inversion H; subst; cbn [wfJson forallb]; try reflexivity.
    + eapply IHm. eassumption.
    + eapply IHe. eassumption.
    + apply utf8Valid_iff. eapply unquote_valid. eassumption.
  - intros depth p ms rest H. cbn [parseMembers] in H. parse_cases H;
      inversion H; subst; cbn [forallb fst snd];
      repeat (apply andb_true_iff; split); try reflexivity;
      try (apply utf8Valid_iff; eapply unquote_valid; eassumption);
      try (eapply IHv; eassumption); try (eapply IHm; eassumption).
  - intros depth p es rest H. cbn [parseElements] in H. parse_cases H;
      inversion H; subst; cbn [forallb];
      repeat (apply andb_true_iff; split); try reflexivity;
      try (eapply IHv; eassumption); try (eapply IHe; eassumption).
Qed.

Lemma scan_wf (data : list byte) (j : json) :
  scan data = Some j -> wfJson j = true.
Proof.
  unfold scan. intros H. parse_cases H. inversion H; subst.
  eapply (proj1 (parse_wf _)). eassumption.
Qed.

(** What the scanner accepts is nested within the limit. *)
Lemma parse_nesting (fuel : nat) :
  (forall depth p j rest,
      (depth <= maxNestingDepth)%N ->
      parseValue fuel depth p = Some (j, rest) ->
      (depth + nestingJson j <= maxNestingDepth)%N)
  /\ (forall depth p ms rest,
         (depth <= maxNestingDepth)%N ->
         parseMembers fuel depth p = Some (ms, rest) ->
         (depth + fold_right (fun kv n => N.max (nestingJson (snd kv)) n)
                    0 ms <= maxNestingDepth)%N)
  /\ (forall depth p es rest,
         (depth <= maxNestingDepth)%N ->
         parseElements fuel depth p = Some (es, rest) ->
         (depth + fold_right (fun x n => N.max (nestingJson x) n) 0 es
          <= maxNestingDepth)%N).
Proof.
  induction fuel as [|fuel [IHv [IHm IHe]]];
    [repeat split; intros; discriminate|].
  split; [|split].
  - intros depth p j rest Hd H. cbn [parseValue] in H.
    destruct p as [|c p1]; [discriminate|].
    destruct (Byte.eqb c x7b).
    { destruct (N.ltb_spec maxNestingDepth (depth + 1)) as [|Hle];
        [discriminate|].
      destruct (skipSpace p1) as [|c2 p2]; [discriminate|].
      destruct (Byte.eqb c2 x7d).
      - inversion H; subst. cbn [nestingJson fold_right]. lia.
      - destruct (parseMembers fuel (depth + 1) (c2 :: p2))
          as [[ms p3]|] eqn:E; [|discriminate].
        inversion H; subst. cbn [nestingJson].
        pose proof (IHm _ _ _ _ Hle E). lia. }
    destruct (Byte.eqb c x5b).
    { destruct (N.ltb_spec maxNestingDepth (depth + 1)) as [|Hle];
        [discriminate|].
      destruct (skipSpace p1) as [|c2 p2]; [discriminate|].
      destruct (Byte.eqb c2 x5d).
      - inversion H; subst. cbn [nestingJson fold_right]. lia.
      - destruct (parseElements fuel (depth + 1) (c2 :: p2))
          as [[es p3]|] eqn:E; [|discriminate].
        inversion H; subst. cbn [nestingJson].
        pose proof (IHe _ _ _ _ Hle E). lia. }
    parse_cases H; inversion H; subst; cbn [nestingJson]; lia.
  - intros depth p ms rest Hd H. cbn [parseMembers] in H. parse_cases H;
      inversion H; subst; cbn [fold_right snd];
      repeat match goal with
             | E : parseValue fuel _ _ = Some _ |- _ =>
                 apply (IHv _ _ _ _ Hd) in E
             | E : parseMembers fuel _ _ = Some _ |- _ =>
                 apply (IHm _ _ _ _ Hd) in E
             end; lia.
  - intros depth p es rest Hd H. cbn [parseElements] in H. parse_cases H;
      inversion H; subst; cbn [fold_right];
      repeat match goal with
             | E : parseValue fuel _ _ = Some _ |- _ =>
                 apply (IHv _ _ _ _ Hd) in E
             | E : parseElements fuel _ _ = Some _ |- _ =>
                 apply (IHe _ _ _ _ Hd) in E
             end; lia.
Qed.

Lemma scan_nesting (data : list byte) (j : json) :
  scan data = Some j -> (nestingJson j <= maxNestingDepth)%N.
Proof.
  unfold scan. intros H. parse_cases H. inversion H; subst.
  match goal with
  | E : parseValue _ _ _ = Some _ |- _ =>
      apply (proj1 (parse_nesting _) 0%N) in E; [lia|]
  end.
  unfold maxNestingDepth. lia.
Qed.

Lemma fold_assign_wf {V} (P : list byte * V -> Prop)
  (l acc : list (list byte * V)) :
  Forall P l -> Forall P acc -> StronglySorted keyLt acc ->
  Forall P (fold_left (fun a kv => assign (fst kv) (snd kv) a) l acc)
  /\ StronglySorted keyLt
       (fold_left (fun a kv => assign (fst kv) (snd kv) a) l acc).
Proof.
  intros Hl. revert acc. induction Hl as [|[k v] l Hkv Hl IH];
    intros acc Hacc Hs; [auto|].
  cbn [fold_left fst snd]. apply IH.
  - rewrite Forall_forall in *. intros x Hx.
    destruct (assign_in _ _ _ _ Hx) as [-> | Hin]; auto.
  - apply assign_sorted, Hs.
Qed.

Lemma wfValue_map (m : list (list byte * value)) :
  wfValue (VMap m) = true <->
  StronglySorted keyLt m
  /\ Forall (fun kv => utf8Valid (fst kv) = true /\ wfValue (snd kv) = true) m.
Proof.
  cbn [wfValue]. rewrite andb_true_iff, sortedKeys_strong, forallb_Forall.
  split; intros [H1 H2]; (split; [exact H1|]);
    rewrite Forall_forall in *; intros kv Hkv; specialize (H2 kv Hkv).
  - apply andb_true_iff in H2. exact H2.
  - apply andb_true_iff. exact H2.
Qed.

Lemma valueInterface_wf (j : json) :
  wfJson j = true -> wfValue (valueInterface j) = true.
Proof.
  induction j as [| b | s | s | l IH | l IH] using json_ind';
    cbn [wfJson valueInterface]; intros Hw.
  - reflexivity.
  - reflexivity.
  - destruct (ParseFloat s); reflexivity.
  - exact Hw.
  - cbn [wfValue]. apply forallb_Forall in Hw. apply forallb_Forall.
    rewrite Forall_forall in *. intros y Hy.
    apply in_map_iff in Hy. destruct Hy as [x [<- Hx]]. auto.
  - apply forallb_Forall in Hw. apply wfValue_map.
    apply and_comm. apply fold_assign_wf; [|constructor|constructor].
    rewrite Forall_forall in *. intros y Hy.
    apply in_map_iff in Hy. destruct Hy as [kv [<- Hkv]]. cbn [fst snd].
    specialize (Hw kv Hkv). apply andb_true_iff in Hw. destruct Hw as [H1 H2].
    split; [exact H1 | apply IH; auto].
Qed.

(** The envelope that [json.Unmarshal] fills is well formed. *)
Lemma UnmarshalMap_wf (data : list byte) (root : list (list byte * value))
  (err : option error) :
  UnmarshalMap data [] = (root, err) -> wfValue (VMap root) = true.
Proof.
  unfold UnmarshalMap. intros H.
  destruct (scan data) as [j|] eqn:E; [|inversion H; reflexivity].
  pose proof (scan_wf _ _ E) as Hj.
  destruct j; inversion H; subst; try reflexivity.
  pose proof (valueInterface_wf _ Hj) as Hv.
  cbn [valueInterface] in Hv. rewrite objectInterface_fold. exact Hv.
Qed.

(** It is nested within the limit of the scanner. *)
Lemma nesting_bound (m : list (list byte * value)) (b : N) :
  Forall (fun kv => (nesting (snd kv) <= b)%N) m ->
  (fold_right (fun kv n => N.max (nesting (snd kv)) n) 0 m <= b)%N.
Proof. induction 1; cbn [fold_right]; lia. Qed.

Lemma nesting_valueInterface (j : json) :
  (nesting (valueInterface j) <= nestingJson j)%N.
Proof.
  induction j as [| b | s | s | l IH | l IH] using json_ind';
    cbn [valueInterface nesting nestingJson]; try lia.
  - destruct (ParseFloat s); cbn [nesting]; lia.
  - enough (fold_right (fun x n => N.max (nesting x) n) 0
              (map valueInterface l)
            <= fold_right (fun x n => N.max (nestingJson x) n) 0 l)%N by lia.
    induction IH as [|x l Hx Hl IHl]; cbn [map fold_right]; lia.
  - enough (fold_right (fun kv n => N.max (nesting (snd kv)) n) 0
              (fold_left (fun m kv => assign (fst kv) (snd kv) m)
                 (map (fun kv => (fst kv, valueInterface (snd kv))) l) [])
            <= fold_right (fun kv n => N.max (nestingJson (snd kv)) n) 0 l)%N
      by lia.
    apply nesting_bound.
    apply fold_assign_wf; [|constructor|constructor].
    rewrite Forall_forall in *. intros y Hy.
    apply in_map_iff in Hy. destruct Hy as [kv [<- Hkv]]. cbn [fst snd].
    specialize (IH kv Hkv).
    enough (nestingJson (snd kv)
            <= fold_right (fun kv n => N.max (nestingJson (snd kv)) n) 0 l)%N
      by lia.
    clear IH. induction l as [|z l IHl]; [destruct Hkv|].
    cbn [fold_right]. destruct Hkv as [-> | Hkv]; [lia|].
    specialize (IHl Hkv). lia.
Qed.

Lemma UnmarshalMap_nesting (data : list byte)
  (root : list (list byte * value)) (err : option error) :
  UnmarshalMap data [] = (root, err) ->
  (nesting (VMap root) <= maxNestingDepth)%N.
Proof.
  unfold UnmarshalMap. intros H.
  assert (H0 : (nesting (VMap ([] : list (list byte * value)))
                <= maxNestingDepth)%N)
    by (cbn [nesting fold_right]; unfold maxNestingDepth; lia).
  destruct (scan data) as [j|] eqn:E; [|inversion H; subst; exact H0].
  pose proof (scan_nesting _ _ E) as Hj.
  destruct j; inversion H; subst; try exact H0.
  pose proof (nesting_valueInterface (JObject l)) as Hv.
  cbn [valueInterface] in Hv. rewrite objectInterface_fold. lia.
Qed.

(** ** The structured shape through the codec *)

Lemma encodeStringMap_value (e : bool) (m : list (list byte * list byte)) :
  encodeStringMap e m
  = encodeValue e (VMap (map (fun kv => (fst kv, VString (snd kv))) m)).
Proof.
  unfold encodeStringMap. cbn [encodeValue]. do 3 f_equal.
  rewrite map_map. apply map_ext. intros [k v]. reflexivity.
Qed.

Lemma encodeProcessParameters_value (e : bool) (pp : ProcessParameters) :
  encodeProcessParameters e pp = encodeValue e (ppValue pp).
Proof.
  unfold encodeProcessParameters, ppValue.
  destruct (CommandLine pp) as [|c cl]; destruct (Environment pp) as [|kv m];
    rewrite ?encodeStringMap_value; destruct e; reflexivity.
Qed.

Lemma wfValue_ppValue_scrubbed (pp : ProcessParameters) :
  ValidUTF8 (CommandLine pp) -> wfValue (ppValue (scrubbed pp)) = true.
Proof.
  intros H. apply utf8Valid_iff in H. unfold ppValue, scrubbed.
  cbn [CommandLine Environment]. destruct (CommandLine pp) as [|c cl].
  - reflexivity.
  - cbn [app map wfValue sortedKeys forallb fst snd]. rewrite H. reflexivity.
Qed.

Lemma nesting_ppValue_scrubbed (pp : ProcessParameters) :
  (nesting (ppValue (scrubbed pp)) <= maxNestingDepth)%N.
Proof.
  unfold ppValue, scrubbed. cbn [CommandLine Environment].
  destruct (CommandLine pp) as [|c cl]; vm_compute; discriminate.
Qed.

(** The output of the structured redactor decodes into the structure with
    the sentinel mapping and the command line it was given. *)
Lemma UnmarshalProcessParameters_scrubbed (pp : ProcessParameters) :
  ValidUTF8 (CommandLine pp) ->
  UnmarshalProcessParameters
    (encodeProcessParameters false (scrubbed pp) ++ [x0a])
    emptyProcessParameters
  = (scrubbed pp, None)
  /\ Valid (encodeProcessParameters false (scrubbed pp) ++ [x0a]) = true.
Proof.
  intros H. pose proof (wfValue_ppValue_scrubbed pp H) as Hw.
  unfold UnmarshalProcessParameters, Valid.
  rewrite encodeProcessParameters_value,
    (scan_encodeValue _ Hw (nesting_ppValue_scrubbed pp)).
  split; [|reflexivity].
  unfold ppValue, scrubbed, emptyProcessParameters.
  cbn [CommandLine Environment]. destruct (CommandLine pp); reflexivity.
Qed.

Lemma storeField_valid (st : ProcessParameters * bool)
  (kv : list byte * json) :
  wfJson (snd kv) = true -> ValidUTF8 (CommandLine (fst st)) ->
  ValidUTF8 (CommandLine (fst (storeField st kv))).
Proof.
  intros Hw Hs. unfold storeField.
  destruct (fieldByName (fst kv)) as [[|]|]; [| |exact Hs].
  - destruct (snd kv); try exact Hs. cbn [fst CommandLine].
    apply utf8Valid_iff. exact Hw.
  - destruct (snd kv); try exact Hs.
    destruct (fold_left storeStringMember l (Environment (fst st), snd st)).
    exact Hs.
Qed.

(** The decoder stores a valid command line. *)
Lemma UnmarshalProcessParameters_valid (data : list byte)
  (pp : ProcessParameters) (err : option error) :
  UnmarshalProcessParameters data emptyProcessParameters = (pp, err) ->
  ValidUTF8 (CommandLine pp).
Proof.
  unfold UnmarshalProcessParameters. intros H.
  destruct (scan data) as [j|] eqn:E; [|inversion H; constructor].
  pose proof (scan_wf _ _ E) as Hj.
  destruct j; try (inversion H; constructor).
  cbn [wfJson] in Hj. apply forallb_Forall in Hj.
  assert (G : forall st, ValidUTF8 (CommandLine (fst st)) ->
                         ValidUTF8 (CommandLine (fst (fold_left storeField l st)))).
  { clear H E. induction Hj as [|kv l Hkv Hl IH]; intros st Hst; [exact Hst|].
    cbn [fold_left]. apply IH. apply storeField_valid; [|exact Hst].
    apply andb_true_iff in Hkv. tauto. }
  specialize (G (emptyProcessParameters, false) ltac:(constructor)).
  destruct (fold_left storeField l (emptyProcessParameters, false)) as [pp' e'].
  inversion H; subst. exact G.
Qed.

Lemma ScrubProcessParameters_scrubbed (_scrub : Z) (s : list byte)
  (pp : ProcessParameters) :
  IsScrubbingEnabled _scrub = true -> hasKeywords s = true ->
  Valid s = true ->
  UnmarshalProcessParameters s emptyProcessParameters = (pp, None) ->
  ScrubProcessParameters _scrub s
  = (encodeProcessParameters false (scrubbed pp) ++ [x0a], None)
  /\ UnmarshalProcessParameters
       (encodeProcessParameters false (scrubbed pp) ++ [x0a])
       emptyProcessParameters
     = (scrubbed pp, None).
Proof.
  intros He Hk Hv Hu. split.
  - rewrite (ScrubProcessParameters_decoded _ _ He Hk Hv).
    change {| CommandLine := []; Environment := [] |}
      with emptyProcessParameters.
    rewrite Hu. reflexivity.
  - apply UnmarshalProcessParameters_scrubbed.
    eapply UnmarshalProcessParameters_valid. exact Hu.
Qed.


(** The structured redactor returns its own output unchanged. *)
Lemma ScrubProcessParameters_idempotent (_scrub : Z) (s out : list byte) :
  ScrubProcessParameters _scrub s = (out, None) ->
  ScrubProcessParameters _scrub out = (out, None).
Proof.
  intros H.
  destruct (IsScrubbingEnabled _scrub) eqn:He;
    [|apply ScrubProcessParameters_passthrough; auto].
  destruct (hasKeywords out) eqn:Hko;
    [|apply ScrubProcessParameters_passthrough; auto].
  destruct (Valid out) eqn:Hvo;
    [|apply ScrubProcessParameters_passthrough; auto].
  destruct (hasKeywords s) eqn:Hk.
  2:{ rewrite ScrubProcessParameters_passthrough in H by auto.
      inversion H; subst. congruence. }
  destruct (Valid s) eqn:Hv.
  2:{ rewrite ScrubProcessParameters_passthrough in H by auto.
      inversion H; subst. congruence. }
  rewrite (ScrubProcessParameters_decoded _ _ He Hk Hv) in H.
  change {| CommandLine := []; Environment := [] |}
    with emptyProcessParameters in H.
  destruct (UnmarshalProcessParameters s emptyProcessParameters)
    as [pp [err|]] eqn:Hu; [discriminate|].
  change {| CommandLine := CommandLine pp;
            Environment := [(ScrubbedReplacement, ScrubbedReplacement)] |}
    with (scrubbed pp) in H.
  apply (f_equal fst) in H. cbn [fst] in H. subst out.
  pose proof (UnmarshalProcessParameters_valid _ _ _ Hu) as Hcl.
  destruct (UnmarshalProcessParameters_scrubbed pp Hcl) as [Hd _].
  rewrite (ScrubProcessParameters_decoded _ _ He Hko Hvo).
  change {| CommandLine := []; Environment := [] |}
    with emptyProcessParameters.
  rewrite Hd. cbn [scrubbed CommandLine]. reflexivity.
Qed.

(** ** Well-formedness along the scrubbers *)

Lemma lookup_In {V} (k : list byte) (v : V) (m : list (list byte * V)) :
  lookup k m = Some v -> In (k, v) m.
Proof.
  induction m as [|[k' v'] m IH]; [discriminate|]. cbn [lookup].
  destruct (bytes_eqb k k') eqn:E.
  - apply bytes_eqb_eq in E. subst k'. intros H. inversion H. left. reflexivity.
  - intros H. right. apply IH, H.
Qed.

Lemma wfValue_lookup (k : list byte) (v : value)
  (m : list (list byte * value)) :
  wfValue (VMap m) = true -> lookup k m = Some v -> wfValue v = true.
Proof.
  intros Hw Hl. apply wfValue_map in Hw. destruct Hw as [_ Hw].
  rewrite Forall_forall in Hw. apply (Hw _ (lookup_In _ _ _ Hl)).
Qed.

Lemma wfValue_assign (k : list byte) (v : value)
  (m : list (list byte * value)) :
  wfValue (VMap m) = true -> utf8Valid k = true -> wfValue v = true ->
  wfValue (VMap (assign k v m)) = true.
Proof.
  intros Hw Hk Hv. apply wfValue_map in Hw. destruct Hw as [Hs Hw].
  apply wfValue_map. split; [apply assign_sorted, Hs|].
  rewrite Forall_forall in *. intros x Hx.
  destruct (assign_in _ _ _ _ Hx) as [-> | Hin]; auto.
Qed.

Lemma nesting_lookup (k : list byte) (v : value)
  (m : list (list byte * value)) :
  lookup k m = Some v -> (1 + nesting v <= nesting (VMap m))%N.
Proof.
  intros Hl. cbn [nesting].
  pose proof (nesting_In_map m (k, v) (lookup_In _ _ _ Hl)) as H.
  cbn [snd] in H. lia.
Qed.

Lemma nesting_assign (k : list byte) (v : value)
  (m : list (list byte * value)) :
  (nesting (VMap (assign k v m))
   <= N.max (nesting (VMap m)) (1 + nesting v))%N.
Proof.
  cbn [nesting].
  enough (fold_right (fun kv n => N.max (nesting (snd kv)) n) 0
            (assign k v m)
          <= N.max (fold_right (fun kv n => N.max (nesting (snd kv)) n) 0 m)
               (nesting v))%N by lia.
  apply nesting_bound. apply Forall_forall. intros x Hx.
  destruct (assign_in _ _ _ _ Hx) as [-> | Hin]; [cbn [snd]; lia|].
  pose proof (nesting_In_map m x Hin). lia.
Qed.

Lemma nesting_norm (v : value) : nesting (norm v) = nesting v.
Proof.
  induction v as [| b | f | s | l IH | l | m IH] using value_ind';
    cbn [norm nesting]; try reflexivity.
  - f_equal. induction IH as [|x l Hx Hl IHl]; [reflexivity|].
    cbn [map fold_right]. rewrite Hx, IHl. reflexivity.
  - rewrite nesting_strings. reflexivity.
  - f_equal. induction IH as [|x m Hx Hl IHl]; [reflexivity|].
    cbn [map fold_right snd]. rewrite Hx, IHl. reflexivity.
Qed.

Lemma map_assign {V W} (f : V -> W) (k : list byte) (v : V)
  (m : list (list byte * V)) :
  map (fun kv => (fst kv, f (snd kv))) (assign k v m)
  = assign k (f v) (map (fun kv => (fst kv, f (snd kv))) m).
Proof.
  induction m as [|[k' v'] m IH]; [reflexivity|].
  cbn [assign map fst snd]. destruct (compareBytes k k'); cbn [map fst snd];
    [reflexivity | reflexivity | rewrite IH; reflexivity].
Qed.

Lemma norm_map (m : list (list byte * value)) :
  norm (VMap m) = VMap (map (fun kv => (fst kv, norm (snd kv))) m).
Proof. reflexivity. Qed.

Lemma norm_map_idem (m : list (list byte * value)) :
  map (fun kv => (fst kv, norm (snd kv)))
    (map (fun kv => (fst kv, norm (snd kv))) m)
  = map (fun kv : list byte * value => (fst kv, norm (snd kv))) m.
Proof.
  pose proof (norm_idem (VMap m)) as H. cbn [norm] in H. injection H as H.
  exact H.
Qed.

(** Storing again, into the decoded tree, a value with the normal form
    of what the key holds gives the decoded tree back. *)
Lemma assign_norm_same (k : list byte) (v v' : value)
  (m : list (list byte * value)) :
  wfValue (VMap m) = true -> lookup k m = Some v -> norm v' = norm v ->
  norm (VMap (assign k v' (map (fun kv => (fst kv, norm (snd kv))) m)))
  = norm (VMap m).
Proof.
  intros Hw Hl Hn. rewrite !norm_map. f_equal.
  rewrite map_assign, norm_map_idem, Hn.
  apply assign_same.
  - apply sortedKeys_strong. rewrite sortedKeys_map.
    cbn [wfValue] in Hw. apply andb_true_iff in Hw. tauto.
  - rewrite lookup_map, Hl. reflexivity.
Qed.

Lemma encodeValue_norm_eq (e : bool) (v w : value) :
  norm v = norm w -> encodeValue e v = encodeValue e w.
Proof.
  intros H. rewrite <- (encodeValue_norm e v), <- (encodeValue_norm e w), H.
  reflexivity.
Qed.

Lemma hasKey_map {V W} (f : V -> W) (k : list byte)
  (m : list (list byte * V)) :
  hasKey k (map (fun kv => (fst kv, f (snd kv))) m) = hasKey k m.
Proof.
  unfold hasKey. rewrite lookup_map. destruct (lookup k m); reflexivity.
Qed.

Lemma hasKey_assign_other {V} (k k0 : list byte) (v : V)
  (m : list (list byte * V)) :
  hasKey k0 m = true -> hasKey k0 (assign k v m) = true.
Proof.
  unfold hasKey. destruct (bytes_eqb k0 k) eqn:E.
  - apply bytes_eqb_eq in E. subst k0. rewrite lookup_assign_eq. reflexivity.
  - apply bytes_eqb_neq in E. rewrite lookup_assign_neq by exact E. auto.
Qed.

(** ** Encodings are valid UTF-8 *)

Lemma isNumChar_ascii (c : byte) : isNumChar c = true -> (code c < 0x80)%N.
Proof.
  intros H. destruct c; try (vm_compute in H; discriminate);
    vm_compute; reflexivity.
Qed.

Lemma joinComma_valid (l : list (list byte)) :
  Forall ValidUTF8 l -> ValidUTF8 (joinComma l).
Proof.
  induction 1 as [|x l Hx Hl IH]; [constructor|].
  destruct l as [|y l]; [exact Hx|].
  rewrite joinComma_cons. apply ValidUTF8_app; [exact Hx|].
  apply (ValidUTF8_ascii x2c); [vm_compute; reflexivity | exact IH].
Qed.

Lemma brackets_valid (a b : byte) (p : list byte) :
  (code a < 0x80)%N -> (code b < 0x80)%N -> ValidUTF8 p ->
  ValidUTF8 ([a] ++ p ++ [b]).
Proof.
  intros Ha Hb Hp. apply (ValidUTF8_ascii a _ Ha).
  apply ValidUTF8_app; [exact Hp|].
  apply ValidUTF8_ascii; [exact Hb | constructor].
Qed.

Lemma encodeValue_valid (e : bool) (v : value) :
  wfValue v = true -> ValidUTF8 (encodeValue e v).
Proof.
  induction v as [| b | f | s | l IH | l | m IH] using value_ind';
    intros Hw; cbn [encodeValue].
  - apply ValidUTF8_all_ascii. vm_compute. repeat constructor.
  - destruct b; apply ValidUTF8_all_ascii; vm_compute; repeat constructor.
  - apply ValidUTF8_all_ascii.
    destruct (isValidNumber_shape _ (FormatFloat_valid f)) as [Hn _].
    apply forallb_Forall in Hn. rewrite Forall_forall in *.
    intros c Hc. apply isNumChar_ascii. auto.
  - apply appendString_valid, utf8Valid_iff, Hw.
  - cbn [wfValue] in Hw. apply forallb_Forall in Hw.
    apply brackets_valid; try (vm_compute; reflexivity).
    apply joinComma_valid. rewrite Forall_forall in *. intros y Hy.
    apply in_map_iff in Hy. destruct Hy as [x [<- Hx]]. auto.
  - cbn [wfValue] in Hw. apply forallb_Forall in Hw.
    apply brackets_valid; try (vm_compute; reflexivity).
    apply joinComma_valid. rewrite Forall_forall in *. intros y Hy.
    apply in_map_iff in Hy. destruct Hy as [x [<- Hx]].
    apply appendString_valid, utf8Valid_iff. auto.
  - apply wfValue_map in Hw. destruct Hw as [_ Hw].
    apply brackets_valid; try (vm_compute; reflexivity).
    apply joinComma_valid. rewrite Forall_forall in *. intros y Hy.
    apply in_map_iff in Hy. destruct Hy as [kv [<- Hkv]].
    destruct (Hw kv Hkv) as [H1 H2].
    apply ValidUTF8_app; [apply appendString_valid, utf8Valid_iff, H1|].
    apply (ValidUTF8_ascii x3a); [vm_compute; reflexivity|].
    apply IH; auto.
Qed.

(** The string the structured redactor returns is valid UTF-8 when its
    input is. *)
Lemma ScrubProcessParameters_valid (_scrub : Z) (s out : list byte) :
  ValidUTF8 s -> ScrubProcessParameters _scrub s = (out, None) ->
  ValidUTF8 out.
Proof.
  intros Hs H. unfold ScrubProcessParameters in H.
  destruct (negb (IsScrubbingEnabled _scrub) || negb (hasKeywords s)
            || negb (Valid s)); [inversion H; subst; exact Hs|].
  change {| CommandLine := []; Environment := [] |}
    with emptyProcessParameters in H.
  destruct (UnmarshalProcessParameters s emptyProcessParameters)
    as [pp [err|]] eqn:Hu; [discriminate|].
  change {| CommandLine := CommandLine pp;
            Environment := [(ScrubbedReplacement, ScrubbedReplacement)] |}
    with (scrubbed pp) in H.
  unfold encode, Encode in H. cbn [marshal app] in H.
  apply (f_equal fst) in H. cbn [fst] in H. subst out.
  apply ValidUTF8_app.
  - rewrite encodeProcessParameters_value. apply encodeValue_valid.
    apply wfValue_ppValue_scrubbed.
    eapply UnmarshalProcessParameters_valid. exact Hu.
  - apply ValidUTF8_ascii; [vm_compute; reflexivity | constructor].
Qed.

(** ** What a successful scrubber found *)

Lemma scrubLinuxHostedSystem_inv (root root1 : list (list byte * value)) :
  scrubLinuxHostedSystem (Some []) root = (None, root1) ->
  hasKey (lit "ActivityId") root = true
  /\ hasKey (lit "ContainerId") root = true
  /\ exists cc oci proc e,
       lookup (lit "ContainerConfig") root = Some (VMap cc)
       /\ lookup (lit "OciSpecification") cc = Some (VMap oci)
       /\ lookup (lit "process") oci = Some (VMap proc)
       /\ lookup (lit "env") proc = Some e
       /\ root1 =
          assign (lit "ContainerConfig")
            (VMap (assign (lit "OciSpecification")
               (VMap (assign (lit "process")
                  (VMap (assign (lit "env")
                           (VStrings [ScrubbedReplacement]) proc))
                  oci)) cc)) root.
Proof.
  intros H.
  destruct (hasKey (lit "ActivityId") root) eqn:Ha.
  2:{ destruct (scrubbers_need_base 0 root (or_introl Ha)) as [E _].
      congruence. }
  destruct (hasKey (lit "ContainerId") root) eqn:Hc.
  2:{ destruct (scrubbers_need_base 0 root (or_intror Hc)) as [E _].
      congruence. }
  split; [reflexivity|]. split; [reflexivity|].
  assert (U : forall P : Prop,
             (~ (exists cc oci proc e,
                   lookup (lit "ContainerConfig") root = Some (VMap cc)
                   /\ lookup (lit "OciSpecification") cc = Some (VMap oci)
                   /\ lookup (lit "process") oci = Some (VMap proc)
                   /\ lookup (lit "env") proc = Some e)) -> P).
  { intros P Hn. pose proof (scrubLinuxHostedSystem_unknown root Hn) as E.
    rewrite H in E. discriminate E. }
  destruct (lookup (lit "ContainerConfig") root) as [v1|] eqn:H1;
    [|apply U; intros [? [? [? [? [G _]]]]]; discriminate].
  destruct v1 as [| | | | | |cc];
    try (apply U; intros [? [? [? [? [G _]]]]]; discriminate).
  destruct (lookup (lit "OciSpecification") cc) as [v2|] eqn:H2;
    [|apply U; intros [? [? [? [? [G1 [G2 _]]]]]]; congruence].
  destruct v2 as [| | | | | |oci];
    try (apply U; intros [? [? [? [? [G1 [G2 _]]]]]]; congruence).
  destruct (lookup (lit "process") oci) as [v3|] eqn:H3;
    [|apply U; intros [? [? [? [? [G1 [G2 [G3 _]]]]]]]; congruence].
  destruct v3 as [| | | | | |proc];
    try (apply U; intros [? [? [? [? [G1 [G2 [G3 _]]]]]]]; congruence).
  destruct (lookup (lit "env") proc) as [e|] eqn:H4;
    [|apply U; intros [? [? [? [? [G1 [G2 [G3 G4]]]]]]]; congruence].
  exists cc, oci, proc, e. repeat split; try reflexivity; try assumption.
  rewrite (scrubLinuxHostedSystem_found _ _ _ _ _ Ha Hc H1 H2 H3 H4) in H.
  congruence.
Qed.

Lemma scrubExecuteProcess_inv (_scrub : Z)
  (root root1 : list (list byte * value)) :
  scrubExecuteProcess _scrub (Some []) root = (None, root1) ->
  hasKey (lit "ActivityId") root = true
  /\ hasKey (lit "ContainerId") root = true
  /\ exists st s s',
       lookup (lit "Settings") root = Some (VMap st)
       /\ lookup (lit "ProcessParameters") st = Some (VString s)
       /\ ScrubProcessParameters _scrub s = (s', None)
       /\ root1 =
          assign (lit "Settings")
            (VMap (assign (lit "ProcessParameters") (VString s') st)) root.
Proof.
  intros H.
  destruct (hasKey (lit "ActivityId") root) eqn:Ha.
  2:{ destruct (scrubbers_need_base _scrub root (or_introl Ha)) as [_ E].
      congruence. }
  destruct (hasKey (lit "ContainerId") root) eqn:Hc.
  2:{ destruct (scrubbers_need_base _scrub root (or_intror Hc)) as [_ E].
      congruence. }
  split; [reflexivity|]. split; [reflexivity|].
  destruct (lookup (lit "Settings") root) as [v1|] eqn:H1.
  2:{ exfalso. revert H. unfold scrubExecuteProcess. unfold bind at 1.
      rewrite isRequestBase_root, Ha, Hc. cbn [andb negb].
      unfold bind at 1. rewrite (index_at root root [] _ eq_refl), H1.
      discriminate. }
  destruct v1 as [| | | | | |st];
    try (exfalso; revert H; unfold scrubExecuteProcess; unfold bind at 1;
         rewrite isRequestBase_root, Ha, Hc; cbn [andb negb];
         unfold bind at 1; rewrite (index_at root root [] _ eq_refl), H1;
         discriminate).
  destruct (lookup (lit "ProcessParameters") st) as [v|] eqn:H2.
  2:{ exfalso. revert H. unfold scrubExecuteProcess. unfold bind at 1.
      rewrite isRequestBase_root, Ha, Hc. cbn [andb negb].
      unfold bind at 1. rewrite (index_at root root [] _ eq_refl), H1.
      cbn [app]. unfold bind at 1. unfold mapIndex at 1. cbn [getAt].
      rewrite H1, H2. discriminate. }
  rewrite (scrubExecuteProcess_settings _ _ _ _ Ha Hc H1 H2) in H.
  destruct v as [| | |s| | |]; try discriminate.
  destruct (ScrubProcessParameters _scrub s) as [s' [err|]] eqn:Hs;
    [discriminate|].
  exists st, s, s'. repeat split; try reflexivity; try assumption.
  congruence.
Qed.

(** ** Scrubbing a scrubbed message *)

(** The tree a successful scrubber leaves is nested within the limit of
    the scanner when the tree it was given is. *)
Lemma scrubLinuxHostedSystem_nesting (root root1 : list (list byte * value)) :
  (nesting (VMap root) <= maxNestingDepth)%N ->
  scrubLinuxHostedSystem (Some []) root = (None, root1) ->
  (nesting (VMap root1) <= maxNestingDepth)%N.
Proof.
  intros Hn Hs.
  destruct (scrubLinuxHostedSystem_inv _ _ Hs)
    as [_ [_ [cc [oci [proc [e [H1 [H2 [H3 [H4 ->]]]]]]]]]].
  pose proof (nesting_lookup _ _ _ H1) as L1.
  pose proof (nesting_lookup _ _ _ H2) as L2.
  pose proof (nesting_lookup _ _ _ H3) as L3.
  pose proof (nesting_lookup _ _ _ H4) as L4.
  set (X := VStrings [ScrubbedReplacement] : value) in *.
  set (proc1 := assign (lit "env") X proc) in *.
  set (oci1 := assign (lit "process") (VMap proc1) oci) in *.
  set (cc1 := assign (lit "OciSpecification") (VMap oci1) cc) in *.
  pose proof (nesting_assign (lit "env") X proc) as A1.
  pose proof (nesting_assign (lit "process") (VMap proc1) oci) as A2.
  pose proof (nesting_assign (lit "OciSpecification") (VMap oci1) cc) as A3.
  pose proof (nesting_assign (lit "ContainerConfig") (VMap cc1) root) as A4.
  fold proc1 in A1. fold oci1 in A2. fold cc1 in A3.
  change (nesting X) with 1%N in A1.
  unfold maxNestingDepth in *. lia.
Qed.

Lemma scrubExecuteProcess_nesting (_scrub : Z)
  (root root1 : list (list byte * value)) :
  (nesting (VMap root) <= maxNestingDepth)%N ->
  scrubExecuteProcess _scrub (Some []) root = (None, root1) ->
  (nesting (VMap root1) <= maxNestingDepth)%N.
Proof.
  intros Hn Hs.
  destruct (scrubExecuteProcess_inv _ _ _ Hs)
    as [_ [_ [st [s [s' [H1 [H2 [H3 ->]]]]]]]].
  pose proof (nesting_lookup _ _ _ H1) as L1.
  pose proof (nesting_lookup _ _ _ H2) as L2.
  set (st1 := assign (lit "ProcessParameters") (VString s') st) in *.
  pose proof (nesting_assign (lit "ProcessParameters") (VString s') st) as A1.
  pose proof (nesting_assign (lit "Settings") (VMap st1) root) as A2.
  fold st1 in A1.
  change (nesting (VString s')) with 0%N in A1.
  change (nesting (VString s)) with 0%N in L2.
  lia.
Qed.

Lemma scrubBytes_success_inv (_scrub : Z) (b out : list byte)
  (scrub : scrubberFunc) :
  scrubBytes _scrub b scrub = (out, None) ->
  out = b
  \/ exists root root1,
       UnmarshalMap b [] = (root, None)
       /\ scrub (Some []) root = (None, root1)
       /\ out = encodeValue false (VMap root1) ++ [x0a].
Proof.
  intros H. unfold scrubBytes in H.
  destruct (negb (IsScrubbingEnabled _scrub) || negb (hasKeywords b)
            || negb (Valid b)); [left; congruence|].
  right. destruct (UnmarshalMap b []) as [root [err|]]; [discriminate|].
  destruct (scrub (Some []) root) as [[err|] root1] eqn:Hs; [discriminate|].
  exists root, root1. split; [reflexivity|]. split; [exact Hs|].
  unfold encode, Encode in H. cbn [marshal app] in H. congruence.
Qed.

(** A scrubber that leaves the decoded output as it is, up to the normal
    form, makes the dispatcher return the output itself. *)
Lemma scrubBytes_again (_scrub : Z) (scrub : scrubberFunc)
  (root1 root2 : list (list byte * value)) :
  wfValue (VMap root1) = true ->
  (nesting (VMap root1) <= maxNestingDepth)%N ->
  scrub (Some []) (map (fun kv => (fst kv, norm (snd kv))) root1)
  = (None, root2) ->
  norm (VMap root2) = norm (VMap root1) ->
  scrubBytes _scrub (encodeValue false (VMap root1) ++ [x0a]) scrub
  = (encodeValue false (VMap root1) ++ [x0a], None).
Proof.
  intros Hw Hd Hs Hn.
  destruct (IsScrubbingEnabled _scrub) eqn:He;
    [|apply scrubBytes_passthrough; auto].
  destruct (hasKeywords (encodeValue false (VMap root1) ++ [x0a])) eqn:Hk;
    [|apply scrubBytes_passthrough; auto].
  rewrite (scrubBytes_decoded _ _ _ He Hk (Valid_encode _ Hw Hd)).
  rewrite (UnmarshalMap_encode _ Hw Hd), Hs.
  rewrite (encodeValue_norm_eq false _ _ Hn). reflexivity.
Qed.

Lemma utf8Valid_lit_keys :
  utf8Valid (lit "env") = true
  /\ utf8Valid (lit "process") = true
  /\ utf8Valid (lit "OciSpecification") = true
  /\ utf8Valid (lit "ContainerConfig") = true
  /\ utf8Valid (lit "ProcessParameters") = true
  /\ utf8Valid (lit "Settings") = true.
Proof. repeat split; vm_compute; reflexivity. Qed.

Lemma ScrubBridgeCreate_idempotent (_scrub : Z) (b out : list byte) :
  ScrubBridgeCreate _scrub b = (out, None) ->
  ScrubBridgeCreate _scrub out = (out, None).
Proof.
  unfold ScrubBridgeCreate. intros H.
  destruct (scrubBytes_success_inv _ _ _ _ H)
    as [-> | [root [root1 [Hu [Hs ->]]]]]; [exact H|]. clear H.
  pose proof (scrubLinuxHostedSystem_nesting _ _
                (UnmarshalMap_nesting _ _ _ Hu) Hs) as Nroot1.
  destruct (scrubLinuxHostedSystem_inv _ _ Hs)
    as [Ha [Hc [cc [oci [proc [e [H1 [H2 [H3 [H4 ->]]]]]]]]]].
  destruct utf8Valid_lit_keys as [K1 [K2 [K3 [K4 _]]]].
  pose proof (UnmarshalMap_wf _ _ _ Hu) as Wroot.
  pose proof (wfValue_lookup _ _ _ Wroot H1) as Wcc.
  pose proof (wfValue_lookup _ _ _ Wcc H2) as Woci.
  pose proof (wfValue_lookup _ _ _ Woci H3) as Wproc.
  set (X := VStrings [ScrubbedReplacement] : value) in *.
  set (proc1 := assign (lit "env") X proc) in *.
  set (oci1 := assign (lit "process") (VMap proc1) oci) in *.
  set (cc1 := assign (lit "OciSpecification") (VMap oci1) cc) in *.
  set (root1 := assign (lit "ContainerConfig") (VMap cc1) root) in *.
  assert (Wproc1 : wfValue (VMap proc1) = true)
    by (apply wfValue_assign; auto).
  assert (Woci1 : wfValue (VMap oci1) = true)
    by (apply wfValue_assign; auto).
  assert (Wcc1 : wfValue (VMap cc1) = true)
    by (apply wfValue_assign; auto).
  assert (Wroot1 : wfValue (VMap root1) = true)
    by (apply wfValue_assign; auto).
  set (N := fun m : list (list byte * value) =>
              map (fun kv => (fst kv, norm (snd kv))) m).
  eapply (scrubBytes_again _ _ root1); [exact Wroot1|exact Nroot1| |].
  - apply (scrubLinuxHostedSystem_found (N root1) (N cc1) (N oci1) (N proc1)
             (norm X)).
    + unfold N. rewrite hasKey_map. apply hasKey_assign_other, Ha.
    + unfold N. rewrite hasKey_map. apply hasKey_assign_other, Hc.
    + unfold N, root1. rewrite lookup_map, lookup_assign_eq. reflexivity.
    + unfold N, cc1. rewrite lookup_map, lookup_assign_eq. reflexivity.
    + unfold N, oci1. rewrite lookup_map, lookup_assign_eq. reflexivity.
    + unfold N, proc1. rewrite lookup_map, lookup_assign_eq. reflexivity.
  - apply (assign_norm_same _ (VMap cc1) _ _ Wroot1);
      [apply lookup_assign_eq|].
    apply (assign_norm_same _ (VMap oci1) _ _ Wcc1);
      [apply lookup_assign_eq|].
    apply (assign_norm_same _ (VMap proc1) _ _ Woci1);
      [apply lookup_assign_eq|].
    apply (assign_norm_same _ X _ _ Wproc1); [apply lookup_assign_eq|].
    reflexivity.
Qed.

Lemma ScrubBridgeExecProcess_idempotent (_scrub : Z) (b out : list byte) :
  ScrubBridgeExecProcess _scrub b = (out, None) ->
  ScrubBridgeExecProcess _scrub out = (out, None).
Proof.
  unfold ScrubBridgeExecProcess. intros H.
  destruct (scrubBytes_success_inv _ _ _ _ H)
    as [-> | [root [root1 [Hu [Hs ->]]]]]; [exact H|]. clear H.
  pose proof (scrubExecuteProcess_nesting _ _ _
                (UnmarshalMap_nesting _ _ _ Hu) Hs) as Nroot1.
  destruct (scrubExecuteProcess_inv _ _ _ Hs)
    as [Ha [Hc [st [s [s' [H1 [H2 [H3 ->]]]]]]]].
  destruct utf8Valid_lit_keys as [_ [_ [_ [_ [K1 K2]]]]].
  pose proof (UnmarshalMap_wf _ _ _ Hu) as Wroot.
  pose proof (wfValue_lookup _ _ _ Wroot H1) as Wst.
  pose proof (wfValue_lookup _ _ _ Wst H2) as Ws. cbn [wfValue] in Ws.
  assert (Ws' : wfValue (VString s' : value) = true).
  { cbn [wfValue]. apply utf8Valid_iff.
    eapply ScrubProcessParameters_valid; [|exact H3].
    apply utf8Valid_iff, Ws. }
  set (st1 := assign (lit "ProcessParameters") (VString s') st) in *.
  set (root1 := assign (lit "Settings") (VMap st1) root) in *.
  assert (Wst1 : wfValue (VMap st1) = true)
    by (apply wfValue_assign; auto).
  assert (Wroot1 : wfValue (VMap root1) = true)
    by (apply wfValue_assign; auto).
  set (N := fun m : list (list byte * value) =>
              map (fun kv => (fst kv, norm (snd kv))) m).
  eapply (scrubBytes_again _ _ root1); [exact Wroot1|exact Nroot1| |].
  - etransitivity;
      [apply (scrubExecuteProcess_settings _scrub (N root1) (N st1)
                (VString s'))
      | rewrite (ScrubProcessParameters_idempotent _ _ _ H3); reflexivity].
    + unfold N. rewrite hasKey_map. apply hasKey_assign_other, Ha.
    + unfold N. rewrite hasKey_map. apply hasKey_assign_other, Hc.
    + unfold N, root1. rewrite lookup_map, lookup_assign_eq. reflexivity.
    + unfold N, st1. rewrite lookup_map, lookup_assign_eq. reflexivity.
  - apply (assign_norm_same _ (VMap st1) _ _ Wroot1);
      [apply lookup_assign_eq|].
    apply (assign_norm_same _ (VString s') _ _ Wst1);
      [apply lookup_assign_eq|].
    reflexivity.
Qed.

(** C8: each redaction operation returns its own successful output
    unchanged and without error when applied to it again. *)
Theorem scrub_idempotent (_scrub : Z) (b out : list byte) :
  (ScrubProcessParameters _scrub b = (out, None) ->
   ScrubProcessParameters _scrub out = (out, None))
  /\ (ScrubBridgeCreate _scrub b = (out, None) ->
      ScrubBridgeCreate _scrub out = (out, None))
  /\ (ScrubBridgeExecProcess _scrub b = (out, None) ->
      ScrubBridgeExecProcess _scrub out = (out, None)).
Proof.
  split; [|split].
  - apply ScrubProcessParameters_idempotent.
  - apply ScrubBridgeCreate_idempotent.
  - apply ScrubBridgeExecProcess_idempotent.
Qed.

(** ** The decimal instance satisfies the laws *)

Lemma digitOf_digitByte (n : N) : digitOf (digitByte n) = Some (n mod 10)%N.
Proof.
  unfold digitOf, digitByte, between. rewrite code_byte_of by lia.
  nsolve. f_equal. lia.
Qed.

Lemma isDigit_digitByte (n : N) : isDigit (digitByte n) = true.
Proof.
  unfold isDigit, digitByte, between. rewrite code_byte_of by lia.
  nsolve. reflexivity.
Qed.

Lemma parseDigits_snoc (s : list byte) (c : byte) (acc : N) :
  parseDigits acc (s ++ [c])
  = match parseDigits acc s with
    | Some x =>
        match digitOf c with
        | Some d => Some (10 * x + d)%N
        | None => None
        end
    | None => None
    end.
Proof.
  revert acc. induction s as [|a s IH]; intros acc; cbn [app parseDigits].
  - destruct (digitOf c); reflexivity.
  - destruct (digitOf a); [apply IH | reflexivity].
Qed.

Lemma formatDigits_spec (fuel : nat) (n : N) :
  (n < 2 ^ N.of_nat fuel)%N ->
  parseDigits 0 (formatDigits fuel n) = Some n
  /\ forallb isDigit (formatDigits fuel n) = true
  /\ ((1 <= n)%N ->
      exists c s, formatDigits fuel n = c :: s
                  /\ between 0x31 0x39 c = true).
Proof.
  revert n. induction fuel as [|fuel IH]; intros n Hn.
  - cbn in Hn. assert (n = 0%N) by lia. subst n. cbn.
    repeat split. intros H. lia.
  - rewrite Nat2N.inj_succ, N.pow_succ_r' in Hn. cbn [formatDigits].
    destruct (N.ltb_spec n 10) as [Hlt | Hge].
    + cbn [parseDigits forallb]. rewrite digitOf_digitByte, isDigit_digitByte.
      rewrite N.mod_small by lia. repeat split.
      intros H1. exists (digitByte n), []. split; [reflexivity|].
      unfold digitByte, between. rewrite code_byte_of by lia.
      rewrite N.mod_small by lia. nsolve. reflexivity.
    + assert (Hq : (n / 10 < 2 ^ N.of_nat fuel)%N) by lia.
      destruct (IH (n / 10)%N Hq) as [H1 [H2 H3]].
      rewrite parseDigits_snoc, H1, digitOf_digitByte.
      rewrite forallb_app, H2. cbn [forallb]. rewrite isDigit_digitByte.
      repeat split; [f_equal; lia|].
      intros _. destruct (H3 ltac:(lia)) as [c [s [E Hc]]].
      rewrite E. exists c, (s ++ [digitByte n]). split; [reflexivity|].
      exact Hc.
Qed.

Lemma pos_size_nat_bound (p : positive) :
  (N.pos p < 2 ^ N.of_nat (Pos.size_nat p))%N.
Proof.
  induction p as [p IH | p IH |]; cbn [Pos.size_nat];
    rewrite ?Nat2N.inj_succ, ?N.pow_succ_r'; lia.
Qed.

Lemma size_nat_bound (n : N) : (n < 2 ^ N.of_nat (S (N.size_nat n)))%N.
Proof.
  rewrite Nat2N.inj_succ, N.pow_succ_r'.
  destruct n as [|p]; [cbn; lia|].
  pose proof (pos_size_nat_bound p) as H. cbn [N.size_nat]. lia.
Qed.

Lemma dropDigits_all (s : list byte) :
  forallb isDigit s = true -> dropDigits s = [].
Proof.
  induction s as [|c s IH]; [reflexivity|]. cbn [forallb dropDigits].
  intros H. apply andb_true_iff in H. destruct H as [H1 H2].
  rewrite H1. apply IH, H2.
Qed.

Lemma natFloat_laws : Float64Laws natFloat.
Proof.
  split; cbn [float64 FormatFloat ParseFloat natFloat]; intros n;
    unfold formatNat;
    destruct (formatDigits_spec _ n (size_nat_bound n)) as [H1 [H2 H3]].
  - destruct (N.eq_dec n 0) as [-> | Hn]; [reflexivity|].
    destruct (H3 ltac:(lia)) as [c [s [E Hc]]]. rewrite E in *.
    cbn [forallb] in H2. apply andb_true_iff in H2. destruct H2 as [_ H2].
    unfold isValidNumber.
    assert (N1 : Byte.eqb c x2d = false).
    { unfold between in Hc. nhyps. rewrite byte_eqb_code. code_consts.
      nsolve. reflexivity. }
    assert (N2 : Byte.eqb c x30 = false).
    { unfold between in Hc. nhyps. rewrite byte_eqb_code. code_consts.
      nsolve. reflexivity. }
    rewrite N1, N2, Hc, (dropDigits_all s H2). reflexivity.
  - unfold parseNat.
    destruct (formatDigits (S (N.size_nat n)) n) as [|c [|c' s]] eqn:E.
    + cbn in H1. destruct (N.eq_dec n 0) as [-> | Hn]; [discriminate E|].
      destruct (H3 ltac:(lia)) as [? [? [E' _]]]. discriminate E'.
    + cbn [parseDigits] in H1. destruct (digitOf c) as [d|]; [|discriminate].
      cbn [parseDigits] in H1. rewrite <- H1. f_equal; lia.
    + destruct (N.eq_dec n 0) as [-> | Hn]; [discriminate E|].
      destruct (H3 ltac:(lia)) as [c0 [s0 [E' Hc]]].
      inversion E'; subst c0 s0.
      assert (N2 : Byte.eqb c x30 = false).
      { unfold between in Hc. nhyps. rewrite byte_eqb_code. code_consts.
        nsolve. reflexivity. }
      rewrite N2. exact H1.
Qed.

Lemma UnmarshalProcessParameters_Valid (s : list byte)
  (pp : ProcessParameters) :
  UnmarshalProcessParameters s emptyProcessParameters = (pp, None) ->
  Valid s = true.
Proof.
  unfold UnmarshalProcessParameters, Valid.
  destruct (scan s); [reflexivity | discriminate].
Qed.

(** C2, as amended: when the string under Settings.ProcessParameters
    decodes into the process-parameters shape and a keyword occurs in the
    bytes of that string itself, the exec scrubber succeeds, and in the
    envelope it returns the ProcessParameters string decodes into the
    structure whose Environment is exactly the sentinel mapping. *)
Theorem exec_redacts_parameters (_scrub : Z) (b : list byte)
  (root st : list (list byte * value)) (s : list byte)
  (pp : ProcessParameters) :
  IsScrubbingEnabled _scrub = true -> hasKeywords b = true ->
  Valid b = true ->
  UnmarshalMap b [] = (root, None) ->
  hasKey (lit "ActivityId") root = true ->
  hasKey (lit "ContainerId") root = true ->
  lookup (lit "Settings") root = Some (VMap st) ->
  lookup (lit "ProcessParameters") st = Some (VString s) ->
  UnmarshalProcessParameters s emptyProcessParameters = (pp, None) ->
  hasKeywords s = true ->
  exists out root' st' s',
    ScrubBridgeExecProcess _scrub b = (out, None)
    /\ UnmarshalMap out [] = (root', None)
    /\ lookup (lit "Settings") root' = Some (VMap st')
    /\ lookup (lit "ProcessParameters") st' = Some (VString s')
    /\ UnmarshalProcessParameters s' emptyProcessParameters
       = ({| CommandLine := CommandLine pp;
             Environment := [(ScrubbedReplacement, ScrubbedReplacement)] |},
          None).
Proof.
  intros He Hk Hv Hu Ha Hc H1 H2 Hp Hks.
  pose proof (UnmarshalProcessParameters_Valid _ _ Hp) as Hvs.
  destruct (ScrubProcessParameters_scrubbed _ _ _ He Hks Hvs Hp) as [Hs Hd].
  set (s' := encodeProcessParameters false (scrubbed pp) ++ [x0a]) in *.
  set (st1 := assign (lit "ProcessParameters") (VString s') st).
  set (root1 := assign (lit "Settings") (VMap st1) root).
  destruct utf8Valid_lit_keys as [_ [_ [_ [_ [K1 K2]]]]].
  pose proof (UnmarshalMap_wf _ _ _ Hu) as Wroot.
  pose proof (wfValue_lookup _ _ _ Wroot H1) as Wst.
  pose proof (wfValue_lookup _ _ _ Wst H2) as Ws. cbn [wfValue] in Ws.
  assert (Ws' : wfValue (VString s' : value) = true).
  { cbn [wfValue]. apply utf8Valid_iff.
    eapply ScrubProcessParameters_valid; [|exact Hs].
    apply utf8Valid_iff, Ws. }
  assert (Wst1 : wfValue (VMap st1) = true)
    by (apply wfValue_assign; auto).
  assert (Wroot1 : wfValue (VMap root1) = true)
    by (apply wfValue_assign; auto).
  exists (encodeValue false (VMap root1) ++ [x0a]),
    (map (fun kv => (fst kv, norm (snd kv))) root1),
    (map (fun kv => (fst kv, norm (snd kv))) st1), s'.
  split; [|split; [|split; [|split]]].
  - unfold ScrubBridgeExecProcess.
    rewrite (scrubBytes_decoded _ _ _ He Hk Hv), Hu.
    rewrite (scrubExecuteProcess_settings _ _ _ _ Ha Hc H1 H2), Hs.
    reflexivity.
  - apply UnmarshalMap_encode; [exact Wroot1|].
    apply (scrubExecuteProcess_nesting _scrub root);
      [exact (UnmarshalMap_nesting _ _ _ Hu)|].
    rewrite (scrubExecuteProcess_settings _ _ _ _ Ha Hc H1 H2), Hs.
    reflexivity.
  - unfold root1. rewrite lookup_map, lookup_assign_eq. reflexivity.
  - unfold st1. rewrite lookup_map, lookup_assign_eq. reflexivity.
  - exact Hd.
Qed.

(** ** The encoder leaves markup bytes alone *)

Lemma DecodeRune_size_le (p : list byte) :
  p <> [] -> (snd (DecodeRune p) <= List.length p)%nat.
Proof.
  intros Hp. destruct p as [|b p]; [congruence|].
  unfold DecodeRune.
  repeat match goal with
         | |- context [if ?x then _ else _] => destruct x
         | |- context [match ?l with [] => _ | _ :: _ => _ end] => destruct l
         end; cbn [snd List.length]; lia.
Qed.

(** An ASCII byte behind [p] does not change the rune at its head. *)
Lemma DecodeRune_app_ascii (p q : list byte) (c : byte) :
  p <> [] -> (code c < 0x80)%N ->
  DecodeRune (p ++ c :: q) = DecodeRune p.
Proof.
  intros Hp Hc.
  assert (C1 : cont c = false).
  { unfold cont. replace (128 <=? code c)%N with false
      by (symmetry; apply N.leb_gt; lia). reflexivity. }
  assert (C2 : forall lo hi, (0x80 <= lo)%N -> between lo hi c = false).
  { intros lo hi Hlo. unfold between.
    replace (lo <=? code c)%N with false
      by (symmetry; apply N.leb_gt; lia). reflexivity. }
  destruct p as [|b0 [|b1 [|b2 [|b3 p]]]]; [congruence| | | |];
    unfold DecodeRune; cbn [app];
    rewrite ?C1, ?andb_false_r;
    repeat match goal with
           | |- context [between (if ?x then _ else _) _ c] => destruct x
           end;
    rewrite ?C2 by lia; cbn [andb];
    repeat match goal with
           | |- context [if ?x then _ else _] => destruct x
           | |- context [match ?l with [] => _ | _ :: _ => _ end] =>
               destruct l
           end; reflexivity.
Qed.

Lemma escapeString_cons (e : bool) (b : byte) (rest : list byte) :
  escapeString e (b :: rest)
  = if (code b <? RuneSelf)%N then
      (if htmlSafeSet b || (negb e && safeSet b)
       then [b] else escapeByte b) ++ escapeString e rest
    else
      let '(c, size) := DecodeRune (b :: rest) in
      if (c =? RuneError)%N && Nat.eqb size 1 then
        lit "\ufffd" ++ escapeString e rest
      else if (c =? 0x2028)%N || (c =? 0x2029)%N then
        lit "\u202" ++ [hexDigit (c mod 16)]
        ++ escapeString e (skipn size (b :: rest))
      else
        firstn size (b :: rest) ++ escapeString e (skipn size (b :: rest)).
Proof.
  unfold escapeString. cbn [List.length appendStringLoop].
  destruct (code b <? RuneSelf)%N; [reflexivity|].
  pose proof (DecodeRune_size_pos (b :: rest) ltac:(discriminate)) as Hp.
  destruct (DecodeRune (b :: rest)) as [c n]. cbn [snd] in Hp.
  rewrite (appendStringLoop_fuel e (List.length rest)
             (List.length (skipn n (b :: rest))) (skipn n (b :: rest)))
    by (rewrite ?length_skipn; cbn [List.length]; lia).
  reflexivity.
Qed.

(** An ASCII byte starts afresh wherever it stands in the string. *)
Lemma escapeString_split (e : bool) (c : byte) (s2 : list byte) :
  (code c < 0x80)%N ->
  forall n s1, (List.length s1 <= n)%nat ->
  escapeString e (s1 ++ c :: s2)
  = escapeString e s1 ++ escapeString e (c :: s2).
Proof.
  intros Hc. induction n as [|n IH]; intros s1 Hn.
  - destruct s1; [reflexivity | cbn in Hn; lia].
  - destruct s1 as [|b rest]; [reflexivity|]. cbn [List.length] in Hn.
    change ((b :: rest) ++ c :: s2) with (b :: (rest ++ c :: s2)).
    rewrite (escapeString_cons e b (rest ++ c :: s2)),
      (escapeString_cons e b rest).
    destruct (code b <? RuneSelf)%N.
    + rewrite IH by lia. rewrite app_assoc. reflexivity.
    + change (b :: rest ++ c :: s2) with ((b :: rest) ++ c :: s2).
      rewrite (DecodeRune_app_ascii (b :: rest) s2 c ltac:(discriminate) Hc).
      pose proof (DecodeRune_size_pos (b :: rest) ltac:(discriminate)) as H1.
      pose proof (DecodeRune_size_le (b :: rest) ltac:(discriminate)) as H2.
      destruct (DecodeRune (b :: rest)) as [r k]. cbn [snd] in H1, H2.
      assert (E1 : firstn k ((b :: rest) ++ c :: s2) = firstn k (b :: rest)).
      { rewrite firstn_app.
        replace (k - List.length (b :: rest))%nat with 0%nat by lia.
        cbn [firstn]. apply app_nil_r. }
      assert (E2 : skipn k ((b :: rest) ++ c :: s2)
                   = skipn k (b :: rest) ++ c :: s2).
      { rewrite skipn_app.
        replace (k - List.length (b :: rest))%nat with 0%nat by lia.
        reflexivity. }
      rewrite E1, E2.
      assert (E3 : (List.length (skipn k (b :: rest)) <= n)%nat).
      { rewrite length_skipn. cbn [List.length] in *. lia. }
      cbn [app]. rewrite (IH rest) by lia.
      rewrite (IH (skipn k (b :: rest)) E3).
      destruct ((r =? RuneError)%N && Nat.eqb k 1);
        [rewrite app_assoc; reflexivity|].
      destruct ((r =? 0x2028)%N || (r =? 0x2029)%N);
        rewrite <- ?app_assoc; reflexivity.
Qed.

Lemma escapeString_app (e : bool) (a b : list byte) :
  ValidUTF8 a -> escapeString e (a ++ b) = escapeString e a ++ escapeString e b.
Proof.
  induction 1 as [|r t Hr Ht IH]; [reflexivity|].
  rewrite <- app_assoc, !escapeString_rune, IH, app_assoc by exact Hr.
  reflexivity.
Qed.

Lemma escapeString_markup (c : byte) (s : list byte) :
  c = x3c \/ c = x3e \/ c = x26 ->
  escapeString false (c :: s) = c :: escapeString false s.
Proof.
  intros H.
  assert (E : c :: s = EncodeRune (code c) ++ s
              /\ scalar (code c) /\ escapeRune false (code c) = [c]).
  { destruct H as [-> | [-> | ->]];
      (split; [reflexivity | split; [unfold scalar; cbn; lia | reflexivity]]). }
  destruct E as [E1 [E2 E3]]. rewrite E1, escapeString_rune, E3 by exact E2.
  reflexivity.
Qed.

Lemma occurs_refl (p : list byte) : occurs p p.
Proof. exists [], []. cbn. rewrite app_nil_r. reflexivity. Qed.

Lemma occurs_app (sub a p b : list byte) :
  occurs sub p -> occurs sub (a ++ p ++ b).
Proof.
  intros [l [r ->]]. exists (a ++ l), (r ++ b).
  rewrite <- !app_assoc. reflexivity.
Qed.

Lemma occurs_prefix (sub a p : list byte) :
  occurs sub p -> occurs sub (a ++ p).
Proof.
  intros [l [r ->]]. exists (a ++ l), r. rewrite <- !app_assoc. reflexivity.
Qed.

Lemma occurs_suffix (sub p b : list byte) :
  occurs sub p -> occurs sub (p ++ b).
Proof.
  intros [l [r ->]]. exists l, (r ++ b). rewrite <- !app_assoc. reflexivity.
Qed.

Lemma occurs_joinComma (sub x : list byte) (l : list (list byte)) :
  In x l -> occurs sub x -> occurs sub (joinComma l).
Proof.
  intros Hin Hx. induction l as [|y l IH]; [contradiction|].
  destruct l as [|z l].
  - destruct Hin as [-> | []]. exact Hx.
  - rewrite joinComma_cons. destruct Hin as [-> | Hin].
    + apply occurs_suffix. exact Hx.
    + apply occurs_prefix, occurs_prefix, IH, Hin.
Qed.

(** Every string of a value is written as [appendString] writes it. *)
Lemma encodeValue_strings (e : bool) (s : list byte) (v : value) :
  stringIn s v -> occurs (appendString e s) (encodeValue e v).
Proof.
  induction v as [| b | f | s0 | l IH | l | m IH] using value_ind';
    intros H; inversion H as [| l0 v0 Hin Hv | l0 Hin | m0 v0 Hin
                              | m0 k0 v0 Hin Hv]; subst;
    cbn [encodeValue].
  - apply occurs_refl.
  - apply occurs_app. rewrite Forall_forall in IH.
    apply (occurs_joinComma _ (encodeValue e v0)).
    + apply in_map. exact Hin.
    + apply IH; assumption.
  - apply occurs_app. apply (occurs_joinComma _ (appendString e s)).
    + apply in_map. exact Hin.
    + apply occurs_refl.
  - apply occurs_app.
    apply (occurs_joinComma _
             (appendString e s ++ [x3a] ++ encodeValue e v0)).
    + apply (in_map (fun kv => appendString e (fst kv) ++ [x3a]
                               ++ encodeValue e (snd kv)) m (s, v0)).
      exact Hin.
    + apply occurs_suffix, occurs_refl.
  - apply occurs_app. rewrite Forall_forall in IH.
    apply (occurs_joinComma _
             (appendString e k0 ++ [x3a] ++ encodeValue e v0)).
    + apply (in_map (fun kv => appendString e (fst kv) ++ [x3a]
                               ++ encodeValue e (snd kv)) m (k0, v0)).
      exact Hin.
    + apply occurs_prefix, occurs_prefix. apply (IH (k0, v0) Hin Hv).
Qed.

(** C9: [encode] writes the markup bytes of a string as they are: a
    string of the encoded value that holds [<], [>] or [&] occurs in the
    output with that byte, unescaped, between the encodings of the text
    before and behind it; the sentinel occurs as it is spelled. *)
Theorem encode_keeps_markup (buf : list byte) (v : iface)
  (s1 s2 : list byte) (c : byte) :
  c = x3c \/ c = x3e \/ c = x26 ->
  stringIn (s1 ++ c :: s2) (ifaceValue v) ->
  occurs ([x22] ++ escapeString false s1 ++ [c] ++ escapeString false s2
          ++ [x22])
    (fst (encode buf v))
  /\ snd (encode buf v) = None
  /\ appendString false ScrubbedReplacement
     = [x22] ++ ScrubbedReplacement ++ [x22].
Proof.
  intros Hc Hin. split; [|split; reflexivity].
  unfold encode, Encode. cbn [fst].
  assert (E : marshal false v = encodeValue false (ifaceValue v)).
  { destruct v; cbn [marshal ifaceValue];
      [apply encodeProcessParameters_value | reflexivity]. }
  rewrite E. apply occurs_app.
  pose proof (encodeValue_strings false _ _ Hin) as H.
  unfold appendString in H.
  assert (Ha : (code c < 0x80)%N)
    by (destruct Hc as [-> | [-> | ->]]; vm_compute; reflexivity).
  rewrite (escapeString_split false c s2 Ha _ s1 (Nat.le_refl _)) in H.
  rewrite (escapeString_markup c s2 Hc) in H.
  rewrite <- app_assoc in H. exact H.
Qed.

(** C10, as amended: past the three checks, a successful result of each
    operation ends with the newline of the encoder, and so does the string
    that the exec scrubber stores under ProcessParameters when that string
    passes
    the checks of the structured redactor itself; an input that does not
    end with a newline is never returned as it was. *)
Theorem output_ends_with_newline (_scrub : Z) (b out : list byte) :
  IsScrubbingEnabled _scrub = true -> hasKeywords b = true ->
  Valid b = true ->
  ((ScrubProcessParameters _scrub b = (out, None)
    \/ ScrubBridgeCreate _scrub b = (out, None)
    \/ ScrubBridgeExecProcess _scrub b = (out, None)) ->
   exists p, out = p ++ [x0a])
  /\ (ScrubBridgeExecProcess _scrub b = (out, None) ->
      forall root st s,
        UnmarshalMap b [] = (root, None) ->
        lookup (lit "Settings") root = Some (VMap st) ->
        lookup (lit "ProcessParameters") st = Some (VString s) ->
        hasKeywords s = true -> Valid s = true ->
        exists p,
          out = encodeValue false
                  (VMap (assign (lit "Settings")
                     (VMap (assign (lit "ProcessParameters")
                              (VString (p ++ [x0a])) st)) root))
                ++ [x0a])
  /\ ((ScrubProcessParameters _scrub b = (out, None)
       \/ ScrubBridgeCreate _scrub b = (out, None)
       \/ ScrubBridgeExecProcess _scrub b = (out, None)) ->
      (forall p, b <> p ++ [x0a]) -> out <> b).
Proof.
  intros He Hk Hv.
  assert (Hnl : (ScrubProcessParameters _scrub b = (out, None)
                 \/ ScrubBridgeCreate _scrub b = (out, None)
                 \/ ScrubBridgeExecProcess _scrub b = (out, None)) ->
                exists p, out = p ++ [x0a]);
    [|split; [exact Hnl|split;
       [|intros H Hb E; destruct (Hnl H) as [p Hp]; apply (Hb p); congruence]]].
  - unfold ScrubBridgeCreate, ScrubBridgeExecProcess. intros [H | [H | H]].
    + rewrite (ScrubProcessParameters_decoded _ _ He Hk Hv) in H.
      destruct (UnmarshalProcessParameters b _) as [pp [err|]];
        [discriminate|].
      eexists. apply (f_equal fst) in H. cbn [fst] in H. symmetry. exact H.
    + rewrite (scrubBytes_decoded _ _ _ He Hk Hv) in H.
      destruct (UnmarshalMap b []) as [root [err|]]; [discriminate|].
      destruct (scrubLinuxHostedSystem (Some []) root) as [[err|] root1];
        [discriminate|].
      eexists. apply (f_equal fst) in H. cbn [fst] in H. symmetry. exact H.
    + rewrite (scrubBytes_decoded _ _ _ He Hk Hv) in H.
      destruct (UnmarshalMap b []) as [root [err|]]; [discriminate|].
      destruct (scrubExecuteProcess _scrub (Some []) root)
        as [[err|] root1]; [discriminate|].
      eexists. apply (f_equal fst) in H. cbn [fst] in H. symmetry. exact H.
  - unfold ScrubBridgeExecProcess. intros H root st s Hu H1 H2 Hks Hvs.
    rewrite (scrubBytes_decoded _ _ _ He Hk Hv), Hu in H.
    destruct (scrubExecuteProcess _scrub (Some []) root)
      as [[err|] root1] eqn:Hs; [discriminate|].
    destruct (scrubExecuteProcess_inv _ _ _ Hs)
      as [Ha [Hc [st0 [s0 [s' [G1 [G2 [G3 ->]]]]]]]].
    assert (st0 = st) by congruence. subst st0.
    assert (s0 = s) by congruence. subst s0.
    rewrite (ScrubProcessParameters_decoded _ _ He Hks Hvs) in G3.
    destruct (UnmarshalProcessParameters s _) as [pp [err|]];
      [discriminate|].
    apply (f_equal fst) in G3. cbn [fst] in G3. subst s'.
    eexists. apply (f_equal fst) in H. cbn [fst] in H. symmetry. exact H.
Qed.


(** ** The scrubbers on the tree: what they read, what they change *)

Lemma assign_assign {V} (k : list byte) (v v' : V)
  (m : list (list byte * V)) :
  assign k v (assign k v' m) = assign k v m.
Proof.
  induction m as [|[k' w] m IH]; cbn [assign].
  - rewrite compareBytes_refl. reflexivity.
  - destruct (compareBytes k k') eqn:E; cbn [assign].
    + rewrite compareBytes_refl. reflexivity.
    + rewrite compareBytes_refl. reflexivity.
    + rewrite E, IH. reflexivity.
Qed.

Lemma mapIndex_state (m : genMap) (k : list byte)
  (root : list (list byte * value)) :
  snd (mapIndex m k root) = root.
Proof.
  unfold mapIndex. destruct m as [path|]; [|reflexivity].
  destruct (getAt root path) as [mm|]; [|reflexivity].
  destruct (lookup k mm); reflexivity.
Qed.

Lemma mapIndex_ok (m : genMap) (k : list byte)
  (root : list (list byte * value)) (v : value) :
  fst (mapIndex m k root) = (v, true) ->
  exists path mm,
    m = Some path /\ getAt root path = Some mm /\ lookup k mm = Some v.
Proof.
  unfold mapIndex. destruct m as [path|]; [|discriminate].
  destruct (getAt root path) as [mm|] eqn:E; [|discriminate].
  destruct (lookup k mm) as [w|] eqn:E'; [|discriminate].
  cbn [fst]. intros H. injection H as ->. exists path, mm. auto.
Qed.

Lemma index_state (m : genMap) (s : list byte)
  (root : list (list byte * value)) :
  snd (index m s root) = root.
Proof.
  unfold index, bind.
  pose proof (mapIndex_state m s root) as Hs.
  destruct (mapIndex m s root) as [[v ok] r]. cbn [snd] in Hs. subst r.
  destruct ok; [|reflexivity].
  destruct v, m; reflexivity.
Qed.

Lemma isRequestBase_state (m : genMap) (root : list (list byte * value)) :
  snd (isRequestBase m root) = root.
Proof.
  unfold isRequestBase, bind.
  pose proof (mapIndex_state m (lit "ActivityId") root) as Hs.
  destruct (mapIndex m (lit "ActivityId") root) as [[v ok] r].
  cbn [snd] in Hs. subst r.
  pose proof (mapIndex_state m (lit "ContainerId") root) as Hs.
  destruct (mapIndex m (lit "ContainerId") root) as [[v' ok'] r].
  cbn [snd] in Hs. subst r. reflexivity.
Qed.

(** X3: [index] and [isRequestBase] only read: the tree is the same after
    the call.  When [index] reports [ok], the reference it returns is the
    given one extended by the key, and it resolves to a map of the tree,
    the one stored under the key; so the reference a scrubber stores
    through is never the nil map. *)
Theorem index_reads_only (m : genMap) (s : list byte)
  (root : list (list byte * value)) :
  snd (index m s root) = root
  /\ snd (isRequestBase m root) = root
  /\ (forall m', fst (index m s root) = (m', true) ->
        exists path mm mm',
          m = Some path /\ m' = Some (path ++ [s])
          /\ getAt root path = Some mm
          /\ lookup s mm = Some (VMap mm')
          /\ getAt root (path ++ [s]) = Some mm').
Proof.
  split; [apply index_state|split; [apply isRequestBase_state|]].
  intros m'. unfold index, bind.
  pose proof (mapIndex_ok m s root) as Hk.
  pose proof (mapIndex_state m s root) as Hs.
  destruct (mapIndex m s root) as [[v ok] r]. cbn [snd] in Hs. subst r.
  destruct ok; [|cbn; intros H; discriminate].
  destruct (Hk v eq_refl) as [path [mm [-> [Hg Hl]]]].
  destruct v; cbn [ret fst]; intros H; try discriminate.
  injection H as <-. exists path, mm, m.
  repeat split; auto.
  rewrite getAt_snoc, Hg, Hl. reflexivity.
Qed.

(** A scrubber that reports an error has not touched the tree. *)
Ltac reads :=
  repeat match goal with
  | |- context [isRequestBase ?m ?root] =>
      let Hs := fresh "Hs" in
      pose proof (isRequestBase_state m root) as Hs;
      destruct (isRequestBase m root) as [[|] ?]; cbn [snd] in Hs; subst;
      cbn [negb ret]
  | |- context [index ?m ?s ?root] =>
      let Hs := fresh "Hs" in
      pose proof (index_state m s root) as Hs;
      destruct (index m s root) as [[? [|]] ?]; cbn [snd] in Hs; subst;
      cbn [ret]
  | |- context [mapIndex ?m ?s ?root] =>
      let Hs := fresh "Hs" in
      pose proof (mapIndex_state m s root) as Hs;
      destruct (mapIndex m s root) as [[? [|]] ?]; cbn [snd] in Hs; subst;
      cbn [ret]
  end.

Lemma scrubLinuxHostedSystem_error (m : genMap)
  (root root1 : list (list byte * value)) (err : error) :
  scrubLinuxHostedSystem m root = (Some err, root1) -> root1 = root.
Proof.
  unfold scrubLinuxHostedSystem, bind. reads;
    unfold ret, mapAssign; try (intros H; congruence).
  destruct g1; intros H; discriminate.
Qed.

Lemma scrubExecuteProcess_error (_scrub : Z) (m : genMap)
  (root root1 : list (list byte * value)) (err : error) :
  scrubExecuteProcess _scrub m root = (Some err, root1) -> root1 = root.
Proof.
  unfold scrubExecuteProcess, bind. reads;
    unfold ret, mapAssign; try (intros H; congruence).
  destruct v; try (intros H; congruence).
  destruct (ScrubProcessParameters _scrub s) as [s' [e|]].
  - intros H; congruence.
  - destruct g; intros H; discriminate.
Qed.

(** X4: the create scrubber changes one entry.  A failure leaves the tree
    as it was.  After a success the map under ContainerConfig,
    OciSpecification, process holds the one-element sentinel list under
    env, and every other key of the four maps on the way holds what it
    held before. *)
Theorem scrubLinuxHostedSystem_frame (root root1 : list (list byte * value))
  (r : option error) :
  scrubLinuxHostedSystem (Some []) root = (r, root1) ->
  match r with
  | Some _ => root1 = root
  | None =>
      exists cc oci proc cc1 oci1 proc1,
        lookup (lit "ContainerConfig") root = Some (VMap cc)
        /\ lookup (lit "OciSpecification") cc = Some (VMap oci)
        /\ lookup (lit "process") oci = Some (VMap proc)
        /\ lookup (lit "ContainerConfig") root1 = Some (VMap cc1)
        /\ lookup (lit "OciSpecification") cc1 = Some (VMap oci1)
        /\ lookup (lit "process") oci1 = Some (VMap proc1)
        /\ lookup (lit "env") proc1 = Some (VStrings [ScrubbedReplacement])
        /\ (forall k, k <> lit "ContainerConfig" ->
              lookup k root1 = lookup k root)
        /\ (forall k, k <> lit "OciSpecification" ->
              lookup k cc1 = lookup k cc)
        /\ (forall k, k <> lit "process" -> lookup k oci1 = lookup k oci)
        /\ (forall k, k <> lit "env" -> lookup k proc1 = lookup k proc)
  end.
Proof.
  intros H. destruct r as [err|].
  - exact (scrubLinuxHostedSystem_error _ _ _ _ H).
  - apply scrubLinuxHostedSystem_inv in H.
    destruct H as [_ [_ [cc [oci [proc [e [H1 [H2 [H3 [H4 ->]]]]]]]]]].
    exists cc, oci, proc.
    exists (assign (lit "OciSpecification")
              (VMap (assign (lit "process")
                 (VMap (assign (lit "env")
                          (VStrings [ScrubbedReplacement]) proc)) oci)) cc).
    exists (assign (lit "process")
              (VMap (assign (lit "env")
                       (VStrings [ScrubbedReplacement]) proc)) oci).
    exists (assign (lit "env") (VStrings [ScrubbedReplacement]) proc).
    repeat split; try assumption;
      try apply lookup_assign_eq;
      intros k Hk; apply lookup_assign_neq; exact Hk.
Qed.

(** X5: the exec scrubber changes one entry.  A failure leaves the tree as
    it was.  After a success the map under Settings holds under
    ProcessParameters the string [ScrubProcessParameters] returned for the
    string held before, and every other key of the two maps holds what it
    held before. *)
Theorem scrubExecuteProcess_frame (_scrub : Z)
  (root root1 : list (list byte * value)) (r : option error) :
  scrubExecuteProcess _scrub (Some []) root = (r, root1) ->
  match r with
  | Some _ => root1 = root
  | None =>
      exists st st1 s s',
        lookup (lit "Settings") root = Some (VMap st)
        /\ lookup (lit "ProcessParameters") st = Some (VString s)
        /\ ScrubProcessParameters _scrub s = (s', None)
        /\ lookup (lit "Settings") root1 = Some (VMap st1)
        /\ lookup (lit "ProcessParameters") st1 = Some (VString s')
        /\ (forall k, k <> lit "Settings" -> lookup k root1 = lookup k root)
        /\ (forall k, k <> lit "ProcessParameters" ->
              lookup k st1 = lookup k st)
  end.
Proof.
  intros H. destruct r as [err|].
  - exact (scrubExecuteProcess_error _ _ _ _ _ H).
  - apply scrubExecuteProcess_inv in H.
    destruct H as [_ [_ [st [s [s' [H1 [H2 [H3 ->]]]]]]]].
    exists st, (assign (lit "ProcessParameters") (VString s') st), s, s'.
    repeat split; try assumption;
      try apply lookup_assign_eq;
      intros k Hk; apply lookup_assign_neq; exact Hk.
Qed.


(** ** What the operations return, read back *)

Lemma UnmarshalMap_Valid (b : list byte) (root : list (list byte * value)) :
  UnmarshalMap b [] = (root, None) -> Valid b = true.
Proof.
  unfold UnmarshalMap, Valid.
  destruct (scan b); [reflexivity | discriminate].
Qed.

(** The decoder stores no [[]string]: what it stores is its own normal
    form. *)
Lemma norm_fold_assign (l acc : list (list byte * value)) :
  Forall (fun kv => norm (snd kv) = snd kv) l ->
  map (fun kv => (fst kv, norm (snd kv))) acc = acc ->
  map (fun kv => (fst kv, norm (snd kv)))
    (fold_left (fun a kv => assign (fst kv) (snd kv) a) l acc)
  = fold_left (fun a kv => assign (fst kv) (snd kv) a) l acc.
Proof.
  intros Hl. revert acc. induction Hl as [|[k v] l Hkv Hl IH]; intros acc Ha.
  - exact Ha.
  - cbn [fold_left fst snd] in *. apply IH.
    rewrite map_assign, Ha, Hkv. reflexivity.
Qed.

Lemma norm_valueInterface (j : json) :
  norm (valueInterface j) = valueInterface j.
Proof.
  induction j as [| b | s | s | l IH | l IH] using json_ind';
    cbn [valueInterface norm]; try reflexivity.
  - destruct (ParseFloat s); reflexivity.
  - f_equal. rewrite map_map. apply map_ext_in. intros x Hx.
    rewrite Forall_forall in IH. auto.
  - f_equal. apply norm_fold_assign; [|reflexivity].
    rewrite Forall_forall in *. intros y Hy.
    apply in_map_iff in Hy. destruct Hy as [kv [<- Hkv]]. cbn [snd]. auto.
Qed.

Lemma UnmarshalMap_plain (data : list byte)
  (root : list (list byte * value)) (err : option error) :
  UnmarshalMap data [] = (root, err) ->
  map (fun kv => (fst kv, norm (snd kv))) root = root.
Proof.
  unfold UnmarshalMap. intros H.
  destruct (scan data) as [j|]; [|inversion H; reflexivity].
  destruct j; inversion H; subst; try reflexivity.
  pose proof (norm_valueInterface (JObject l)) as Hn.
  cbn [valueInterface norm] in Hn. rewrite objectInterface_fold.
  injection Hn as Hn. exact Hn.
Qed.

Lemma plain_lookup (k : list byte) (m m' : list (list byte * value)) :
  map (fun kv => (fst kv, norm (snd kv))) m = m ->
  lookup k m = Some (VMap m') ->
  map (fun kv => (fst kv, norm (snd kv))) m' = m'.
Proof.
  intros Hm Hl. pose proof (lookup_map norm k m) as H.
  rewrite Hm, Hl in H. cbn [norm] in H. congruence.
Qed.

(** The tree a successful scrubber leaves is well formed. *)
Lemma scrubLinuxHostedSystem_wf (root root1 : list (list byte * value)) :
  wfValue (VMap root) = true ->
  scrubLinuxHostedSystem (Some []) root = (None, root1) ->
  wfValue (VMap root1) = true.
Proof.
  intros Wroot Hs.
  destruct (scrubLinuxHostedSystem_inv _ _ Hs)
    as [Ha [Hc [cc [oci [proc [e [H1 [H2 [H3 [H4 ->]]]]]]]]]].
  destruct utf8Valid_lit_keys as [K1 [K2 [K3 [K4 _]]]].
  pose proof (wfValue_lookup _ _ _ Wroot H1) as Wcc.
  pose proof (wfValue_lookup _ _ _ Wcc H2) as Woci.
  pose proof (wfValue_lookup _ _ _ Woci H3) as Wproc.
  repeat (apply wfValue_assign; auto).
Qed.

Lemma scrubExecuteProcess_wf (_scrub : Z)
  (root root1 : list (list byte * value)) :
  wfValue (VMap root) = true ->
  scrubExecuteProcess _scrub (Some []) root = (None, root1) ->
  wfValue (VMap root1) = true.
Proof.
  intros Wroot Hs.
  destruct (scrubExecuteProcess_inv _ _ _ Hs)
    as [Ha [Hc [st [s [s' [H1 [H2 [H3 ->]]]]]]]].
  destruct utf8Valid_lit_keys as [_ [_ [_ [_ [K1 K2]]]]].
  pose proof (wfValue_lookup _ _ _ Wroot H1) as Wst.
  pose proof (wfValue_lookup _ _ _ Wst H2) as Ws. cbn [wfValue] in Ws.
  assert (Ws' : wfValue (VString s' : value) = true).
  { cbn [wfValue]. apply utf8Valid_iff.
    eapply ScrubProcessParameters_valid; [|exact H3].
    apply utf8Valid_iff, Ws. }
  repeat (apply wfValue_assign; auto).
Qed.

(** X6: the create message read back.  For a message that decodes into an
    envelope with the two base keys and an env entry in the map under
    ContainerConfig, OciSpecification, process, the operation succeeds, and
    what it returns decodes into the envelope of the input with the env
    entry replaced by the one-element list of the sentinel: every other
    entry of the tree comes back as it was. *)
Theorem ScrubBridgeCreate_decodes (_scrub : Z) (b : list byte)
  (root proc : list (list byte * value)) (e : value) :
  IsScrubbingEnabled _scrub = true -> hasKeywords b = true ->
  UnmarshalMap b [] = (root, None) ->
  hasKey (lit "ActivityId") root = true ->
  hasKey (lit "ContainerId") root = true ->
  getAt root [lit "ContainerConfig"; lit "OciSpecification"; lit "process"]
  = Some proc ->
  lookup (lit "env") proc = Some e ->
  exists out,
    ScrubBridgeCreate _scrub b = (out, None)
    /\ UnmarshalMap out []
       = (setAt root
            [lit "ContainerConfig"; lit "OciSpecification"; lit "process"]
            (lit "env") (VSlice [VString ScrubbedReplacement]), None).
Proof.
  intros He Hk Hu Ha Hc Hg H4.
  cbn [getAt] in Hg.
  destruct (lookup (lit "ContainerConfig") root) as [[| | | | | |cc]|] eqn:H1;
    try discriminate.
  destruct (lookup (lit "OciSpecification") cc) as [[| | | | | |oci]|] eqn:H2;
    try discriminate.
  destruct (lookup (lit "process") oci) as [[| | | | | |proc']|] eqn:H3;
    try discriminate.
  injection Hg as ->.
  pose proof (scrubLinuxHostedSystem_found _ _ _ _ _ Ha Hc H1 H2 H3 H4) as Hs.
  eexists. split.
  - unfold ScrubBridgeCreate.
    rewrite (scrubBytes_decoded _ _ _ He Hk (UnmarshalMap_Valid _ _ Hu)).
    rewrite Hu, Hs. reflexivity.
  - rewrite UnmarshalMap_encode
      by (first
            [ exact (scrubLinuxHostedSystem_wf _ _
                       (UnmarshalMap_wf _ _ _ Hu) Hs)
            | exact (scrubLinuxHostedSystem_nesting _ _
                       (UnmarshalMap_nesting _ _ _ Hu) Hs) ]).
    f_equal. cbn [setAt]. rewrite H1, H2, H3.
    pose proof (UnmarshalMap_plain _ _ _ Hu) as P0.
    pose proof (plain_lookup _ _ _ P0 H1) as P1.
    pose proof (plain_lookup _ _ _ P1 H2) as P2.
    pose proof (plain_lookup _ _ _ P2 H3) as P3.
    rewrite map_assign, P0. cbn [norm].
    rewrite map_assign, P1. cbn [norm].
    rewrite map_assign, P2. cbn [norm].
    rewrite map_assign, P3. reflexivity.
Qed.

(** X7: the exec message read back.  For a message that decodes into an
    envelope with the two base keys and a string under Settings,
    ProcessParameters for which [ScrubProcessParameters] succeeds, the
    operation succeeds, and what it returns decodes into the envelope of
    the input with that string replaced by the scrubbed one: every other
    entry of the tree comes back as it was. *)
Theorem ScrubBridgeExecProcess_decodes (_scrub : Z) (b : list byte)
  (root st : list (list byte * value)) (s s' : list byte) :
  IsScrubbingEnabled _scrub = true -> hasKeywords b = true ->
  UnmarshalMap b [] = (root, None) ->
  hasKey (lit "ActivityId") root = true ->
  hasKey (lit "ContainerId") root = true ->
  getAt root [lit "Settings"] = Some st ->
  lookup (lit "ProcessParameters") st = Some (VString s) ->
  ScrubProcessParameters _scrub s = (s', None) ->
  exists out,
    ScrubBridgeExecProcess _scrub b = (out, None)
    /\ UnmarshalMap out []
       = (setAt root [lit "Settings"] (lit "ProcessParameters") (VString s'),
          None).
Proof.
  intros He Hk Hu Ha Hc Hg H2 H3.
  cbn [getAt] in Hg.
  destruct (lookup (lit "Settings") root) as [[| | | | | |st']|] eqn:H1;
    try discriminate.
  injection Hg as ->.
  pose proof (scrubExecuteProcess_settings _scrub _ _ _ Ha Hc H1 H2) as Hs.
  cbn beta iota in Hs. rewrite H3 in Hs.
  eexists. split.
  - unfold ScrubBridgeExecProcess.
    rewrite (scrubBytes_decoded _ _ _ He Hk (UnmarshalMap_Valid _ _ Hu)).
    rewrite Hu, Hs. reflexivity.
  - rewrite UnmarshalMap_encode
      by (first
            [ exact (scrubExecuteProcess_wf _ _ _
                       (UnmarshalMap_wf _ _ _ Hu) Hs)
            | exact (scrubExecuteProcess_nesting _ _ _
                       (UnmarshalMap_nesting _ _ _ Hu) Hs) ]).
    f_equal. cbn [setAt]. rewrite H1.
    pose proof (UnmarshalMap_plain _ _ _ Hu) as P0.
    pose proof (plain_lookup _ _ _ P0 H1) as P1.
    rewrite map_assign, P0. cbn [norm].
    rewrite map_assign, P1. reflexivity.
Qed.


(** ** The inner string of an exec message *)

(** X8: an exec message whose ProcessParameters string holds no keyword, or
    is no valid JSON, is not redacted: with scrubbing enabled, a keyword in
    the message and the two base keys, the operation succeeds and returns
    the envelope as decoded from the input, encoded again and followed by a
    newline; it decodes into the same envelope, the string unchanged. *)
Theorem exec_inner_passthrough (_scrub : Z) (b : list byte)
  (root st : list (list byte * value)) (s : list byte) :
  IsScrubbingEnabled _scrub = true -> hasKeywords b = true ->
  UnmarshalMap b [] = (root, None) ->
  hasKey (lit "ActivityId") root = true ->
  hasKey (lit "ContainerId") root = true ->
  lookup (lit "Settings") root = Some (VMap st) ->
  lookup (lit "ProcessParameters") st = Some (VString s) ->
  hasKeywords s = false \/ Valid s = false ->
  ScrubBridgeExecProcess _scrub b
  = (encodeValue false (VMap root) ++ [x0a], None)
  /\ UnmarshalMap (encodeValue false (VMap root) ++ [x0a]) [] = (root, None).
Proof.
  intros He Hk Hu Ha Hc H1 H2 Hp.
  pose proof (UnmarshalMap_wf _ _ _ Hu) as Wroot.
  pose proof (wfValue_lookup _ _ _ Wroot H1) as Wst.
  pose proof (scrubExecuteProcess_settings _scrub _ _ _ Ha Hc H1 H2) as Hs.
  cbn beta iota in Hs.
  rewrite (ScrubProcessParameters_passthrough _scrub s) in Hs by auto.
  rewrite (assign_same _ _ st) in Hs
    by (try apply sortedKeys_strong; try exact H2;
        cbn [wfValue] in Wst; apply andb_true_iff in Wst; apply Wst).
  rewrite (assign_same _ _ root) in Hs
    by (try apply sortedKeys_strong; try exact H1;
        cbn [wfValue] in Wroot; apply andb_true_iff in Wroot; apply Wroot).
  split.
  - unfold ScrubBridgeExecProcess.
    rewrite (scrubBytes_decoded _ _ _ He Hk (UnmarshalMap_Valid _ _ Hu)).
    rewrite Hu, Hs. reflexivity.
  - rewrite (UnmarshalMap_encode _ Wroot (UnmarshalMap_nesting _ _ _ Hu)).
    rewrite (UnmarshalMap_plain _ _ _ Hu). reflexivity.
Qed.

(** X9: a failure of [ScrubProcessParameters] on the inner string is the
    failure of the exec operation: with scrubbing enabled, a keyword in the
    message and the two base keys, the error the inner call returns is
    returned as it is, with no output. *)
Theorem exec_inner_error (_scrub : Z) (b : list byte)
  (root st : list (list byte * value)) (s r : list byte) (err : error) :
  IsScrubbingEnabled _scrub = true -> hasKeywords b = true ->
  UnmarshalMap b [] = (root, None) ->
  hasKey (lit "ActivityId") root = true ->
  hasKey (lit "ContainerId") root = true ->
  lookup (lit "Settings") root = Some (VMap st) ->
  lookup (lit "ProcessParameters") st = Some (VString s) ->
  ScrubProcessParameters _scrub s = (r, Some err) ->
  ScrubBridgeExecProcess _scrub b = ([], Some err).
Proof.
  intros He Hk Hu Ha Hc H1 H2 H3.
  pose proof (scrubExecuteProcess_settings _scrub _ _ _ Ha Hc H1 H2) as Hs.
  cbn beta iota in Hs. rewrite H3 in Hs.
  unfold ScrubBridgeExecProcess.
  rewrite (scrubBytes_decoded _ _ _ He Hk (UnmarshalMap_Valid _ _ Hu)).
  rewrite Hu, Hs. reflexivity.
Qed.

(** ** The errors *)

Lemma UnmarshalProcessParameters_error (s : list byte)
  (pp0 pp : ProcessParameters) (err : error) :
  Valid s = true ->
  UnmarshalProcessParameters s pp0 = (pp, Some err) ->
  err = UnmarshalTypeError.
Proof.
  unfold Valid, UnmarshalProcessParameters.
  destruct (scan s) as [j|]; [intros _|discriminate].
  destruct j; try (intros H; congruence).
  destruct (fold_left storeField l (pp0, false)) as [pp' [|]];
    intros H; congruence.
Qed.

Lemma UnmarshalMap_error (b : list byte)
  (m root : list (list byte * value)) (err : error) :
  Valid b = true ->
  UnmarshalMap b m = (root, Some err) -> err = UnmarshalTypeError.
Proof.
  unfold Valid, UnmarshalMap.
  destruct (scan b) as [j|]; [intros _|discriminate].
  destruct j; try (intros H; congruence).
  destruct (existsb (fun kv => savedError (snd kv)) l); intros H; congruence.
Qed.

Lemma ScrubProcessParameters_error (_scrub : Z) (s r : list byte)
  (err : error) :
  ScrubProcessParameters _scrub s = (r, Some err) ->
  err = UnmarshalTypeError.
Proof.
  unfold ScrubProcessParameters.
  destruct (IsScrubbingEnabled _scrub); cbn [negb orb];
    [|intros H; discriminate].
  destruct (hasKeywords s); cbn [negb orb]; [|intros H; discriminate].
  destruct (Valid s) eqn:Hv; cbn [negb]; [|intros H; discriminate].
  destruct (UnmarshalProcessParameters s
              {| CommandLine := []; Environment := [] |})
    as [pp [e|]] eqn:Hu.
  - intros H. injection H as _ <-.
    exact (UnmarshalProcessParameters_error _ _ _ _ Hv Hu).
  - unfold encode, Encode. intros H; discriminate.
Qed.

Lemma scrubLinuxHostedSystem_errors (m : genMap)
  (root root1 : list (list byte * value)) (err : error) :
  scrubLinuxHostedSystem m root = (Some err, root1) -> err = ErrUnknownType.
Proof.
  unfold scrubLinuxHostedSystem, bind. reads;
    unfold ret, mapAssign; try (intros H; congruence).
  destruct g1; intros H; discriminate.
Qed.

Lemma scrubExecuteProcess_errors (_scrub : Z) (m : genMap)
  (root root1 : list (list byte * value)) (err : error) :
  scrubExecuteProcess _scrub m root = (Some err, root1) ->
  err = ErrUnknownType \/ err = UnmarshalTypeError.
Proof.
  unfold scrubExecuteProcess, bind. reads;
    unfold ret, mapAssign; try (intros H; left; congruence).
  destruct v; try (intros H; left; congruence).
  destruct (ScrubProcessParameters _scrub s) as [s' [e|]] eqn:Hp.
  - intros H. right. injection H as <- _.
    exact (ScrubProcessParameters_error _ _ _ _ Hp).
  - destruct g; intros H; discriminate.
Qed.

Lemma scrubBytes_error_inv (_scrub : Z) (b r : list byte)
  (scrub : scrubberFunc) (err : error) :
  scrubBytes _scrub b scrub = (r, Some err) ->
  IsScrubbingEnabled _scrub = true /\ hasKeywords b = true
  /\ Valid b = true
  /\ (err = UnmarshalTypeError
      \/ exists root root1,
           UnmarshalMap b [] = (root, None)
           /\ scrub (Some []) root = (Some err, root1)).
Proof.
  unfold scrubBytes.
  destruct (IsScrubbingEnabled _scrub); cbn [negb orb];
    [|intros H; discriminate].
  destruct (hasKeywords b); cbn [negb orb]; [|intros H; discriminate].
  destruct (Valid b) eqn:Hv; cbn [negb]; [|intros H; discriminate].
  intros H. repeat (split; [reflexivity|]).
  destruct (UnmarshalMap b []) as [root [e|]] eqn:Hu.
  - left. injection H as _ <-. exact (UnmarshalMap_error _ _ _ _ Hv Hu).
  - right. destruct (scrub (Some []) root) as [[e|] root1] eqn:Hs.
    + injection H as _ <-. exists root, root1. auto.
    + unfold encode, Encode in H. discriminate.
Qed.

(** X10: the errors of the three operations.  An error is returned only
    for input that reached the decoder: scrubbing enabled, a keyword in the
    bytes, valid JSON.  It is never a syntax error, the input having been
    validated before it is decoded: a failure of
    [ScrubProcessParameters] is a type mismatch of the decoder, the create
    operation fails with a type mismatch or the unknown-type error, and so
    does the exec operation. *)
Theorem errors_are_typed (_scrub : Z) (b r : list byte) (err : error) :
  ScrubProcessParameters _scrub b = (r, Some err)
  \/ ScrubBridgeCreate _scrub b = (r, Some err)
  \/ ScrubBridgeExecProcess _scrub b = (r, Some err) ->
  IsScrubbingEnabled _scrub = true /\ hasKeywords b = true
  /\ Valid b = true
  /\ err <> SyntaxError
  /\ (ScrubProcessParameters _scrub b = (r, Some err) ->
      err = UnmarshalTypeError).
Proof.
  intros H.
  assert (Hg : IsScrubbingEnabled _scrub = true /\ hasKeywords b = true
               /\ Valid b = true).
  { destruct H as [H | [H | H]].
    - unfold ScrubProcessParameters in H.
      destruct (IsScrubbingEnabled _scrub); cbn [negb orb] in H;
        [|discriminate].
      destruct (hasKeywords b); cbn [negb orb] in H; [|discriminate].
      destruct (Valid b); cbn [negb] in H; [auto|discriminate].
    - apply scrubBytes_error_inv in H. tauto.
    - apply scrubBytes_error_inv in H. tauto. }
  destruct Hg as [He [Hk Hv]]. repeat (split; [assumption|]).
  split; [|apply ScrubProcessParameters_error].
  destruct H as [H | [H | H]].
  - rewrite (ScrubProcessParameters_error _ _ _ _ H). discriminate.
  - apply scrubBytes_error_inv in H.
    destruct H as [_ [_ [_ [-> | [root [root1 [_ Hs]]]]]]]; [discriminate|].
    rewrite (scrubLinuxHostedSystem_errors _ _ _ _ Hs). discriminate.
  - apply scrubBytes_error_inv in H.
    destruct H as [_ [_ [_ [-> | [root [root1 [_ Hs]]]]]]]; [discriminate|].
    destruct (scrubExecuteProcess_errors _ _ _ _ _ Hs) as [-> | ->];
      discriminate.
Qed.


(** ** What a successful operation returns *)

Lemma ScrubProcessParameters_success_inv (_scrub : Z) (s out : list byte) :
  ScrubProcessParameters _scrub s = (out, None) ->
  out = s
  \/ exists pp,
       UnmarshalProcessParameters s emptyProcessParameters = (pp, None)
       /\ out = encodeProcessParameters false (scrubbed pp) ++ [x0a].
Proof.
  intros H. unfold ScrubProcessParameters in H.
  destruct (negb (IsScrubbingEnabled _scrub) || negb (hasKeywords s)
            || negb (Valid s)); [left; congruence|].
  right.
  change {| CommandLine := []; Environment := [] |}
    with emptyProcessParameters in H.
  destruct (UnmarshalProcessParameters s emptyProcessParameters)
    as [pp [err|]] eqn:Hu; [discriminate|].
  exists pp. split; [reflexivity|].
  change {| CommandLine := CommandLine pp;
            Environment := [(ScrubbedReplacement, ScrubbedReplacement)] |}
    with (scrubbed pp) in H.
  unfold encode, Encode in H. cbn [marshal app] in H.
  apply (f_equal fst) in H. cbn [fst] in H. subst out. reflexivity.
Qed.

Lemma encoded_wellformed (root : list (list byte * value)) :
  wfValue (VMap root) = true ->
  (nesting (VMap root) <= maxNestingDepth)%N ->
  Valid (encodeValue false (VMap root) ++ [x0a]) = true
  /\ ValidUTF8 (encodeValue false (VMap root) ++ [x0a]).
Proof.
  intros W Hd. split; [exact (Valid_encode _ W Hd)|].
  apply ValidUTF8_app; [exact (encodeValue_valid _ _ W)|].
  apply ValidUTF8_ascii; [vm_compute; reflexivity | constructor].
Qed.

(** X11: what a successful operation returns is either its input, byte for
    byte, or a text that is valid JSON and valid UTF-8, whatever the bytes
    of the input were. *)
Theorem scrub_output_wellformed (_scrub : Z) (b out : list byte) :
  ScrubProcessParameters _scrub b = (out, None)
  \/ ScrubBridgeCreate _scrub b = (out, None)
  \/ ScrubBridgeExecProcess _scrub b = (out, None) ->
  out = b \/ (Valid out = true /\ ValidUTF8 out).
Proof.
  intros [H | [H | H]].
  - destruct (ScrubProcessParameters_success_inv _ _ _ H)
      as [-> | [pp [Hu ->]]]; [left; reflexivity|right].
    pose proof (UnmarshalProcessParameters_valid _ _ _ Hu) as Hcl.
    split; [apply (UnmarshalProcessParameters_scrubbed pp Hcl)|].
    apply ValidUTF8_app.
    + rewrite encodeProcessParameters_value. apply encodeValue_valid.
      apply wfValue_ppValue_scrubbed, Hcl.
    + apply ValidUTF8_ascii; [vm_compute; reflexivity | constructor].
  - destruct (scrubBytes_success_inv _ _ _ _ H)
      as [-> | [root [root1 [Hu [Hs ->]]]]]; [left; reflexivity|right].
    apply encoded_wellformed.
    + exact (scrubLinuxHostedSystem_wf _ _ (UnmarshalMap_wf _ _ _ Hu) Hs).
    + exact (scrubLinuxHostedSystem_nesting _ _
               (UnmarshalMap_nesting _ _ _ Hu) Hs).
  - destruct (scrubBytes_success_inv _ _ _ _ H)
      as [-> | [root [root1 [Hu [Hs ->]]]]]; [left; reflexivity|right].
    apply encoded_wellformed.
    + exact (scrubExecuteProcess_wf _ _ _ (UnmarshalMap_wf _ _ _ Hu) Hs).
    + exact (scrubExecuteProcess_nesting _ _ _
               (UnmarshalMap_nesting _ _ _ Hu) Hs).
Qed.

(** ** The environment does not reach the output *)

Lemma setAt_setAt (path : list (list byte)) (k : list byte) (v v' : value)
  (root : list (list byte * value)) :
  setAt (setAt root path k v') path k v = setAt root path k v.
Proof.
  revert root. induction path as [|k0 path IH]; intros root; cbn [setAt].
  - apply assign_assign.
  - destruct (lookup k0 root) as [[| | | | | |m]|] eqn:E;
      cbn [setAt]; rewrite ?E; try reflexivity.
    rewrite lookup_assign_eq, IH. apply assign_assign.
Qed.

Lemma getAt_setAt (path : list (list byte)) (k : list byte) (v : value)
  (root m : list (list byte * value)) :
  getAt root path = Some m ->
  getAt (setAt root path k v) path = Some (assign k v m).
Proof.
  revert root. induction path as [|k0 path IH]; intros root; cbn [getAt setAt].
  - intros H. injection H as ->. reflexivity.
  - destruct (lookup k0 root) as [[| | | | | |m0]|] eqn:E; try discriminate.
    intros H. rewrite lookup_assign_eq. apply IH, H.
Qed.

Lemma hasKey_setAt (path : list (list byte)) (k k0 : list byte) (v : value)
  (root : list (list byte * value)) :
  hasKey k0 root = true -> hasKey k0 (setAt root path k v) = true.
Proof.
  intros H. destruct path as [|k1 path]; cbn [setAt].
  - apply hasKey_assign_other, H.
  - destruct (lookup k1 root) as [[| | | | | |m]|]; try exact H.
    apply hasKey_assign_other, H.
Qed.

Lemma scrubLinuxHostedSystem_setAt (root proc : list (list byte * value))
  (e : value) :
  hasKey (lit "ActivityId") root = true ->
  hasKey (lit "ContainerId") root = true ->
  getAt root [lit "ContainerConfig"; lit "OciSpecification"; lit "process"]
  = Some proc ->
  lookup (lit "env") proc = Some e ->
  scrubLinuxHostedSystem (Some []) root
  = (None,
     setAt root
       [lit "ContainerConfig"; lit "OciSpecification"; lit "process"]
       (lit "env") (VStrings [ScrubbedReplacement])).
Proof.
  intros Ha Hc Hg H4. cbn [getAt] in Hg. cbn [setAt].
  destruct (lookup (lit "ContainerConfig") root) as [[| | | | | |cc]|] eqn:H1;
    try discriminate.
  destruct (lookup (lit "OciSpecification") cc) as [[| | | | | |oci]|] eqn:H2;
    try discriminate.
  destruct (lookup (lit "process") oci) as [[| | | | | |proc']|] eqn:H3;
    try discriminate.
  injection Hg as ->.
  exact (scrubLinuxHostedSystem_found _ _ _ _ _ Ha Hc H1 H2 H3 H4).
Qed.

(** X12: the create operation hides the environment.  Two messages that
    decode into envelopes which differ only in what is stored under env, in
    the map under ContainerConfig, OciSpecification, process, are scrubbed
    into the same bytes: nothing of the value under env reaches the
    output. *)
Theorem ScrubBridgeCreate_hides_env (_scrub : Z) (b1 b2 : list byte)
  (root1 root2 proc : list (list byte * value)) (e e2 : value) :
  IsScrubbingEnabled _scrub = true ->
  hasKeywords b1 = true -> hasKeywords b2 = true ->
  UnmarshalMap b1 [] = (root1, None) ->
  UnmarshalMap b2 [] = (root2, None) ->
  hasKey (lit "ActivityId") root1 = true ->
  hasKey (lit "ContainerId") root1 = true ->
  getAt root1 [lit "ContainerConfig"; lit "OciSpecification"; lit "process"]
  = Some proc ->
  lookup (lit "env") proc = Some e ->
  root2 = setAt root1
            [lit "ContainerConfig"; lit "OciSpecification"; lit "process"]
            (lit "env") e2 ->
  ScrubBridgeCreate _scrub b2 = ScrubBridgeCreate _scrub b1
  /\ snd (ScrubBridgeCreate _scrub b1) = None.
Proof.
  intros He Hk1 Hk2 Hu1 Hu2 Ha Hc Hg H4 ->.
  unfold ScrubBridgeCreate.
  rewrite (scrubBytes_decoded _ _ _ He Hk1 (UnmarshalMap_Valid _ _ Hu1)).
  rewrite (scrubBytes_decoded _ _ _ He Hk2 (UnmarshalMap_Valid _ _ Hu2)).
  rewrite Hu1, Hu2.
  rewrite (scrubLinuxHostedSystem_setAt _ _ _ Ha Hc Hg H4).
  rewrite (scrubLinuxHostedSystem_setAt _ (assign (lit "env") e2 proc) e2
             (hasKey_setAt _ _ _ _ _ Ha) (hasKey_setAt _ _ _ _ _ Hc)
             (getAt_setAt _ _ _ _ _ Hg) (lookup_assign_eq _ _ _)).
  rewrite setAt_setAt. split; reflexivity.
Qed.

(** ** The flag and the keywords *)

(** X1: the flag.  [IsScrubbingEnabled] reads what [SetScrubbing] stored,
    and with the flag set to false each of the three operations returns
    any input as it is, with no error. *)
Theorem SetScrubbing_switch (enable : bool) (b : list byte) :
  IsScrubbingEnabled (SetScrubbing enable) = enable
  /\ ScrubProcessParameters (SetScrubbing false) b = (b, None)
  /\ ScrubBridgeCreate (SetScrubbing false) b = (b, None)
  /\ ScrubBridgeExecProcess (SetScrubbing false) b = (b, None).
Proof.
  split; [apply IsScrubbingEnabled_SetScrubbing|].
  pose proof (IsScrubbingEnabled_SetScrubbing false) as H.
  split; [apply ScrubProcessParameters_passthrough; auto|].
  split; apply scrubBytes_passthrough; auto.
Qed.

(** X2: the keyword test is a test on raw bytes.  It holds exactly when
    the bytes of env or of Environment occur in the input as a contiguous
    run; it then holds of every text the input is part of; and, the
    comparison being case sensitive, it fails on every input without a
    lower-case n. *)
Theorem hasKeywords_raw_bytes (b l r : list byte) :
  (hasKeywords b = true <->
   occurs (lit "env") b \/ occurs (lit "Environment") b)
  /\ (hasKeywords b = true -> hasKeywords (l ++ b ++ r) = true)
  /\ (~ In x6e b -> hasKeywords b = false).
Proof.
  split; [apply hasKeywords_spec|]. split.
  - intros H. apply hasKeywords_spec. apply hasKeywords_spec in H.
    destruct H as [H | H]; [left | right]; apply occurs_app, H.
  - intros Hn. destruct (hasKeywords b) eqn:E; [|reflexivity].
    exfalso. apply Hn. apply hasKeywords_spec in E.
    destruct E as [[p [q ->]] | [p [q ->]]];
      apply in_or_app; right; apply in_or_app; left; cbn; tauto.
Qed.

End Scrub.

(** * Package [runc]: the pid file and the log of runc *)

Lemma HasSuffix_spec (s p : list byte) :
  HasSuffix s p = true <-> exists l, s = l ++ p.
Proof.
  unfold HasSuffix. rewrite andb_true_iff, Nat.leb_le, bytes_eqb_eq. split.
  - intros [Hl He].
    exists (firstn (List.length s - List.length p) s).
    rewrite <- (firstn_skipn (List.length s - List.length p) s) at 1.
    rewrite He. reflexivity.
  - intros [l ->]. rewrite length_app. split; [lia|].
    replace (List.length l + List.length p - List.length p)%nat
      with (List.length l + 0)%nat by lia.
    rewrite skipn_app, Nat.add_comm, skipn_all2 by lia.
    replace (0 + List.length l - List.length l)%nat with 0%nat by lia.
    reflexivity.
Qed.

Lemma occurs_trans (a b c : list byte) :
  occurs a b -> occurs b c -> occurs a c.
Proof.
  intros [l [r ->]] [l' [r' ->]]. exists (l' ++ l), (r ++ r').
  rewrite <- !app_assoc. reflexivity.
Qed.

Lemma Cause_asError (l : standardLogEntry) :
  Cause (asError l)
  = Cause (asError {| Level := Level l; Message := Message l; Err := None |}).
Proof.
  unfold asError. cbn [Message Err].
  destruct (Err l); cbn [Cause]; reflexivity.
Qed.

(** X13: which entries [asError] turns into [ErrContainerDoesNotExist]:
    those whose message is the word container, any text, and the words does
    not exist, and no other; whatever else the message matches, and whether
    the entry carries an error of its own, which only wraps the result. *)
Theorem asError_does_not_exist (l : standardLogEntry) :
  Cause (asError l) = ErrContainerDoesNotExist
  <-> exists mid,
        Message l = lit "container" ++ mid ++ lit "does not exist".
Proof.
  rewrite Cause_asError. unfold asError. cbn [Message Err].
  destruct (HasPrefix (Message l) (lit "container")
            && HasSuffix (Message l) (lit "does not exist")) eqn:E.
  - cbn [Cause]. split; [intros _|reflexivity].
    apply andb_true_iff in E. destruct E as [E1 E2].
    apply HasPrefix_spec in E1. destruct E1 as [r Hr].
    apply HasSuffix_spec in E2. destruct E2 as [p Hp].
    rewrite Hr in Hp. apply app_eq_app in Hp.
    destruct Hp as [x [[H1 H2] | [H1 H2]]].
    + destruct x as [|d x].
      * exists []. rewrite Hr. cbn [app] in H2. rewrite <- H2. reflexivity.
      * exfalso. assert (Hd : d = x64) by (cbn in H2; congruence). subst d.
        assert (Hin : In x64 (lit "container"))
          by (rewrite H1; apply in_or_app; right; left; reflexivity).
        cbn in Hin. repeat (destruct Hin as [Hin | Hin]; [discriminate|]).
        exact Hin.
    + exists x. rewrite Hr, H2. reflexivity.
  - split.
    + destruct (Contains (Message l) (lit "container with id exists")
                || Contains (Message l)
                     (lit "container with given ID already exists"));
        [cbn [Cause]; discriminate|].
      destruct (Contains (Message l) (lit "invalid id format")
                || Contains (Message l) (lit "invalid container ID format"));
        [cbn [Cause]; discriminate|].
      destruct (Contains (Message l) (lit "container")
                && Contains (Message l) (lit "that is not stopped"));
        cbn [Cause]; discriminate.
    + intros [mid Hm]. exfalso.
      assert (E' : HasPrefix (Message l) (lit "container")
                   && HasSuffix (Message l) (lit "does not exist") = true).
      { apply andb_true_iff. split.
        - apply HasPrefix_spec. eexists. exact Hm.
        - apply HasSuffix_spec. exists (lit "container" ++ mid).
          rewrite Hm, <- app_assoc. reflexivity. }
      congruence.
Qed.

(** X14: a message in which neither the word container nor the words
    invalid id format occur matches no sentinel: [asError] gives the error
    made of the message itself, wrapped when the entry carries an error of
    its own. *)
Theorem asError_unclassified (l : standardLogEntry) :
  ~ occurs (lit "container") (Message l) ->
  ~ occurs (lit "invalid id format") (Message l) ->
  Cause (asError l) = errorsNew (Message l)
  /\ (Err l = None -> asError l = errorsNew (Message l)).
Proof.
  intros Hc Hi.
  assert (H : asError {| Level := Level l; Message := Message l;
                         Err := None |} = errorsNew (Message l)).
  { unfold asError. cbn [Message Err].
    assert (N1 : HasPrefix (Message l) (lit "container") = false).
    { destruct (HasPrefix (Message l) (lit "container")) eqn:E;
        [|reflexivity].
      exfalso. apply Hc. apply HasPrefix_spec in E. destruct E as [r ->].
      exists [], r. reflexivity. }
    assert (N2 : forall sub, occurs (lit "container") sub ->
                   Contains (Message l) sub = false).
    { intros sub Hs. destruct (Contains (Message l) sub) eqn:E;
        [|reflexivity].
      exfalso. apply Hc. apply Contains_spec in E.
      exact (occurs_trans _ _ _ Hs E). }
    assert (N3 : Contains (Message l) (lit "invalid id format") = false).
    { destruct (Contains (Message l) (lit "invalid id format")) eqn:E;
        [|reflexivity].
      exfalso. apply Hi. apply Contains_spec, E. }
    rewrite N1, N3.
    rewrite (N2 (lit "container with id exists"))
      by (exists [], (lit " with id exists"); reflexivity).
    rewrite (N2 (lit "container with given ID already exists"))
      by (exists [], (lit " with given ID already exists"); reflexivity).
    rewrite (N2 (lit "invalid container ID format"))
      by (exists (lit "invalid "), (lit " ID format"); reflexivity).
    rewrite (N2 (lit "container"))
      by (exists [], []; reflexivity).
    reflexivity. }
  split.
  - rewrite Cause_asError, H. reflexivity.
  - intros He. rewrite <- H. destruct l as [lv msg er].
    cbn [Err Level Message] in *. subst er. reflexivity.
Qed.

(** X18: [asError] returns a sentinel only for a message with the words of
    that sentinel in it, and otherwise the error made of the message: under
    the wrapper, the result is one of the four sentinels or
    [errors.New(msg)], the already-exists sentinel needs one of its two
    phrases, the invalid-id sentinel one of its two, the not-stopped
    sentinel both the word container and the words that is not stopped, in
    either order. *)
Theorem asError_sound (l : standardLogEntry) :
  match Cause (asError l) with
  | ErrContainerDoesNotExist =>
      (exists r, Message l = lit "container" ++ r)
      /\ (exists p, Message l = p ++ lit "does not exist")
  | ErrContainerAlreadyExists =>
      occurs (lit "container with id exists") (Message l)
      \/ occurs (lit "container with given ID already exists") (Message l)
  | ErrInvalidContainerID =>
      occurs (lit "invalid id format") (Message l)
      \/ occurs (lit "invalid container ID format") (Message l)
  | ErrContainerNotStopped =>
      occurs (lit "container") (Message l)
      /\ occurs (lit "that is not stopped") (Message l)
  | errorsNew text => text = Message l
  | _ => False
  end.
Proof.
  rewrite Cause_asError. unfold asError. cbn [Message Err].
  destruct (HasPrefix (Message l) (lit "container")
            && HasSuffix (Message l) (lit "does not exist")) eqn:E1.
  { cbn [Cause]. apply andb_true_iff in E1. destruct E1 as [E1 E2].
    split; [apply HasPrefix_spec, E1 | apply HasSuffix_spec, E2]. }
  destruct (Contains (Message l) (lit "container with id exists")
            || Contains (Message l)
                 (lit "container with given ID already exists")) eqn:E2.
  { cbn [Cause]. apply orb_true_iff in E2.
    destruct E2 as [E2 | E2]; [left | right]; apply Contains_spec, E2. }
  destruct (Contains (Message l) (lit "invalid id format")
            || Contains (Message l) (lit "invalid container ID format"))
    eqn:E3.
  { cbn [Cause]. apply orb_true_iff in E3.
    destruct E3 as [E3 | E3]; [left | right]; apply Contains_spec, E3. }
  destruct (Contains (Message l) (lit "container")
            && Contains (Message l) (lit "that is not stopped")) eqn:E4.
  { cbn [Cause]. apply andb_true_iff in E4. destruct E4 as [E4 E5].
    split; apply Contains_spec; assumption. }
  reflexivity.
Qed.

Lemma last_cons {A} (x d : A) (l : list A) : last (x :: l) d = last l x.
Proof.
  revert x d. induction l as [|y l IH]; intros x d; [reflexivity|].
  change (last (x :: y :: l) d) with (last (y :: l) d).
  rewrite (IH y d), (IH y x). reflexivity.
Qed.

Lemma getRuncLogErrorLoop_spec (ErrorLevel : N)
  (es : list standardLogEntry) (tail : list (option standardLogEntry))
  (lastErr : option goError) :
  tail = [] \/ (exists rest, tail = None :: rest) ->
  getRuncLogErrorLoop ErrorLevel (map Some es ++ tail) lastErr
  = match filter (fun e => (Level e <=? ErrorLevel)%N) es with
    | [] => lastErr
    | x :: xs => Some (asError (last xs x))
    end.
Proof.
  intros Ht. revert lastErr.
  induction es as [|e es IH]; intros lastErr.
  - cbn [map app filter].
    destruct Ht as [-> | [rest ->]]; reflexivity.
  - cbn [map app filter getRuncLogErrorLoop]. rewrite IH.
    destruct (Level e <=? ErrorLevel)%N.
    + destruct (filter (fun e0 => (Level e0 <=? ErrorLevel)%N) es)
        as [|y ys]; [reflexivity|].
      rewrite last_cons. reflexivity.
    + reflexivity.
Qed.

(** X15: the error [getRuncLogError] reads from a log.  Of the entries
    decoded before the first call of the decoder that fails, it is the last
    one with a level of [ErrorLevel] or more severe that counts: its
    [asError] is returned, and [nil] when there is none.  What follows the
    failed call is not read, and a log that cannot be opened gives [nil] as
    well. *)
Theorem getRuncLogError_last (ErrorLevel : N) (es : list standardLogEntry)
  (tail : list (option standardLogEntry)) :
  tail = [] \/ (exists rest, tail = None :: rest) ->
  getRuncLogError ErrorLevel (Some (map Some es ++ tail))
  = match filter (fun e => (Level e <=? ErrorLevel)%N) es with
    | [] => None
    | x :: xs => Some (asError (last xs x))
    end
  /\ getRuncLogError ErrorLevel None = None.
Proof.
  intros Ht. split; [|reflexivity].
  unfold getRuncLogError. apply getRuncLogErrorLoop_spec, Ht.
Qed.

Lemma parseDigits_digits (s : list byte) (acc n : N) :
  parseDigits acc s = Some n -> forallb isDigit s = true.
Proof.
  revert acc. induction s as [|c s IH]; intros acc; [reflexivity|].
  cbn [parseDigits forallb]. unfold digitOf, isDigit.
  destruct (between 48 57 c); [|discriminate].
  intros H. exact (IH _ H).
Qed.

Lemma isDigit_not_sign (c : byte) :
  isDigit c = true -> Byte.eqb c x2d = false /\ Byte.eqb c x2b = false.
Proof.
  unfold isDigit, between. rewrite !byte_eqb_code.
  change (code x2d) with 45%N. change (code x2b) with 43%N.
  intros H. apply andb_true_iff in H. destruct H as [H _].
  apply N.leb_le in H. split; apply N.eqb_neq; lia.
Qed.

Lemma formatNat_nonempty (n : N) : formatNat n <> [].
Proof.
  unfold formatNat. cbn [formatDigits].
  destruct (n <? 10)%N; [discriminate|].
  destruct (formatDigits (N.size_nat n) (n / 10)); discriminate.
Qed.

Lemma Atoi_formatNat (n : N) :
  (Z.of_N n < 2 ^ 63)%Z -> Atoi (formatNat n) = Some (Z.of_N n).
Proof.
  intros Hn. pose proof (formatNat_nonempty n) as Hne. unfold formatNat in *.
  destruct (formatDigits_spec _ n (size_nat_bound n)) as [H1 [H2 _]].
  unfold Atoi.
  destruct (formatDigits (S (N.size_nat n)) n) as [|c s] eqn:E;
    [congruence|].
  cbn [forallb] in H2. apply andb_true_iff in H2. destruct H2 as [Hc _].
  destruct (isDigit_not_sign _ Hc) as [-> ->]. cbn [orb].
  rewrite H1. apply Z.ltb_lt in Hn. rewrite Hn. reflexivity.
Qed.

(** X16: the pid file round trip.  A file that holds the decimal text of a
    pid, as [strconv.Itoa] writes it, is read back as that pid, with no
    error, for every pid in the range of [int]. *)
Theorem readPidFile_Itoa (pidFile : list byte) (pid : Z) :
  (- 2 ^ 63 <= pid < 2 ^ 63)%Z ->
  readPidFile pidFile (Some (Itoa pid)) = (pid, None).
Proof.
  intros Hp. unfold readPidFile, Itoa.
  destruct (Z.ltb_spec pid 0) as [Hneg | Hpos].
  - unfold Atoi. rewrite byte_eqb_refl. cbn [orb].
    pose proof (formatNat_nonempty (Z.to_N (- pid))) as Hne.
    unfold formatNat in *.
    destruct (formatDigits_spec _ (Z.to_N (- pid))
                (size_nat_bound (Z.to_N (- pid)))) as [H1 _].
    destruct (formatDigits (S (N.size_nat (Z.to_N (- pid))))
                (Z.to_N (- pid))) as [|c s]; [congruence|].
    rewrite H1. rewrite Z2N.id by lia.
    destruct (Z.leb_spec (- pid) (2 ^ 63)) as [_ | H]; [|lia].
    rewrite Z.opp_involutive. reflexivity.
  - rewrite Atoi_formatNat by (rewrite Z2N.id; lia).
    rewrite Z2N.id by lia. reflexivity.
Qed.

(** X17: what [readPidFile] accepts.  With an error the pid returned is
    -1.  Without one the file was read, it is not empty, every byte of it
    after the first is a decimal digit (no space and no newline, in
    particular), the first is a digit or a sign, and the pid is in the
    range of [int]: it may be negative or zero. *)
Theorem readPidFile_strict (pidFile : list byte) (file : option (list byte))
  (pid : Z) (err : option goError) :
  readPidFile pidFile file = (pid, err) ->
  match err with
  | Some _ => pid = (-1)%Z
  | None =>
      exists c data,
        file = Some (c :: data)
        /\ forallb isDigit data = true
        /\ (isDigit c = true \/ c = x2d \/ c = x2b)
        /\ (- 2 ^ 63 <= pid < 2 ^ 63)%Z
  end.
Proof.
  unfold readPidFile. destruct file as [data|].
  2:{ intros H. injection H as <- <-. reflexivity. }
  destruct (Atoi data) as [p|] eqn:E.
  2:{ intros H. injection H as <- <-. reflexivity. }
  intros H. injection H as -> <-.
  unfold Atoi in E. destruct data as [|c s]; [discriminate|].
  exists c, s. split; [reflexivity|].
  destruct (Byte.eqb c x2d) eqn:E1; cbn [orb] in E.
  - apply byte_eqb_eq in E1. subst c.
    destruct s as [|d s]; [discriminate|].
    destruct (parseDigits 0 (d :: s)) as [un|] eqn:Ep; [|discriminate].
    split; [exact (parseDigits_digits _ _ _ Ep)|].
    split; [tauto|].
    destruct (Z.leb_spec (Z.of_N un) (2 ^ 63)); [|discriminate].
    injection E as <-. lia.
  - destruct (Byte.eqb c x2b) eqn:E2.
    + apply byte_eqb_eq in E2. subst c.
      destruct s as [|d s]; [discriminate|].
      destruct (parseDigits 0 (d :: s)) as [un|] eqn:Ep; [|discriminate].
      split; [exact (parseDigits_digits _ _ _ Ep)|].
      split; [tauto|].
      destruct (Z.ltb_spec (Z.of_N un) (2 ^ 63)); [|discriminate].
      injection E as <-. lia.
    + destruct (parseDigits 0 (c :: s)) as [un|] eqn:Ep; [|discriminate].
      pose proof (parseDigits_digits _ _ _ Ep) as Hd.
      cbn [forallb] in Hd. apply andb_true_iff in Hd.
      destruct Hd as [Hc Hs].
      split; [exact Hs|]. split; [tauto|].
      destruct (Z.ltb_spec (Z.of_N un) (2 ^ 63)); [|discriminate].
      injection E as <-. lia.
Qed.

(** ** Paths *)

Lemma isName_spec (e : list byte) :
  isName e = true <->
  e <> [] /\ forallb (fun c => negb (IsPathSeparator c)) e = true
  /\ e <> lit "." /\ e <> lit "..".
Proof.
  unfold isName. rewrite !andb_true_iff, !negb_true_iff, !bytes_eqb_neq.
  tauto.
Qed.

Lemma element_length (path e rest : list byte) :
  element path = (e, rest) ->
  (List.length e + List.length rest = List.length path)%nat.
Proof.
  revert e rest. induction path as [|c path IH]; intros e rest; cbn [element].
  - intros H. injection H as <- <-. reflexivity.
  - destruct (IsPathSeparator c).
    + intros H. injection H as <- <-. reflexivity.
    + destruct (element path) as [e' rest'] eqn:E.
      intros H. injection H as <- <-. cbn [List.length].
      rewrite <- (IH _ _ eq_refl). reflexivity.
Qed.

Lemma element_app (e rest : list byte) :
  forallb (fun c => negb (IsPathSeparator c)) e = true ->
  rest = [] \/ (exists r, rest = x2f :: r) ->
  element (e ++ rest) = (e, rest).
Proof.
  intros He Hr. induction e as [|c e IH]; cbn [app].
  - destruct Hr as [-> | [r ->]]; reflexivity.
  - cbn [forallb] in He. apply andb_true_iff in He. destruct He as [Hc He].
    apply negb_true_iff in Hc. cbn [element]. rewrite Hc, (IH He).
    reflexivity.
Qed.

(** The loop does not depend on the fuel once there is one unit of it for
    each byte left. *)
Lemma cleanLoop_fuel (fuel : nat) :
  forall (fuel' : nat) (rooted : bool) (path out : list byte) (dotdot : nat),
    (List.length path <= fuel)%nat -> (List.length path <= fuel')%nat ->
    cleanLoop fuel rooted path out dotdot
    = cleanLoop fuel' rooted path out dotdot.
Proof.
  induction fuel as [|fuel IH]; intros fuel' rooted path out dotdot H1 H2.
  - destruct path; [|cbn in H1; lia]. destruct fuel'; reflexivity.
  - destruct fuel' as [|fuel'].
    + destruct path; [reflexivity | cbn in H2; lia].
    + cbn [cleanLoop]. destruct path as [|c path1]; [reflexivity|].
      cbn [List.length] in H1, H2.
      destruct (IsPathSeparator c) eqn:Ec; [apply IH; lia|].
      match goal with
      | |- (if ?b then _ else _) = _ => destruct b; [apply IH; lia|]
      end.
      match goal with
      | |- (if ?b then _ else _) = _ => destruct b eqn:Eb
      end.
      * assert (Hl : (List.length (tl path1) <= List.length path1 - 1)%nat)
          by (destruct path1; cbn; lia).
        assert (Hp : (1 <= List.length path1)%nat).
        { destruct path1; [|cbn; lia].
          apply andb_true_iff in Eb. destruct Eb; discriminate. }
        destruct (dotdot <? List.length out)%nat; [apply IH; lia|].
        destruct (negb rooted); apply IH; lia.
      * destruct (element (c :: path1)) as [e rest] eqn:Ee.
        pose proof (element_length _ _ _ Ee) as Hl.
        cbn [element] in Ee. rewrite Ec in Ee.
        destruct (element path1) as [e' rest']. injection Ee as <- <-.
        cbn [List.length] in Hl. apply IH; lia.
Qed.

(** One turn of the loop on a name. *)
Lemma cleanLoop_name (fuel : nat) (e rest out : list byte) (dotdot : nat) :
  isName e = true ->
  rest = [] \/ (exists r, rest = x2f :: r) ->
  cleanLoop (S fuel) true (e ++ rest) out dotdot
  = cleanLoop fuel true rest
      ((if (List.length out =? 1)%nat then out else out ++ [x2f]) ++ e)
      dotdot.
Proof.
  intros He Hr. apply isName_spec in He.
  destruct He as [Hne [Hsep [Hdot Hdd]]].
  pose proof (element_app e rest Hsep Hr) as Hel.
  destruct e as [|c e']; [congruence|].
  cbn [forallb] in Hsep. apply andb_true_iff in Hsep.
  destruct Hsep as [Hc Hsep]. apply negb_true_iff in Hc.
  cbn [app cleanLoop]. rewrite Hc.
  assert (B2 : Byte.eqb c x2e
               && match e' ++ rest with
                  | [] => true
                  | d :: _ => IsPathSeparator d
                  end = false).
  { destruct (Byte.eqb c x2e) eqn:E; [|reflexivity].
    apply byte_eqb_eq in E. subst c. cbn [andb].
    destruct e' as [|d e'']; [exfalso; apply Hdot; reflexivity|].
    cbn [forallb] in Hsep. apply andb_true_iff in Hsep.
    destruct Hsep as [Hd _]. apply negb_true_iff in Hd. exact Hd. }
  assert (B3 : Byte.eqb c x2e
               && match e' ++ rest with
                  | [d] => Byte.eqb d x2e
                  | d :: e2 :: _ => Byte.eqb d x2e && IsPathSeparator e2
                  | [] => false
                  end = false).
  { destruct (Byte.eqb c x2e) eqn:E; [|reflexivity].
    apply byte_eqb_eq in E. subst c. cbn [andb].
    destruct e' as [|d e'']; [exfalso; apply Hdot; reflexivity|].
    assert (Hd : e'' = [] -> Byte.eqb d x2e = false).
    { intros ->. destruct (Byte.eqb d x2e) eqn:E; [|reflexivity].
      apply byte_eqb_eq in E. subst d. exfalso. apply Hdd. reflexivity. }
    destruct e'' as [|x e'''].
    - cbn [app]. destruct Hr as [-> | [r ->]]; rewrite (Hd eq_refl);
        reflexivity.
    - cbn [app]. cbn [forallb] in Hsep.
      apply andb_true_iff in Hsep. destruct Hsep as [_ Hsep].
      apply andb_true_iff in Hsep. destruct Hsep as [Hx _].
      apply negb_true_iff in Hx. rewrite Hx. apply andb_false_r. }
  rewrite B2, B3. cbn [app] in Hel. rewrite Hel. cbn [andb negb orb].
  destruct (List.length out =? 1)%nat; reflexivity.
Qed.

(** What the loop has written after the names [names] of a rooted path. *)
Lemma rootedPath_snoc (names : list (list byte)) (e : list byte) :
  rootedPath (names ++ [e]) = rootedPath names ++ x2f :: e.
Proof.
  unfold rootedPath. rewrite map_app, concat_app. cbn [map List.concat].
  rewrite app_nil_r. reflexivity.
Qed.

Lemma rootedPath_cons (names : list (list byte)) (e : list byte) :
  rootedPath (e :: names) = x2f :: e ++ rootedPath names.
Proof. reflexivity. Qed.

Lemma rootedPath_length (names : list (list byte)) (e : list byte) :
  Forall (fun n => isName n = true) (e :: names) ->
  (2 <= List.length (rootedPath (e :: names)))%nat.
Proof.
  intros H. inversion H as [|? ? He _]; subst.
  apply isName_spec in He. destruct He as [Hne _].
  rewrite rootedPath_cons. cbn [List.length]. rewrite length_app.
  destruct e; [congruence | cbn; lia].
Qed.

Lemma rootedPath_rest (names : list (list byte)) :
  rootedPath names = [] \/ (exists r, rootedPath names = x2f :: r).
Proof.
  destruct names as [|e names]; [left; reflexivity|].
  right. eexists. apply rootedPath_cons.
Qed.

Lemma cleanLoop_names (names2 : list (list byte)) :
  forall (fuel : nat) (e : list byte) (names1 : list (list byte))
         (rest : list byte),
    Forall (fun n => isName n = true) (e :: names1) ->
    Forall (fun n => isName n = true) names2 ->
    rest = [] \/ (exists r, rest = x2f :: r) ->
    (List.length (rootedPath names2 ++ rest) <= fuel)%nat ->
    cleanLoop fuel true (rootedPath names2 ++ rest)
      (rootedPath (e :: names1)) 1
    = cleanLoop (List.length rest) true rest
        (rootedPath (e :: names1 ++ names2)) 1.
Proof.
  induction names2 as [|n names2 IH]; intros fuel e names1 rest H1 H2 Hr Hf.
  - rewrite app_nil_r. cbn [rootedPath map List.concat app] in *.
    apply cleanLoop_fuel; lia.
  - inversion H2 as [|? ? Hn H2']; subst.
    assert (Hn1 : (1 <= List.length n)%nat).
    { apply isName_spec in Hn. destruct n; [tauto | cbn; lia]. }
    rewrite rootedPath_cons in *. cbn [List.length app] in Hf.
    rewrite !length_app in Hf.
    destruct fuel as [|fuel]; [lia|].
    cbn [cleanLoop app]. change (IsPathSeparator x2f) with true. cbn iota.
    destruct fuel as [|fuel]; [lia|].
    rewrite <- app_assoc.
    assert (Hr' : rootedPath names2 ++ rest = []
                  \/ (exists r, rootedPath names2 ++ rest = x2f :: r)).
    { destruct names2 as [|m names2]; [exact Hr|].
      right. rewrite rootedPath_cons. eexists. reflexivity. }
    rewrite (cleanLoop_name fuel n (rootedPath names2 ++ rest) _ 1 Hn Hr').
    pose proof (rootedPath_length _ _ H1) as Hl.
    destruct (Nat.eqb_spec (List.length (rootedPath (e :: names1))) 1)
      as [Heq | _]; [lia|].
    rewrite <- app_assoc. cbn [app].
    rewrite <- rootedPath_snoc.
    change (e :: names1 ++ n :: names2)
      with (e :: names1 ++ [n] ++ names2).
    rewrite app_assoc.
    change ((e :: names1) ++ [n]) with (e :: names1 ++ [n]).
    apply IH; [|exact H2'|exact Hr|rewrite length_app; lia].
    change (e :: names1 ++ [n]) with ((e :: names1) ++ [n]).
    apply Forall_app. split; [exact H1|]. constructor; [exact Hn|constructor].
Qed.

(** [Clean] on a rooted path of names followed by [rest]: the names are
    written as they are, and the loop goes on with [rest]. *)
Lemma Clean_rooted (e : list byte) (names : list (list byte))
  (rest : list byte) :
  Forall (fun n => isName n = true) (e :: names) ->
  rest = [] \/ (exists r, rest = x2f :: r) ->
  Clean (rootedPath (e :: names) ++ rest)
  = match cleanLoop (List.length rest) true rest
            (rootedPath (e :: names)) 1 with
    | [] => lit "."
    | c :: out => c :: out
    end.
Proof.
  intros H Hr. inversion H as [|? ? He Hn]; subst.
  rewrite rootedPath_cons. cbn [app]. unfold Clean.
  change (IsPathSeparator x2f) with true. cbn iota. cbn [List.length].
  rewrite <- app_assoc.
  assert (Hr' : rootedPath names ++ rest = []
                \/ (exists r, rootedPath names ++ rest = x2f :: r)).
  { destruct names as [|m names]; [exact Hr|].
    right. rewrite rootedPath_cons. eexists. reflexivity. }
  rewrite (cleanLoop_name _ e (rootedPath names ++ rest) _ 1 He Hr').
  cbn [List.length Nat.eqb app].
  replace (x2f :: e) with (rootedPath [e])
    by (unfold rootedPath; cbn [map List.concat]; rewrite app_nil_r;
        reflexivity).
  rewrite (cleanLoop_names names _ e [] rest
             (Forall_cons _ He (Forall_nil _)) Hn Hr)
    by (rewrite !length_app; lia).
  cbn [app]. rewrite <- rootedPath_cons.
  destruct (cleanLoop (List.length rest) true rest
              (rootedPath (e :: names)) 1); reflexivity.
Qed.

Lemma Clean_names (names : list (list byte)) (rest : list byte) :
  names <> [] -> Forall (fun n => isName n = true) names ->
  rest = [] \/ (exists r, rest = x2f :: r) ->
  Clean (rootedPath names ++ rest)
  = match cleanLoop (List.length rest) true rest (rootedPath names) 1 with
    | [] => lit "."
    | c :: out => c :: out
    end.
Proof.
  intros Hne H Hr. destruct names as [|e names]; [congruence|].
  apply Clean_rooted; assumption.
Qed.

Lemma Join_rooted (names : list (list byte)) (id : list byte) :
  names <> [] ->
  Join [rootedPath names; id] = Clean (rootedPath names ++ x2f :: id).
Proof.
  intros Hne. destruct names as [|e names]; [congruence|].
  rewrite rootedPath_cons. reflexivity.
Qed.

(** Joining a name to a rooted path of names appends it. *)
Lemma Join_name (names : list (list byte)) (id : list byte) :
  names <> [] -> Forall (fun n => isName n = true) names ->
  isName id = true ->
  Join [rootedPath names; id] = rootedPath (names ++ [id]).
Proof.
  intros Hne H Hid. rewrite (Join_rooted _ _ Hne), <- rootedPath_snoc.
  rewrite <- (app_nil_r (rootedPath (names ++ [id]))) at 1.
  rewrite Clean_names.
  - cbn [List.length cleanLoop]. destruct names; reflexivity.
  - destruct names; discriminate.
  - apply Forall_app. split; [exact H|]. constructor; [exact Hid|constructor].
  - left. reflexivity.
Qed.

Lemma isName_Itoa (i : Z) : isName (Itoa i) = true.
Proof.
  assert (Hd : forall n, exists c s,
             formatNat n = c :: s /\ isDigit c = true
             /\ forallb (fun c => negb (IsPathSeparator c)) (c :: s) = true).
  { intros n. pose proof (formatNat_nonempty n) as Hne. unfold formatNat in *.
    destruct (formatDigits_spec _ n (size_nat_bound n)) as [_ [H2 _]].
    destruct (formatDigits (S (N.size_nat n)) n) as [|c s]; [congruence|].
    exists c, s. split; [reflexivity|].
    split; [cbn [forallb] in H2; apply andb_true_iff in H2; apply H2|].
    apply forallb_forall. intros x Hx.
    rewrite forallb_forall in H2. specialize (H2 x Hx).
    unfold isDigit, between in H2. apply andb_true_iff in H2.
    destruct H2 as [H2 _]. apply N.leb_le in H2.
    unfold IsPathSeparator. rewrite byte_eqb_code.
    change (code x2f) with 47%N. apply negb_true_iff, N.eqb_neq. lia. }
  assert (Hdot : forall c, isDigit c = true -> c <> x2e).
  { intros c Hc ->. vm_compute in Hc. discriminate. }
  apply isName_spec. unfold Itoa.
  destruct (i <? 0)%Z.
  - destruct (Hd (Z.to_N (- i))) as [c [s [-> [Hc Hs]]]].
    repeat split; try discriminate.
    cbn [forallb] in Hs |- *. rewrite Hs. reflexivity.
  - destruct (Hd (Z.to_N i)) as [c [s [-> [Hc Hs]]]].
    repeat split; try discriminate; try exact Hs.
    + intros H. injection H as H _. exact (Hdot c Hc H).
    + intros H. injection H as H _. exact (Hdot c Hc H).
Qed.

(** X19: the directories nest.  With base directories that are rooted
    paths of names, and an id that is a name (not empty, without a
    separator, not a dot or two), the state directory of a container is
    the base directory, a separator and the id; the state directory of a
    process is that of its container, a separator and the pid in decimal;
    the log directory and the log files are formed the same way. *)
Theorem paths_nest (names logNames : list (list byte)) (id : list byte)
  (pid : Z) :
  names <> [] -> Forall (fun n => isName n = true) names ->
  logNames <> [] -> Forall (fun n => isName n = true) logNames ->
  isName id = true ->
  getContainerDir (rootedPath names) id = rootedPath names ++ x2f :: id
  /\ getProcessDir (rootedPath names) id pid
     = getContainerDir (rootedPath names) id ++ x2f :: Itoa pid
  /\ getLogDir (rootedPath logNames) id = rootedPath logNames ++ x2f :: id
  /\ getLogPath (rootedPath logNames) id
     = getLogDir (rootedPath logNames) id ++ lit "/runc.log"
  /\ getGlobalLogPath (rootedPath logNames)
     = rootedPath logNames ++ lit "/global-runc.log".
Proof.
  intros Hn Hnames Hl Hlog Hid.
  unfold getProcessDir, getLogPath, getContainerDir, getLogDir,
    getGlobalLogPath.
  rewrite !(Join_name names id Hn Hnames Hid).
  rewrite !(Join_name logNames id Hl Hlog Hid).
  assert (F1 : Forall (fun n => isName n = true) (names ++ [id]))
    by (apply Forall_app; split; [exact Hnames|];
        constructor; [exact Hid|constructor]).
  assert (F2 : Forall (fun n => isName n = true) (logNames ++ [id]))
    by (apply Forall_app; split; [exact Hlog|];
        constructor; [exact Hid|constructor]).
  rewrite (Join_name (names ++ [id]) (Itoa pid)) by
    (try apply isName_Itoa; try exact F1; destruct names; discriminate).
  rewrite (Join_name (logNames ++ [id]) (lit "runc.log")) by
    (try reflexivity; try exact F2; destruct logNames; discriminate).
  rewrite (Join_name logNames (lit "global-runc.log") Hl Hlog eq_refl).
  rewrite !rootedPath_snoc. repeat split; reflexivity.
Qed.

Lemma nth_forallb {A} (f : A -> bool) (l : list A) (k : nat) (d : A) :
  forallb f l = true -> (k < List.length l)%nat -> f (nth k l d) = true.
Proof.
  intros H Hk. rewrite forallb_forall in H. apply H, nth_In, Hk.
Qed.

(** A [..] after a rooted path of names: back to the separator before the
    last name, or to the root. *)
Lemma backtrack_sep (p e : list byte) (dotdot : nat) :
  (dotdot <= List.length p)%nat ->
  forallb (fun c => negb (IsPathSeparator c)) e = true ->
  forall k fuel,
    (k <= List.length e)%nat -> (k < fuel)%nat ->
    backtrack fuel (p ++ x2f :: e) dotdot (List.length p + k)
    = List.length p.
Proof.
  intros Hd He. induction k as [|k IH]; intros fuel Hk Hf.
  - destruct fuel as [|fuel]; [lia|]. cbn [backtrack].
    rewrite Nat.add_0_r, nth_middle.
    change (IsPathSeparator x2f) with true. rewrite andb_false_r.
    reflexivity.
  - destruct fuel as [|fuel]; [lia|]. cbn [backtrack].
    rewrite app_nth2 by lia.
    replace (List.length p + S k - List.length p)%nat with (S k) by lia.
    cbn [nth]. rewrite (nth_forallb _ e k x00 He) by lia.
    destruct (Nat.ltb_spec dotdot (List.length p + S k)) as [_ | H]; [|lia].
    cbn [andb]. replace (List.length p + S k - 1)%nat
      with (List.length p + k)%nat by lia.
    apply IH; lia.
Qed.

Lemma backtrack_root (e : list byte) :
  forallb (fun c => negb (IsPathSeparator c)) e = true ->
  forall k fuel,
    (k < List.length e)%nat -> (k <= fuel)%nat ->
    backtrack fuel (x2f :: e) 1 (S k) = 1%nat.
Proof.
  intros He. induction k as [|k IH]; intros fuel Hk Hf.
  - destruct fuel; reflexivity.
  - destruct fuel as [|fuel]; [lia|]. cbn [backtrack nth].
    rewrite (nth_forallb _ e (S k) x00 He) by lia.
    cbn [Nat.ltb Nat.leb andb negb].
    replace (S (S k) - 1)%nat with (S k) by lia.
    apply IH; lia.
Qed.

Lemma backtrack_rootedPath (names : list (list byte)) (e : list byte) :
  Forall (fun n => isName n = true) (names ++ [e]) ->
  firstn
    (backtrack (List.length (rootedPath (names ++ [e])))
       (rootedPath (names ++ [e])) 1
       (List.length (rootedPath (names ++ [e])) - 1))
    (rootedPath (names ++ [e]))
  = match names with
    | [] => lit "/"
    | _ :: _ => rootedPath names
    end.
Proof.
  intros H. apply Forall_app in H. destruct H as [Hn He].
  inversion He as [|? ? He' _]; subst. apply isName_spec in He'.
  destruct He' as [Hne [Hsep _]].
  rewrite rootedPath_snoc.
  destruct names as [|n names].
  - cbn [rootedPath map List.concat app List.length].
    destruct e as [|c e]; [congruence|]. cbn [List.length].
    replace (S (S (List.length e)) - 1)%nat with (S (List.length e)) by lia.
    rewrite (backtrack_root (c :: e) Hsep (List.length e))
      by (cbn [List.length]; lia).
    reflexivity.
  - pose proof (rootedPath_length _ _ Hn) as Hl.
    rewrite length_app. cbn [List.length].
    replace (List.length (rootedPath (n :: names)) + S (List.length e) - 1)%nat
      with (List.length (rootedPath (n :: names)) + List.length e)%nat by lia.
    rewrite (backtrack_sep _ e 1) by (try exact Hsep; lia).
    rewrite firstn_app, Nat.sub_diag, firstn_all. cbn [firstn].
    apply app_nil_r.
Qed.

Lemma cleanLoop_sep (fuel : nat) (rooted : bool) (path out : list byte)
  (dotdot : nat) :
  cleanLoop (S fuel) rooted (x2f :: path) out dotdot
  = cleanLoop fuel rooted path out dotdot.
Proof. reflexivity. Qed.

Lemma cleanLoop_dotdot (fuel : nat) (rooted : bool) (rest out : list byte)
  (dotdot : nat) :
  rest = [] \/ (exists r, rest = x2f :: r) ->
  (dotdot <? List.length out)%nat = true ->
  cleanLoop (S fuel) rooted (x2e :: x2e :: rest) out dotdot
  = cleanLoop fuel rooted rest
      (firstn (backtrack (List.length out) out dotdot (List.length out - 1))
         out) dotdot.
Proof.
  intros Hr Hlt. cbn [cleanLoop tl].
  change (IsPathSeparator x2e) with false.
  change (Byte.eqb x2e x2e) with true. cbn [andb negb]. rewrite Hlt.
  destruct Hr as [-> | [r ->]]; reflexivity.
Qed.

Lemma cleanLoop_last_name (fuel : nat) (e out : list byte) (dotdot : nat) :
  isName e = true ->
  cleanLoop (S fuel) true e out dotdot
  = (if (List.length out =? 1)%nat then out else out ++ [x2f]) ++ e.
Proof.
  intros He.
  pose proof (cleanLoop_name fuel e [] out dotdot He (or_introl eq_refl))
    as H.
  rewrite app_nil_r in H. rewrite H. destruct fuel; reflexivity.
Qed.

(** X20: the id is not checked.  With a base directory that is a rooted
    path of names, the empty id gives the base directory itself as the
    state directory of the container, the id of two dots gives the
    directory above it, and an id made of two dots, a separator and a name
    gives a directory beside the base directory, not below it. *)
Theorem getContainerDir_unchecked (names : list (list byte))
  (e x : list byte) :
  Forall (fun n => isName n = true) (names ++ [e]) -> isName x = true ->
  getContainerDir (rootedPath (names ++ [e])) [] = rootedPath (names ++ [e])
  /\ getContainerDir (rootedPath (names ++ [e])) (lit "..")
     = match names with
       | [] => lit "/"
       | _ :: _ => rootedPath names
       end
  /\ getContainerDir (rootedPath (names ++ [e])) (lit "../" ++ x)
     = rootedPath (names ++ [x]).
Proof.
  intros H Hx.
  assert (Hne : names ++ [e] <> []) by (destruct names; discriminate).
  assert (Hl : (2 <= List.length (rootedPath (names ++ [e])))%nat).
  { destruct names as [|n names]; apply (rootedPath_length _ _ H). }
  pose proof (backtrack_rootedPath names e H) as Hb.
  unfold getContainerDir. rewrite !(Join_rooted _ _ Hne).
  assert (Hlt : (1 <? List.length (rootedPath (names ++ [e])))%nat = true)
    by (apply Nat.ltb_lt; lia).
  split; [|split].
  - rewrite Clean_names by (auto; right; eexists; reflexivity).
    cbn [List.length]. rewrite cleanLoop_sep. cbn [cleanLoop].
    destruct names; reflexivity.
  - rewrite Clean_names by (auto; right; eexists; reflexivity).
    change (x2f :: lit "..") with [x2f; x2e; x2e]. cbn [List.length].
    rewrite cleanLoop_sep, (cleanLoop_dotdot _ _ [] _ _ (or_introl eq_refl))
      by exact Hlt.
    rewrite Hb. cbn [cleanLoop]. destruct names; reflexivity.
  - rewrite Clean_names by (auto; right; eexists; reflexivity).
    change (x2f :: lit "../" ++ x) with (x2f :: x2e :: x2e :: x2f :: x).
    cbn [List.length].
    rewrite cleanLoop_sep,
      (cleanLoop_dotdot _ _ (x2f :: x) _ _
         (or_intror (ex_intro _ x eq_refl)))
      by exact Hlt.
    rewrite Hb, cleanLoop_sep.
    assert (Hx1 : exists k, List.length x = S k).
    { apply isName_spec in Hx. destruct x; [tauto|]. eexists. reflexivity. }
    destruct Hx1 as [k Hk]. rewrite Hk.
    rewrite (cleanLoop_last_name _ x _ 1 Hx), rootedPath_snoc.
    destruct names as [|n names].
    + cbn. destruct x; [discriminate Hk | reflexivity].
    + apply Forall_app in H. destruct H as [Hn _].
      pose proof (rootedPath_length _ _ Hn) as Hl2.
      destruct (Nat.eqb_spec (List.length (rootedPath (n :: names))) 1)
        as [Heq | _]; [lia|].
      rewrite <- app_assoc. cbn [app]. rewrite rootedPath_cons.
      reflexivity.
Qed.

(** * The operations at concrete messages *)

Lemma passthrough_unchanged_witness :
  ScrubProcessParameters (F:=natFloat) 1 (jsonText "{'env':") =
    (jsonText "{'env':", None)
  /\ ScrubBridgeCreate (F:=natFloat) 1 (jsonText "{'env':") =
       (jsonText "{'env':", None)
  /\ ScrubBridgeExecProcess (F:=natFloat) 1 (jsonText "{'env':") =
       (jsonText "{'env':", None).
Proof.
  apply (@passthrough_unchanged natFloat 1 (jsonText "{'env':")).
  right; right. vm_compute. reflexivity.
Defined.

(** The scanner at the limit of the nesting: ten thousand arrays, one in
    the other, are valid JSON, and one more is not. *)
Lemma Valid_maxNestingDepth :
  Valid (repeat x5b (N.to_nat 10000) ++ repeat x5d (N.to_nat 10000)) = true
  /\ Valid (repeat x5b (N.to_nat 10001) ++ repeat x5d (N.to_nat 10001))
     = false.
Proof. split; vm_compute; reflexivity. Qed.

(** C1 as stated fails: the message is a valid JSON object with both base
    keys, a keyword and an env entry at the end of the walk, and it holds
    the number 1e400, which is outside the range of [float64];
    [json.Unmarshal] reports it, and the operation returns that error,
    neither the redacted encoding nor ErrUnknownType. *)
Lemma create_out_of_range_counterexample :
  IsScrubbingEnabled 1 = true
  /\ hasKeywords outOfRangeMessage = true
  /\ Valid outOfRangeMessage = true
  /\ (exists l,
        scan outOfRangeMessage = Some (JObject l)
        /\ In (lit "ActivityId") (map fst l)
        /\ In (lit "ContainerId") (map fst l))
  /\ (exists proc e,
        getAt (fst (UnmarshalMap (F:=natFloat) outOfRangeMessage []))
          [lit "ContainerConfig"; lit "OciSpecification"; lit "process"]
        = Some proc
        /\ lookup (lit "env") proc = Some e)
  /\ ScrubBridgeCreate (F:=natFloat) 1 outOfRangeMessage
     = ([], Some UnmarshalTypeError)
  /\ UnmarshalTypeError <> ErrUnknownType.
Proof.
  split; [vm_compute; reflexivity|].
  split; [vm_compute; reflexivity|].
  split; [vm_compute; reflexivity|].
  split.
  { eexists. split; [vm_compute; reflexivity|].
    split; vm_compute; tauto. }
  split.
  { eexists _, _. split; vm_compute; reflexivity. }
  split; [vm_compute; reflexivity | discriminate].
Qed.

Lemma ScrubBridgeCreate_shape_witness :
  ScrubBridgeCreate (F:=natFloat) 1 createMessage
  = (createMessageScrubbed, None).
Proof.
  pose (e := @VSlice N [VString (lit "FOO=bar")]).
  pose (proc := [(lit "cwd", @VString N (lit "/")); (lit "env", e)]).
  pose (oci := [(lit "process", VMap proc)]).
  pose (cc := [(lit "OciSpecification", VMap oci)]).
  pose (root := [(lit "ActivityId", VString (lit "a"));
                 (lit "ContainerConfig", VMap cc);
                 (lit "ContainerId", VString (lit "c"))]).
  assert (H1 : IsScrubbingEnabled 1 = true) by (vm_compute; reflexivity).
  assert (H2 : hasKeywords createMessage = true) by (vm_compute; reflexivity).
  assert (H3 : Valid createMessage = true) by (vm_compute; reflexivity).
  assert (H4 : UnmarshalMap (F:=natFloat) createMessage [] = (root, None))
    by (vm_compute; reflexivity).
  assert (H5 : hasKey (lit "ActivityId") root = true)
    by (vm_compute; reflexivity).
  assert (H6 : hasKey (lit "ContainerId") root = true)
    by (vm_compute; reflexivity).
  assert (G1 : lookup (lit "ContainerConfig") root = Some (VMap cc))
    by (vm_compute; reflexivity).
  assert (G2 : lookup (lit "OciSpecification") cc = Some (VMap oci))
    by (vm_compute; reflexivity).
  assert (G3 : lookup (lit "process") oci = Some (VMap proc))
    by (vm_compute; reflexivity).
  assert (G4 : lookup (lit "env") proc = Some e) by (vm_compute; reflexivity).
  rewrite (proj1 (@ScrubBridgeCreate_shape natFloat 1 createMessage root
                    H1 H2 H3 H4 H5 H6) cc oci proc e G1 G2 G3 G4).
  vm_compute. reflexivity.
Defined.

(** C5 as stated fails: the message is a valid JSON object with a keyword
    and without ActivityId, and it holds the number 1e400; both bridge
    operations return the error of [json.Unmarshal], not ErrUnknownType. *)
Lemma base_out_of_range_counterexample :
  IsScrubbingEnabled 1 = true
  /\ hasKeywords outOfRangeNoActivityMessage = true
  /\ Valid outOfRangeNoActivityMessage = true
  /\ (exists l,
        scan outOfRangeNoActivityMessage = Some (JObject l)
        /\ ~ In (lit "ActivityId") (map fst l))
  /\ ScrubBridgeCreate (F:=natFloat) 1 outOfRangeNoActivityMessage
     = ([], Some UnmarshalTypeError)
  /\ ScrubBridgeExecProcess (F:=natFloat) 1 outOfRangeNoActivityMessage
     = ([], Some UnmarshalTypeError)
  /\ UnmarshalTypeError <> ErrUnknownType.
Proof.
  split; [vm_compute; reflexivity|].
  split; [vm_compute; reflexivity|].
  split; [vm_compute; reflexivity|].
  split.
  { eexists. split; [vm_compute; reflexivity|].
    vm_compute. intuition discriminate. }
  split; [vm_compute; reflexivity|].
  split; [vm_compute; reflexivity | discriminate].
Qed.

Lemma base_signature_required_witness :
  ScrubBridgeCreate (F:=natFloat) 1 noActivityMessage
  = ([], Some ErrUnknownType)
  /\ ScrubBridgeExecProcess (F:=natFloat) 1 noActivityMessage
     = ([], Some ErrUnknownType).
Proof.
  apply (@base_signature_required natFloat 1 noActivityMessage
    (fst (UnmarshalMap noActivityMessage [])) eq_refl eq_refl eq_refl eq_refl).
  left. vm_compute. reflexivity.
Defined.

(** C6 as stated fails: the number 12 under ProcessParameters gives
    ErrUnknownType and no error of another kind. *)
Lemma exec_type_mismatch_counterexample :
  ~ (exists e, e <> ErrUnknownType
       /\ ScrubBridgeExecProcess (F:=natFloat) 1 numberParametersMessage
          = ([], Some e)).
Proof.
  intros [e [Hne H]]. vm_compute in H. congruence.
Qed.

Lemma exec_non_string_unknown_type_witness :
  ScrubBridgeExecProcess (F:=natFloat) 1 numberParametersMessage
  = ([], Some ErrUnknownType).
Proof.
  apply (@exec_non_string_unknown_type natFloat 1 numberParametersMessage
    (fst (UnmarshalMap numberParametersMessage []))
    [(lit "ProcessParameters", @VFloat N 12%N)]
    (@VFloat N 12%N)
    eq_refl eq_refl eq_refl eq_refl eq_refl eq_refl eq_refl eq_refl).
  intros s. discriminate.
Defined.

Lemma errors_abort_witness :
  ScrubBridgeCreate (F:=natFloat) 1 (jsonText "['env']")
  = ([], Some UnmarshalTypeError).
Proof.
  apply (proj1 (proj2 (@errors_abort natFloat 1 (jsonText "['env']")
                         eq_refl eq_refl eq_refl))
           scrubLinuxHostedSystem []).
  vm_compute. reflexivity.
Defined.


Lemma exec_redacts_parameters_witness :
  exists out root' st' s',
    ScrubBridgeExecProcess (F:=natFloat) 1 execMessage = (out, None)
    /\ UnmarshalMap (F:=natFloat) out [] = (root', None)
    /\ lookup (lit "Settings") root' = Some (VMap st')
    /\ lookup (lit "ProcessParameters") st' = Some (VString s')
    /\ UnmarshalProcessParameters s' emptyProcessParameters
       = ({| CommandLine := lit "sh <&>";
             Environment := [(ScrubbedReplacement, ScrubbedReplacement)] |},
          None).
Proof.
  pose (st := [(lit "ProcessParameters", @VString N execParameters)]).
  pose (root := [(lit "ActivityId", VString (lit "a"));
                 (lit "ContainerId", VString (lit "c"));
                 (lit "Settings", VMap st)]).
  assert (H1 : IsScrubbingEnabled 1 = true) by (vm_compute; reflexivity).
  assert (H2 : hasKeywords execMessage = true) by (vm_compute; reflexivity).
  assert (H3 : Valid execMessage = true) by (vm_compute; reflexivity).
  assert (H4 : UnmarshalMap (F:=natFloat) execMessage [] = (root, None))
    by (vm_compute; reflexivity).
  assert (H5 : hasKey (lit "ActivityId") root = true)
    by (vm_compute; reflexivity).
  assert (H6 : hasKey (lit "ContainerId") root = true)
    by (vm_compute; reflexivity).
  assert (H7 : lookup (lit "Settings") root = Some (VMap st))
    by (vm_compute; reflexivity).
  assert (H8 : lookup (lit "ProcessParameters") st
               = Some (VString execParameters))
    by (vm_compute; reflexivity).
  assert (H9 : UnmarshalProcessParameters execParameters
                 emptyProcessParameters
               = ({| CommandLine := lit "sh <&>";
                     Environment := [(lit "SECRET", lit "x")] |}, None))
    by (vm_compute; reflexivity).
  assert (H10 : hasKeywords execParameters = true)
    by (vm_compute; reflexivity).
  exact (@exec_redacts_parameters natFloat natFloat_laws 1 execMessage root st
           execParameters _ H1 H2 H3 H4 H5 H6 H7 H8 H9 H10).
Defined.

(** C2 as stated fails: the string under ProcessParameters spells its key
    with an escape, decodes into a structure with the Environment
    SECRET=x, and comes back from the exec scrubber as it went in. *)
Lemma exec_escaped_key_counterexample :
  IsScrubbingEnabled 1 = true
  /\ hasKeywords escapedKeyMessage = true
  /\ Valid escapedKeyMessage = true
  /\ hasKey (lit "ActivityId")
       (fst (UnmarshalMap (F:=natFloat) escapedKeyMessage [])) = true
  /\ hasKey (lit "ContainerId")
       (fst (UnmarshalMap (F:=natFloat) escapedKeyMessage [])) = true
  /\ snd (ScrubBridgeExecProcess (F:=natFloat) 1 escapedKeyMessage) = None
  /\ match lookup (lit "Settings")
             (fst (UnmarshalMap (F:=natFloat)
                     (fst (ScrubBridgeExecProcess (F:=natFloat) 1
                             escapedKeyMessage)) []))
     with
     | Some (VMap st') =>
         match lookup (lit "ProcessParameters") st' with
         | Some (VString s') =>
             UnmarshalProcessParameters s' emptyProcessParameters
             = ({| CommandLine := [];
                   Environment := [(lit "SECRET", lit "x")] |}, None)
             /\ Environment
                  (fst (UnmarshalProcessParameters s' emptyProcessParameters))
                <> [(ScrubbedReplacement, ScrubbedReplacement)]
         | _ => False
         end
     | _ => False
     end.
Proof.
  repeat split; try (vm_compute; reflexivity).
  vm_compute. discriminate.
Qed.

Lemma scrub_idempotent_witness :
  ScrubBridgeCreate (F:=natFloat) 1 createMessageScrubbed
  = (createMessageScrubbed, None).
Proof.
  apply (proj1 (proj2 (@scrub_idempotent natFloat natFloat_laws 1
                         createMessage createMessageScrubbed))).
  vm_compute. reflexivity.
Defined.

Lemma encode_keeps_markup_witness :
  occurs (jsonText "'sh <&>'")
    (fst (encode (F:=natFloat) []
            (IProcessParameters
               {| CommandLine := lit "sh <&>";
                  Environment := scrubbedEnvironment |})))
  /\ snd (encode (F:=natFloat) []
            (IProcessParameters
               {| CommandLine := lit "sh <&>";
                  Environment := scrubbedEnvironment |})) = None
  /\ appendString false ScrubbedReplacement
     = [x22] ++ ScrubbedReplacement ++ [x22].
Proof.
  apply (@encode_keeps_markup natFloat []
           (IProcessParameters
              {| CommandLine := lit "sh <&>";
                 Environment := scrubbedEnvironment |})
           (lit "sh ") (lit "&>") x3c).
  - left. reflexivity.
  - cbv [ifaceValue ppValue CommandLine Environment scrubbedEnvironment].
    eapply stringIn_member; [left; reflexivity | apply stringIn_string].
Defined.

(** C10 as stated fails: the exec operation decodes and encodes this
    message again, so the result is not the input, but the string under
    ProcessParameters holds no keyword in its bytes, is stored back as it
    was, and does not end with a newline. *)
Lemma exec_stored_string_counterexample :
  IsScrubbingEnabled 1 = true
  /\ hasKeywords escapedKeyMessage = true
  /\ Valid escapedKeyMessage = true
  /\ snd (ScrubBridgeExecProcess (F:=natFloat) 1 escapedKeyMessage) = None
  /\ fst (ScrubBridgeExecProcess (F:=natFloat) 1 escapedKeyMessage)
     <> escapedKeyMessage
  /\ match lookup (lit "Settings")
             (fst (UnmarshalMap (F:=natFloat)
                     (fst (ScrubBridgeExecProcess (F:=natFloat) 1
                             escapedKeyMessage)) []))
     with
     | Some (VMap st') =>
         match lookup (lit "ProcessParameters") st' with
         | Some (VString s') => last s' x00 <> x0a
         | _ => False
         end
     | _ => False
     end.
Proof.
  repeat split; try (vm_compute; reflexivity); vm_compute; discriminate.
Qed.

Lemma output_ends_with_newline_witness :
  exists p, createMessageScrubbed = p ++ [x0a].
Proof.
  assert (H1 : IsScrubbingEnabled 1 = true) by (vm_compute; reflexivity).
  assert (H2 : hasKeywords createMessage = true) by (vm_compute; reflexivity).
  assert (H3 : Valid createMessage = true) by (vm_compute; reflexivity).
  apply (proj1 (@output_ends_with_newline natFloat 1 createMessage
                  createMessageScrubbed H1 H2 H3)).
  right; left. vm_compute. reflexivity.
Defined.

(** ** The scrubbers at concrete trees *)

Lemma index_reads_only_witness :
  let root := fst (UnmarshalMap (F:=natFloat) createMessage []) in
  exists path mm mm',
    Some [] = Some path
    /\ Some [lit "ContainerConfig"] = Some (path ++ [lit "ContainerConfig"])
    /\ getAt root path = Some mm
    /\ lookup (lit "ContainerConfig") mm = Some (VMap mm')
    /\ getAt root (path ++ [lit "ContainerConfig"]) = Some mm'.
Proof.
  intros root.
  apply (proj2 (proj2 (@index_reads_only natFloat (Some [])
                         (lit "ContainerConfig") root))
           (Some [lit "ContainerConfig"])).
  vm_compute. reflexivity.
Defined.

Lemma scrubLinuxHostedSystem_frame_witness :
  let root := fst (UnmarshalMap (F:=natFloat) createMessage []) in
  let root1 := snd (scrubLinuxHostedSystem (Some []) root) in
  exists cc oci proc cc1 oci1 proc1,
    lookup (lit "ContainerConfig") root = Some (VMap cc)
    /\ lookup (lit "OciSpecification") cc = Some (VMap oci)
    /\ lookup (lit "process") oci = Some (VMap proc)
    /\ lookup (lit "ContainerConfig") root1 = Some (VMap cc1)
    /\ lookup (lit "OciSpecification") cc1 = Some (VMap oci1)
    /\ lookup (lit "process") oci1 = Some (VMap proc1)
    /\ lookup (lit "env") proc1 = Some (VStrings [ScrubbedReplacement])
    /\ (forall k, k <> lit "ContainerConfig" ->
          lookup k root1 = lookup k root)
    /\ (forall k, k <> lit "OciSpecification" -> lookup k cc1 = lookup k cc)
    /\ (forall k, k <> lit "process" -> lookup k oci1 = lookup k oci)
    /\ (forall k, k <> lit "env" -> lookup k proc1 = lookup k proc).
Proof.
  intros root root1.
  assert (H : scrubLinuxHostedSystem (Some []) root = (None, root1))
    by (vm_compute; reflexivity).
  exact (@scrubLinuxHostedSystem_frame natFloat root root1 None H).
Defined.

Lemma scrubExecuteProcess_frame_witness :
  let root := fst (UnmarshalMap (F:=natFloat) execMessage []) in
  let root1 := snd (scrubExecuteProcess 1 (Some []) root) in
  exists st st1 s s',
    lookup (lit "Settings") root = Some (VMap st)
    /\ lookup (lit "ProcessParameters") st = Some (VString s)
    /\ ScrubProcessParameters (F:=natFloat) 1 s = (s', None)
    /\ lookup (lit "Settings") root1 = Some (VMap st1)
    /\ lookup (lit "ProcessParameters") st1 = Some (VString s')
    /\ (forall k, k <> lit "Settings" -> lookup k root1 = lookup k root)
    /\ (forall k, k <> lit "ProcessParameters" ->
          lookup k st1 = lookup k st).
Proof.
  intros root root1.
  assert (H : scrubExecuteProcess 1 (Some []) root = (None, root1))
    by (vm_compute; reflexivity).
  exact (@scrubExecuteProcess_frame natFloat 1 root root1 None H).
Defined.

Lemma ScrubBridgeCreate_decodes_witness :
  let root := fst (UnmarshalMap (F:=natFloat) createMessage []) in
  exists out,
    ScrubBridgeCreate (F:=natFloat) 1 createMessage = (out, None)
    /\ UnmarshalMap out []
       = (setAt root
            [lit "ContainerConfig"; lit "OciSpecification"; lit "process"]
            (lit "env") (VSlice [VString ScrubbedReplacement]), None).
Proof.
  intros root.
  pose (e := @VSlice N [VString (lit "FOO=bar")]).
  pose (proc := [(lit "cwd", @VString N (lit "/")); (lit "env", e)]).
  assert (H1 : IsScrubbingEnabled 1 = true) by (vm_compute; reflexivity).
  assert (H2 : hasKeywords createMessage = true) by (vm_compute; reflexivity).
  assert (H3 : UnmarshalMap (F:=natFloat) createMessage [] = (root, None))
    by (vm_compute; reflexivity).
  assert (H4 : hasKey (lit "ActivityId") root = true)
    by (vm_compute; reflexivity).
  assert (H5 : hasKey (lit "ContainerId") root = true)
    by (vm_compute; reflexivity).
  assert (H6 : getAt root [lit "ContainerConfig"; lit "OciSpecification";
                           lit "process"] = Some proc)
    by (vm_compute; reflexivity).
  assert (H7 : lookup (lit "env") proc = Some e) by (vm_compute; reflexivity).
  exact (@ScrubBridgeCreate_decodes natFloat natFloat_laws 1 createMessage
           root proc e H1 H2 H3 H4 H5 H6 H7).
Defined.

Lemma ScrubBridgeExecProcess_decodes_witness :
  let root := fst (UnmarshalMap (F:=natFloat) execMessage []) in
  exists out,
    ScrubBridgeExecProcess (F:=natFloat) 1 execMessage = (out, None)
    /\ UnmarshalMap out []
       = (setAt root [lit "Settings"] (lit "ProcessParameters")
            (VString (fst (ScrubProcessParameters (F:=natFloat) 1
                             execParameters))), None).
Proof.
  intros root.
  pose (st := [(lit "ProcessParameters", @VString N execParameters)]).
  assert (H1 : IsScrubbingEnabled 1 = true) by (vm_compute; reflexivity).
  assert (H2 : hasKeywords execMessage = true) by (vm_compute; reflexivity).
  assert (H3 : UnmarshalMap (F:=natFloat) execMessage [] = (root, None))
    by (vm_compute; reflexivity).
  assert (H4 : hasKey (lit "ActivityId") root = true)
    by (vm_compute; reflexivity).
  assert (H5 : hasKey (lit "ContainerId") root = true)
    by (vm_compute; reflexivity).
  assert (H6 : getAt root [lit "Settings"] = Some st)
    by (vm_compute; reflexivity).
  assert (H7 : lookup (lit "ProcessParameters") st
               = Some (VString execParameters))
    by (vm_compute; reflexivity).
  assert (H8 : ScrubProcessParameters (F:=natFloat) 1 execParameters
               = (fst (ScrubProcessParameters (F:=natFloat) 1
                         execParameters), None))
    by (vm_compute; reflexivity).
  exact (@ScrubBridgeExecProcess_decodes natFloat natFloat_laws 1 execMessage
           root st execParameters _ H1 H2 H3 H4 H5 H6 H7 H8).
Defined.

Lemma exec_inner_passthrough_witness :
  let root := fst (UnmarshalMap (F:=natFloat) escapedKeyMessage []) in
  ScrubBridgeExecProcess (F:=natFloat) 1 escapedKeyMessage
  = (encodeValue false (VMap root) ++ [x0a], None)
  /\ UnmarshalMap (encodeValue false (VMap root) ++ [x0a]) [] = (root, None).
Proof.
  intros root.
  pose (s := jsonText "{'" ++ [x5c]
             ++ jsonText "u0045nvironment':{'SECRET':'x'}}").
  pose (st := [(lit "ProcessParameters", @VString N s)]).
  assert (H1 : IsScrubbingEnabled 1 = true) by (vm_compute; reflexivity).
  assert (H2 : hasKeywords escapedKeyMessage = true)
    by (vm_compute; reflexivity).
  assert (H3 : UnmarshalMap (F:=natFloat) escapedKeyMessage [] = (root, None))
    by (vm_compute; reflexivity).
  assert (H4 : hasKey (lit "ActivityId") root = true)
    by (vm_compute; reflexivity).
  assert (H5 : hasKey (lit "ContainerId") root = true)
    by (vm_compute; reflexivity).
  assert (H6 : lookup (lit "Settings") root = Some (VMap st))
    by (vm_compute; reflexivity).
  assert (H7 : lookup (lit "ProcessParameters") st = Some (VString s))
    by (vm_compute; reflexivity).
  assert (H8 : hasKeywords s = false) by (vm_compute; reflexivity).
  exact (@exec_inner_passthrough natFloat natFloat_laws 1 escapedKeyMessage
           root st s H1 H2 H3 H4 H5 H6 H7 (or_introl H8)).
Defined.

Lemma exec_inner_error_witness :
  ScrubBridgeExecProcess (F:=natFloat) 1
    (jsonText "{'ActivityId':'a','ContainerId':'c','Settings':{'ProcessParameters':'{\'Environment\':5}'}}")
  = ([], Some UnmarshalTypeError).
Proof.
  pose (b := jsonText "{'ActivityId':'a','ContainerId':'c','Settings':{'ProcessParameters':'{\'Environment\':5}'}}").
  pose (root := fst (UnmarshalMap (F:=natFloat) b [])).
  pose (s := jsonText "{'Environment':5}").
  pose (st := [(lit "ProcessParameters", @VString N s)]).
  assert (H1 : IsScrubbingEnabled 1 = true) by (vm_compute; reflexivity).
  assert (H2 : hasKeywords b = true) by (vm_compute; reflexivity).
  assert (H3 : UnmarshalMap (F:=natFloat) b [] = (root, None))
    by (vm_compute; reflexivity).
  assert (H4 : hasKey (lit "ActivityId") root = true)
    by (vm_compute; reflexivity).
  assert (H5 : hasKey (lit "ContainerId") root = true)
    by (vm_compute; reflexivity).
  assert (H6 : lookup (lit "Settings") root = Some (VMap st))
    by (vm_compute; reflexivity).
  assert (H7 : lookup (lit "ProcessParameters") st = Some (VString s))
    by (vm_compute; reflexivity).
  assert (H8 : ScrubProcessParameters (F:=natFloat) 1 s
               = ([], Some UnmarshalTypeError))
    by (vm_compute; reflexivity).
  exact (@exec_inner_error natFloat 1 b root st s [] UnmarshalTypeError
           H1 H2 H3 H4 H5 H6 H7 H8).
Defined.

Lemma errors_are_typed_witness :
  IsScrubbingEnabled 1 = true /\ hasKeywords (jsonText "['env']") = true
  /\ Valid (jsonText "['env']") = true
  /\ UnmarshalTypeError <> SyntaxError
  /\ (ScrubProcessParameters (F:=natFloat) 1 (jsonText "['env']")
      = ([], Some UnmarshalTypeError) ->
      UnmarshalTypeError = UnmarshalTypeError).
Proof.
  apply (@errors_are_typed natFloat 1 (jsonText "['env']") []
           UnmarshalTypeError).
  right; left. vm_compute. reflexivity.
Defined.

Lemma scrub_output_wellformed_witness :
  createMessageScrubbed = createMessage
  \/ (Valid createMessageScrubbed = true /\ ValidUTF8 createMessageScrubbed).
Proof.
  apply (@scrub_output_wellformed natFloat natFloat_laws 1 createMessage
           createMessageScrubbed).
  right; left. vm_compute. reflexivity.
Defined.

Lemma ScrubBridgeCreate_hides_env_witness :
  ScrubBridgeCreate (F:=natFloat) 1
    (jsonText "{'ActivityId':'a','ContainerId':'c','ContainerConfig':{'OciSpecification':{'process':{'env':['PASSWORD=hunter2','X=1'],'cwd':'/'}}}}")
  = ScrubBridgeCreate (F:=natFloat) 1 createMessage
  /\ snd (ScrubBridgeCreate (F:=natFloat) 1 createMessage) = None.
Proof.
  pose (b2 := jsonText "{'ActivityId':'a','ContainerId':'c','ContainerConfig':{'OciSpecification':{'process':{'env':['PASSWORD=hunter2','X=1'],'cwd':'/'}}}}").
  pose (root1 := fst (UnmarshalMap (F:=natFloat) createMessage [])).
  pose (root2 := fst (UnmarshalMap (F:=natFloat) b2 [])).
  pose (e := @VSlice N [VString (lit "FOO=bar")]).
  pose (e2 := @VSlice N [VString (lit "PASSWORD=hunter2");
                         VString (lit "X=1")]).
  pose (proc := [(lit "cwd", @VString N (lit "/")); (lit "env", e)]).
  assert (H1 : IsScrubbingEnabled 1 = true) by (vm_compute; reflexivity).
  assert (H2 : hasKeywords createMessage = true) by (vm_compute; reflexivity).
  assert (H3 : hasKeywords b2 = true) by (vm_compute; reflexivity).
  assert (H4 : UnmarshalMap (F:=natFloat) createMessage [] = (root1, None))
    by (vm_compute; reflexivity).
  assert (H5 : UnmarshalMap (F:=natFloat) b2 [] = (root2, None))
    by (vm_compute; reflexivity).
  assert (H6 : hasKey (lit "ActivityId") root1 = true)
    by (vm_compute; reflexivity).
  assert (H7 : hasKey (lit "ContainerId") root1 = true)
    by (vm_compute; reflexivity).
  assert (H8 : getAt root1 [lit "ContainerConfig"; lit "OciSpecification";
                            lit "process"] = Some proc)
    by (vm_compute; reflexivity).
  assert (H9 : lookup (lit "env") proc = Some e) by (vm_compute; reflexivity).
  assert (H10 : root2 = setAt root1
                          [lit "ContainerConfig"; lit "OciSpecification";
                           lit "process"] (lit "env") e2)
    by (vm_compute; reflexivity).
  exact (@ScrubBridgeCreate_hides_env natFloat 1 createMessage b2 root1 root2
           proc e e2 H1 H2 H3 H4 H5 H6 H7 H8 H9 H10).
Defined.

Lemma hasKeywords_raw_bytes_witness :
  hasKeywords (jsonText "{'x':'" ++ lit "Environment" ++ jsonText "'}") = true
  /\ hasKeywords (lit "ENV=1, ENVIRONMENT=2") = false.
Proof.
  split.
  - apply (proj1 (proj2 (hasKeywords_raw_bytes (lit "Environment")
                           (jsonText "{'x':'") (jsonText "'}")))).
    vm_compute. reflexivity.
  - apply (proj2 (proj2 (hasKeywords_raw_bytes (lit "ENV=1, ENVIRONMENT=2")
                           [] []))).
    vm_compute. intuition discriminate.
Defined.

(** ** The pid file and the log at concrete contents *)

Lemma asError_does_not_exist_witness :
  Cause (asError {| Level := 2;
                    Message := lit "container abc does not exist";
                    Err := Some (lit "exit status 1") |})
  = ErrContainerDoesNotExist.
Proof.
  apply (proj2 (asError_does_not_exist
                  {| Level := 2;
                     Message := lit "container abc does not exist";
                     Err := Some (lit "exit status 1") |})).
  exists (lit " abc "). vm_compute. reflexivity.
Defined.

Lemma asError_unclassified_witness :
  Cause (asError {| Level := 2; Message := lit "exec: permission denied";
                    Err := None |})
  = errorsNew (lit "exec: permission denied")
  /\ (@None (list byte) = None ->
      asError {| Level := 2; Message := lit "exec: permission denied";
                 Err := None |}
      = errorsNew (lit "exec: permission denied")).
Proof.
  apply (asError_unclassified
           {| Level := 2; Message := lit "exec: permission denied";
              Err := None |}).
  - intros H. apply Contains_spec in H. vm_compute in H. discriminate.
  - intros H. apply Contains_spec in H. vm_compute in H. discriminate.
Defined.

Lemma getRuncLogError_last_witness :
  getRuncLogError 2
    (Some [Some {| Level := 4; Message := lit "starting"; Err := None |};
           Some {| Level := 2; Message := lit "invalid id format: x";
                   Err := None |};
           Some {| Level := 1;
                   Message := lit "container c that is not stopped";
                   Err := None |};
           Some {| Level := 3; Message := lit "slow"; Err := None |};
           None;
           Some {| Level := 2; Message := lit "container c does not exist";
                   Err := None |}])
  = Some ErrContainerNotStopped.
Proof.
  exact (proj1 (getRuncLogError_last 2
           [{| Level := 4; Message := lit "starting"; Err := None |};
            {| Level := 2; Message := lit "invalid id format: x";
               Err := None |};
            {| Level := 1; Message := lit "container c that is not stopped";
               Err := None |};
            {| Level := 3; Message := lit "slow"; Err := None |}]
           [None;
            Some {| Level := 2; Message := lit "container c does not exist";
                    Err := None |}]
           (or_intror (ex_intro _ _ eq_refl)))).
Defined.

Lemma readPidFile_Itoa_witness :
  readPidFile (lit "/run/c/init.pid") (Some (lit "4242")) = (4242%Z, None)
  /\ readPidFile (lit "/run/c/init.pid") (Some (lit "-1")) = ((-1)%Z, None).
Proof.
  split.
  - apply (readPidFile_Itoa (lit "/run/c/init.pid") 4242). lia.
  - apply (readPidFile_Itoa (lit "/run/c/init.pid") (-1)). lia.
Defined.

Lemma readPidFile_strict_witness :
  fst (readPidFile (lit "/run/c/init.pid") (Some (lit "4242" ++ [x0a])))
  = (-1)%Z.
Proof.
  exact (readPidFile_strict (lit "/run/c/init.pid")
           (Some (lit "4242" ++ [x0a])) _ _ (surjective_pairing _)).
Defined.

Lemma paths_nest_witness :
  getContainerDir (rootedPath [lit "var"; lit "run"; lit "gcsrunc"])
    (lit "abc")
  = rootedPath [lit "var"; lit "run"; lit "gcsrunc"] ++ x2f :: lit "abc"
  /\ getProcessDir (rootedPath [lit "var"; lit "run"; lit "gcsrunc"])
       (lit "abc") 42
     = getContainerDir (rootedPath [lit "var"; lit "run"; lit "gcsrunc"])
         (lit "abc") ++ x2f :: Itoa 42
  /\ getLogDir (rootedPath [lit "tmp"; lit "logs"]) (lit "abc")
     = rootedPath [lit "tmp"; lit "logs"] ++ x2f :: lit "abc"
  /\ getLogPath (rootedPath [lit "tmp"; lit "logs"]) (lit "abc")
     = getLogDir (rootedPath [lit "tmp"; lit "logs"]) (lit "abc")
       ++ lit "/runc.log"
  /\ getGlobalLogPath (rootedPath [lit "tmp"; lit "logs"])
     = rootedPath [lit "tmp"; lit "logs"] ++ lit "/global-runc.log".
Proof.
  apply (paths_nest [lit "var"; lit "run"; lit "gcsrunc"]
           [lit "tmp"; lit "logs"] (lit "abc") 42).
  - discriminate.
  - repeat constructor.
  - discriminate.
  - repeat constructor.
  - reflexivity.
Defined.

Lemma getContainerDir_unchecked_witness :
  getContainerDir (rootedPath ([lit "var"; lit "run"] ++ [lit "gcsrunc"])) []
  = rootedPath ([lit "var"; lit "run"] ++ [lit "gcsrunc"])
  /\ getContainerDir (rootedPath ([lit "var"; lit "run"] ++ [lit "gcsrunc"]))
       (lit "..")
     = rootedPath [lit "var"; lit "run"]
  /\ getContainerDir (rootedPath ([lit "var"; lit "run"] ++ [lit "gcsrunc"]))
       (lit "../" ++ lit "other")
     = rootedPath ([lit "var"; lit "run"] ++ [lit "other"]).
Proof.
  apply (getContainerDir_unchecked [lit "var"; lit "run"] (lit "gcsrunc")
           (lit "other")).
  - repeat constructor.
  - reflexivity.
Defined.
